(** * Zillow search scraper: the page handler (src/page-handler.js)

    A shallow embedding of [PageHandler] and of the part of
    src/main.js that builds its global context.  JavaScript numbers that the
    code only ever uses as counts are integers ([Z]); similarity ratings and
    the page count of the pagination planner are rationals ([Q]); the [Set]
    of extracted zpids is a [gset string]; the effects of a page-handling
    pass (request queue, session, sleeps, queries, reports) are fields of
    an explicit [World] threaded through a state-and-exception monad. *)

From Stdlib Require Import ZArith QArith Qminmax Qround Lia Lqa Ascii String.
From stdpp Require Import base strings pretty gmap sets list.

Local Open Scope string_scope.
Local Open Scope list_scope.
Local Open Scope Z_scope.

(** ** JavaScript string helpers *)

Module Js.

(** [s.split(sep)] for a one-character separator. *)
Fixpoint split (sep : ascii) (s : string) : list string :=
  match s with
  | EmptyString => [EmptyString]
  | String c r =>
      if Ascii.eqb c sep then EmptyString :: split sep r
      else match split sep r with
           | h :: t => String c h :: t
           | [] => [String c EmptyString]
           end
  end.

(** [a[0]] and [a.pop()] on the array returned by [split] (never empty). *)
Definition first (a : list string) : string := List.hd EmptyString a.
Definition pop (a : list string) : string := List.last a EmptyString.

(** [s.replace(/-/g, ' ')]. *)
Fixpoint replace_dashes (s : string) : string :=
  match s with
  | EmptyString => EmptyString
  | String c r =>
      String (if Ascii.eqb c "-"%char then " "%char else c) (replace_dashes r)
  end.

(** Truthiness of a string and of a possibly undefined string. *)
Definition truthy (s : string) : bool := negb (String.eqb s EmptyString).

Definition truthy_opt (s : option string) : bool :=
  match s with Some s => truthy s | None => false end.

(** [a || b] where [a] is a string and [b] a possibly undefined string. *)
Definition or_else (a : string) (b : option string) : option string :=
  if truthy a then Some a else b.

(** *** [ToNumber] on strings: is the result [NaN]?

    The StringNumericLiteral grammar of ECMAScript, on ASCII strings:
    optional white space around nothing (which is 0), a signed decimal
    literal with optional fraction and exponent, a signed [Infinity], or an
    unsigned binary, octal or hexadecimal integer literal. *)

Definition is_ws (c : ascii) : bool :=
  match nat_of_ascii c with
  | 9%nat | 10%nat | 11%nat | 12%nat | 13%nat | 32%nat => true
  | _ => false
  end.

Definition in_range (lo hi : nat) (c : ascii) : bool :=
  Nat.leb lo (nat_of_ascii c) && Nat.leb (nat_of_ascii c) hi.

Definition is_digit : ascii -> bool := in_range 48 57.
Definition is_bin_digit : ascii -> bool := in_range 48 49.
Definition is_oct_digit : ascii -> bool := in_range 48 55.
Definition is_hex_digit (c : ascii) : bool :=
  is_digit c || in_range 65 70 c || in_range 97 102 c.

Fixpoint drop_ws (l : list ascii) : list ascii :=
  match l with
  | c :: r => if is_ws c then drop_ws r else l
  | [] => []
  end.

Definition trim (l : list ascii) : list ascii :=
  List.rev (drop_ws (List.rev (drop_ws l))).

(** Number of leading characters satisfying [p], and what follows them. *)
Fixpoint span (p : ascii -> bool) (l : list ascii) : nat * list ascii :=
  match l with
  | c :: r => if p c then let '(n, t) := span p r in (S n, t) else (O, l)
  | [] => (O, [])
  end.

Definition digits1 (p : ascii -> bool) (l : list ascii) : bool :=
  match l with [] => false | _ => List.forallb p l end.

Definition is_sign (c : ascii) : bool :=
  Ascii.eqb c "+"%char || Ascii.eqb c "-"%char.

Definition exponent_opt (l : list ascii) : bool :=
  match l with
  | [] => true
  | c :: r =>
      (Ascii.eqb c "e"%char || Ascii.eqb c "E"%char) &&
      match r with
      | s :: r' => if is_sign s then digits1 is_digit r' else digits1 is_digit r
      | [] => false
      end
  end.

Definition unsigned_decimal (l : list ascii) : bool :=
  if String.eqb (string_of_list_ascii l) "Infinity" then true
  else
    let '(n1, r1) := span is_digit l in
    match r1 with
    | c :: r2 =>
        if Ascii.eqb c "."%char
        then let '(n2, r3) := span is_digit r2 in
             Nat.ltb 0 (n1 + n2) && exponent_opt r3
        else Nat.ltb 0 n1 && exponent_opt r1
    | [] => Nat.ltb 0 n1
    end.

Definition non_decimal (l : list ascii) : bool :=
  match l with
  | z :: k :: r =>
      Ascii.eqb z "0"%char &&
      (if Ascii.eqb k "x"%char || Ascii.eqb k "X"%char then digits1 is_hex_digit r
       else if Ascii.eqb k "o"%char || Ascii.eqb k "O"%char then digits1 is_oct_digit r
       else if Ascii.eqb k "b"%char || Ascii.eqb k "B"%char then digits1 is_bin_digit r
       else false)
  | _ => false
  end.

Definition numeric_literal (l : list ascii) : bool :=
  match l with
  | [] => true
  | c :: r =>
      non_decimal l || (if is_sign c then unsigned_decimal r else unsigned_decimal l)
  end.

(** [Number.isNaN(+s)]. *)
Definition to_number_is_NaN (s : string) : bool :=
  negb (numeric_literal (trim (list_ascii_of_string s))).

(** [+s != s] for a string [s]: the right operand is converted with the
    same [ToNumber], so the two sides differ exactly when that is [NaN]. *)
Definition plus_loosely_differs (s : string) : bool := to_number_is_NaN s.

End Js.

(** ** Errors

    What the code throws and catches is an [Error] object, with a [name]
    and a string [message].  A thrown value that has no [message] ([null],
    [undefined]), on which the [e.message] of a [catch] block would itself
    throw, is outside the model. *)

Record JsError := mkJsError { name : string; message : string }.

(** [new Error(msg)]. *)
Definition Error (msg : string) : JsError := mkJsError "Error" msg.

(** What [Array.prototype.reduce] throws on an empty array when no initial
    value is given. *)
Definition reduce_of_empty_array : JsError :=
  mkJsError "TypeError" "Reduce of empty array with no initial value".

(** ** Data model *)

(** The labels of ./constants [LABELS] that the handler dispatches on. *)
Inductive Label := INITIAL | DETAIL | ZPIDS | QUERY | SEARCH.

(** [input]: the fields the page handler reads; [None] is an absent
    field. *)
Record Input := mkInput {
  maxItems : option Z;
  maxLevel : option Z;
  splitThreshold : option Z;
  input_zpids : list string
}.

(** One element of [cos.sortMatch]'s result. *)
Record Comparison := mkComparison {
  member : string;
  index : nat;
  rating : Q
}.

(** One entry of [listResults] / [mapResults], with the two fields the
    address matching adds to it.  [address] is a string: an entry without
    an address, on which the address matching would throw, is outside the
    model. *)
Record ResultRecord := mkResult {
  zpid : option string;
  detailUrl : option string;
  address : string;
  match_ : option Comparison;
  baseUrl : option string
}.

(** An element of [input.startUrls] as copied into [cleanStartUrls]. *)
Record StartUrl := mkStartUrl {
  su_url : string;
  matched : bool
}.

(** The body of one [axios.post] to the reporting endpoint. *)
Inductive Report :=
| ReportResults (data : list ResultRecord)
| ReportNoMatch (baseUrl : string).

Section PageHandler.

(** ** The collaborators of the page handler

    [QueryState] is the search query state object ([qs]), opaque to the
    handler; [Payload] is the [data.property] object of a zpid query. *)
Context {QueryState Payload : Type}.

(** [{ label, zpid, searchQueryState, pageNumber, splitCount }]; [ud_zpid]
    holds the string whose [ToNumber] the code stores ([+zpid]). *)
Record UserData := mkUserData {
  label : Label;
  ud_zpid : option string;
  searchQueryState : option QueryState;
  pageNumber : option Z;
  splitCount : option Z
}.

Record Request := mkRequest {
  url : string;
  userData : UserData;
  uniqueKey : option string
}.

(** The state a page-handling pass reads and writes.  [zpids] is the
    [Set] shared by every handler; [g_maxZpidsFound] is the field of the
    [globalContext] object of main.js, [maxZpidsFound] the field of the
    handler's own [this.globalContext] object; [requestQueue] lists the
    [addRequest] calls with their [forefront] flag, oldest first; the
    remaining fields record the calls made to the session, to [sleep],
    to [queryZpid] and to [axios.post]. *)
Record World := mkWorld {
  zpids : gset string;
  g_maxZpidsFound : Z;
  maxZpidsFound : Z;
  anyErrors : bool;
  requestQueue : list (Request * bool);
  cleanStartUrls : list StartUrl;
  markBadCalls : nat;
  retireCalls : nat;
  sleeps : list Z;
  queried : list string;
  posted : list Report
}.

(** The immutable part of a handler: its request and the input. *)
Record Handler := mkHandler {
  request : Request;
  input : Input
}.

(** What page-handler.js takes from elsewhere.

    ./constants: [RESULTS_LIMIT] and [PAGES_LIMIT].  ./functions:
    [quickHash] and [splitQueryState] ([extractQueryStates] appears as
    its outcome, an argument of the functions below).  [JSON.stringify] on
    a query state, and the three URLs the handler builds with [URL]: the
    pagination URL of a page number, the URL of a map split, and
    [new URL(path, 'https://www.zillow.com').toString()].
    string-comparison: [cos.similarity].  The session, the zpid query with
    the parsing of its answer, and the output function of
    ./initialization, which owns the insertion into [zpids]: it yields the
    new contents of the set and the error it throws, if any.  Building a
    URL and [requestQueue.addRequest] are taken not to throw. *)
Record Collaborators := mkCollaborators {
  RESULTS_LIMIT : Z;
  PAGES_LIMIT : Z;
  quickHash : string -> string;
  splitQueryState : QueryState -> list QueryState;
  JSON_stringify : QueryState -> string;
  paginationUrl : QueryState -> Z -> string;
  mapSplitUrl : QueryState -> string;
  absoluteUrl : string -> string;
  similarity : string -> string -> Q;
  session_isUsable : World -> bool;
  queryZpid : World -> string -> JsError + string;
  parse_data_property : string -> JsError + Payload;
  extendOutputFunction :
    World -> Payload -> string -> option JsError * gset string
}.

Variable env : Collaborators.

(** ** Field updates *)

Definition set_zpids (z : gset string) (w : World) : World :=
  mkWorld z (g_maxZpidsFound w) (maxZpidsFound w) (anyErrors w)
    (requestQueue w) (cleanStartUrls w) (markBadCalls w) (retireCalls w)
    (sleeps w) (queried w) (posted w).

Definition set_maxZpidsFound (m : Z) (w : World) : World :=
  mkWorld (zpids w) (g_maxZpidsFound w) m (anyErrors w)
    (requestQueue w) (cleanStartUrls w) (markBadCalls w) (retireCalls w)
    (sleeps w) (queried w) (posted w).

Definition set_anyErrors (b : bool) (w : World) : World :=
  mkWorld (zpids w) (g_maxZpidsFound w) (maxZpidsFound w) b
    (requestQueue w) (cleanStartUrls w) (markBadCalls w) (retireCalls w)
    (sleeps w) (queried w) (posted w).

Definition set_requestQueue (q : list (Request * bool)) (w : World) : World :=
  mkWorld (zpids w) (g_maxZpidsFound w) (maxZpidsFound w) (anyErrors w)
    q (cleanStartUrls w) (markBadCalls w) (retireCalls w)
    (sleeps w) (queried w) (posted w).

Definition set_cleanStartUrls (c : list StartUrl) (w : World) : World :=
  mkWorld (zpids w) (g_maxZpidsFound w) (maxZpidsFound w) (anyErrors w)
    (requestQueue w) c (markBadCalls w) (retireCalls w)
    (sleeps w) (queried w) (posted w).

Definition set_markBadCalls (n : nat) (w : World) : World :=
  mkWorld (zpids w) (g_maxZpidsFound w) (maxZpidsFound w) (anyErrors w)
    (requestQueue w) (cleanStartUrls w) n (retireCalls w)
    (sleeps w) (queried w) (posted w).

Definition set_retireCalls (n : nat) (w : World) : World :=
  mkWorld (zpids w) (g_maxZpidsFound w) (maxZpidsFound w) (anyErrors w)
    (requestQueue w) (cleanStartUrls w) (markBadCalls w) n
    (sleeps w) (queried w) (posted w).

Definition set_sleeps (s : list Z) (w : World) : World :=
  mkWorld (zpids w) (g_maxZpidsFound w) (maxZpidsFound w) (anyErrors w)
    (requestQueue w) (cleanStartUrls w) (markBadCalls w) (retireCalls w)
    s (queried w) (posted w).

Definition set_queried (q : list string) (w : World) : World :=
  mkWorld (zpids w) (g_maxZpidsFound w) (maxZpidsFound w) (anyErrors w)
    (requestQueue w) (cleanStartUrls w) (markBadCalls w) (retireCalls w)
    (sleeps w) q (posted w).

Definition set_posted (p : list Report) (w : World) : World :=
  mkWorld (zpids w) (g_maxZpidsFound w) (maxZpidsFound w) (anyErrors w)
    (requestQueue w) (cleanStartUrls w) (markBadCalls w) (retireCalls w)
    (sleeps w) (queried w) p.

(** ** The monad: state that survives a throw *)

Definition M (A : Type) : Type := World -> (JsError + A) * World.

Definition ret {A} (a : A) : M A := fun w => (inr a, w).

Definition bind {A B} (m : M A) (k : A -> M B) : M B :=
  fun w =>
    match m w with
    | (inl e, w') => (inl e, w')
    | (inr a, w') => k a w'
    end.

Definition throw {A} (e : JsError) : M A := fun w => (inl e, w).

Definition try_catch {A} (m : M A) (handler : JsError -> M A) : M A :=
  fun w =>
    match m w with
    | (inl e, w') => handler e w'
    | (inr a, w') => (inr a, w')
    end.

Definition gets {A} (f : World -> A) : M A := fun w => (inr (f w), w).

Definition modify (f : World -> World) : M unit := fun w => (inr tt, f w).

(** An external call that either returns or throws. *)
Definition call {A} (f : World -> JsError + A) : M A := fun w => (f w, w).

Notation "'let*' x ':=' c 'in' k" := (bind c (fun x => k))
  (at level 10, x name, c at level 100, k at level 200).
Notation "'run' c 'in' k" := (bind c (fun _ => k))
  (at level 10, c at level 100, k at level 200).

(** ** Effects *)

Definition addRequest (r : Request) (forefront : bool) : M unit :=
  modify (fun w => set_requestQueue (requestQueue w ++ [(r, forefront)]) w).

Definition session_markBad : M unit :=
  modify (fun w => set_markBadCalls (S (markBadCalls w)) w).

Definition session_retire : M unit :=
  modify (fun w => set_retireCalls (S (retireCalls w)) w).

Definition sleep (ms : Z) : M unit :=
  modify (fun w => set_sleeps (sleeps w ++ [ms]) w).

Definition axios_post (r : Report) : M unit :=
  modify (fun w => set_posted (posted w ++ [r]) w).

(** ** The handler *)

Variable this : Handler.

(** [isOverItems(extra = 0)]: [typeof input.maxItems === 'number'] is
    [Some]. *)
Definition isOverItems (extra : Z) (w : World) : bool :=
  match maxItems (input this) with
  | Some m =>
      if 0 <? m then Z.of_nat (size (zpids w)) + extra >=? m else false
  | None => false
  end.

(** *** [processZpid] *)

Definition invalidNonNumeric : string := "Invalid non-numeric zpid".
Definition notZpid : string := "Zpid not string or number".
Definition sessionNotUsable : string :=
  "Not trying to retrieve data, session is not usable anymore".

(** [await queryZpid(page, zpid)]. *)
Definition query (zpid : string) : M string :=
  fun w => (queryZpid env w zpid, set_queried (queried w ++ [zpid]) w).

(** [await this.extendOutputFunction(property, { request, page, zpid })]. *)
Definition extendOutput (property : Payload) (zpid : string) : M unit :=
  fun w =>
    let '(thrown, z) := extendOutputFunction env w property zpid in
    (match thrown with Some e => inl e | None => inr tt end, set_zpids z w).

(** The fallback request of the [catch] block. *)
Definition detailRequest (zpid : string) (detailUrl : option string) : Request :=
  {| url := absoluteUrl env
              (if Js.truthy_opt detailUrl then default EmptyString detailUrl
               else "/homedetails/" +:+ zpid +:+ "_zpid/");
     userData := {| label := DETAIL; ud_zpid := Some zpid;
                    searchQueryState := None; pageNumber := None;
                    splitCount := None |};
     uniqueKey := Js.or_else zpid detailUrl |}.

(** The [try] block; its value is [noWait] as the block leaves it.
    [zpid] is a string, as the JSDoc of the function has it: [!zpid] holds
    of the empty string only, and the template literal of [zpid] is [zpid]
    itself. *)
Definition processZpid_try (zpid : string) : M bool :=
  if negb (Js.truthy zpid) then throw (Error notZpid)
  else if Js.plus_loosely_differs zpid then throw (Error invalidNonNumeric)
  else
    let* seen := gets (fun w => bool_decide (zpid ∈ zpids w)) in
    if seen then ret true
    else
      let* usable := gets (session_isUsable env) in
      if negb usable then throw (Error sessionNotUsable)
      else
        let* body := query zpid in
        let* property := call (fun _ => parse_data_property env body) in
        run extendOutput property zpid in
        ret false.

(** The [catch (e)] block; its value is [noWait] again.  What is caught is
    a [JsError], whose [message] can be read. *)
Definition processZpid_catch (zpid : string) (detailUrl : option string)
    (e : JsError) : M bool :=
  let* over := gets (isOverItems 0) in
  if over then ret false
  else if List.existsb (String.eqb (message e)) [notZpid; invalidNonNumeric]
  then ret true
  else
    run addRequest (detailRequest zpid detailUrl) true in
    run modify (set_anyErrors true) in
    run session_markBad in
    ret false.

(** [processZpid(zpid, detailUrl, queryZpid)]; the last line is the
    [finally] block. *)
Definition processZpid (zpid : string) (detailUrl : option string) : M unit :=
  let* over := gets (isOverItems 0) in
  if over then ret tt
  else
    let* noWait :=
      try_catch (processZpid_try zpid) (processZpid_catch zpid detailUrl) in
    if negb noWait then sleep 100 else ret tt.

(** *** The batches *)

(** [handleZpidsPage]: the loop over [input.zpids]. *)
Fixpoint handleZpidsPage_loop (l : list string) : M unit :=
  match l with
  | [] => ret tt
  | zpid :: rest =>
      run processZpid zpid (Some EmptyString) in
      let* over := gets (isOverItems 0) in
      if over then ret tt else handleZpidsPage_loop rest
  end.

Definition handleZpidsPage : M unit :=
  handleZpidsPage_loop (input_zpids (input this)).

(** [_processPageQsResults]: the value is [shouldContinue]. *)
Fixpoint _processPageQsResults (results : list ResultRecord) : M bool :=
  match results with
  | [] => ret true
  | r :: rest =>
      if Js.truthy_opt (zpid r) then
        let* over := gets (isOverItems 0) in
        if over then ret false
        else
          run processZpid (default EmptyString (zpid r)) (detailUrl r) in
          _processPageQsResults rest
      else _processPageQsResults rest
  end.

(** [_extractZpidsFromResults]: the loop, then the function.  The
    interval and the [finally] block only log. *)
Fixpoint _extractZpidsFromResults_loop (results : list ResultRecord) : M unit :=
  match results with
  | [] => ret tt
  | r :: rest =>
      if Js.truthy_opt (zpid r) then
        run processZpid (default EmptyString (zpid r)) (detailUrl r) in
        let* over := gets (isOverItems 0) in
        if over then ret tt else _extractZpidsFromResults_loop rest
      else _extractZpidsFromResults_loop rest
  end.

Definition _extractZpidsFromResults (results : list ResultRecord) : M unit :=
  if Nat.ltb 0 (length results) then _extractZpidsFromResults_loop results
  else ret tt.

(** *** The map-split planner *)

Definition mapSplitRequest (sqs : QueryState) (splitCount : Z) : Request :=
  {| url := mapSplitUrl env sqs;
     userData := {| label := QUERY; ud_zpid := None;
                    searchQueryState := Some sqs; pageNumber := None;
                    splitCount := Some splitCount |};
     uniqueKey := Some (quickHash env (JSON_stringify env sqs)) |}.

(** [_enqueueMapSplits(splits, splitCount)]. *)
Fixpoint _enqueueMapSplits (splits : list QueryState) (splitCount : Z) : M unit :=
  match splits with
  | [] => ret tt
  | sqs :: rest =>
      let* over := gets (isOverItems 0) in
      if over then ret tt
      else
        run addRequest (mapSplitRequest sqs splitCount) false in
        _enqueueMapSplits rest splitCount
  end.

(** [input.splitThreshold || RESULTS_LIMIT]. *)
Definition mapSplittingThreshold : Z :=
  match splitThreshold (input this) with
  | Some t => if t =? 0 then RESULTS_LIMIT env else t
  | None => RESULTS_LIMIT env
  end.

(** [request.userData.splitCount ?? 0] and [input.maxLevel ?? 5]. *)
Definition currentSplitCount : Z := default 0 (splitCount (userData (request this))).
Definition maxLevel_or_default : Z := default 5 (maxLevel (input this)).

(** [_tryEnqueueMapSplits(queryState, totalCount)]. *)
Definition _tryEnqueueMapSplits (queryState : QueryState) (totalCount : Z) : M unit :=
  if totalCount >=? mapSplittingThreshold then
    if currentSplitCount >=? maxLevel_or_default then ret tt
    else
      let splits := splitQueryState env queryState in
      _enqueueMapSplits splits (currentSplitCount + 1)
  else ret tt.

(** *** The pagination planner *)

Definition LISTINGS_PER_PAGE : Z := 40.

(** [Math.min((totalCount / LISTINGS_PER_PAGE) + 1, PAGES_LIMIT)]. *)
Definition pagesCount (totalCount : Z) : Q :=
  Qmin (inject_Z totalCount / inject_Z LISTINGS_PER_PAGE + 1)
       (inject_Z (PAGES_LIMIT env)).

Definition paginationRequest (sqs : QueryState) (i : Z) : Request :=
  {| url := paginationUrl env sqs i;
     userData := {| label := QUERY; ud_zpid := None;
                    searchQueryState := Some sqs; pageNumber := Some i;
                    splitCount := None |};
     uniqueKey := Some (quickHash env (JSON_stringify env sqs)) |}.

(** The error of a loop that runs out of fuel; the planner below gives
    its loop more fuel than it has pages to go through. *)
Definition out_of_fuel : JsError := mkJsError "OutOfFuel" EmptyString.

(** [for (let i = 2; i <= pagesCount; i++)], from [i] on. *)
Fixpoint pagination_loop (fuel : nat) (sqs : QueryState) (pages : Q) (i : Z) : M unit :=
  match fuel with
  | O => throw out_of_fuel
  | S fuel' =>
      if Qle_bool (inject_Z i) pages then
        run addRequest (paginationRequest sqs i) false in
        pagination_loop fuel' sqs pages (i + 1)
      else ret tt
  end.

(** [_tryEnqueuePaginationPages(searchQueryState, totalCount)]. *)
Definition _tryEnqueuePaginationPages (sqs : QueryState) (totalCount : Z) : M unit :=
  let* found := gets (fun w => Z.of_nat (size (zpids w))) in
  let* most := gets maxZpidsFound in
  if (0 <? totalCount) && (found <? most) then
    let pages := pagesCount totalCount in
    pagination_loop (S (Z.to_nat (Qfloor pages))) sqs pages 2
  else ret tt.

(** *** Search states *)

Record SearchResults := mkSearchResults {
  listResults : option (list ResultRecord);
  mapResults : option (list ResultRecord)
}.

Record Category := mkCategory { searchResults : option SearchResults }.

Record SearchState := mkSearchState {
  cat1 : option Category;
  cat2 : option Category
}.

(** An element of [queryStates], and an entry of what
    [extractQueryStates] returns. *)
Record PageState := mkPageState {
  qs : QueryState;
  searchState : option SearchState
}.

Record CategoryExtract := mkCategoryExtract {
  state : PageState;
  totalCount : Z
}.

(** [x?.catN?.searchResults?.field ?? []]. *)
Definition results_of (cat : SearchState -> option Category)
    (field : SearchResults -> option (list ResultRecord))
    (x : option SearchState) : list ResultRecord :=
  match x with
  | Some x =>
      match cat x with
      | Some c =>
          match searchResults c with
          | Some sr => default [] (field sr)
          | None => []
          end
      | None => []
      end
  | None => []
  end.

(** [__getPageQsResults(pageQs)]. *)
Definition __getPageQsResults (pageQs : option SearchState) : list ResultRecord :=
  results_of cat1 listResults pageQs ++ results_of cat1 mapResults pageQs ++
  results_of cat2 listResults pageQs ++ results_of cat2 mapResults pageQs.

(** [_mergeListResultsMapResults(queryStates)]. *)
Definition _mergeListResultsMapResults (queryStates : list PageState) : list ResultRecord :=
  List.flat_map
    (fun s =>
       results_of cat1 mapResults (searchState s) ++
       results_of cat1 listResults (searchState s) ++
       results_of cat2 mapResults (searchState s) ++
       results_of cat2 listResults (searchState s))
    queryStates.

(** *** Address matching *)

(** [Array.prototype.reduce(f)] without an initial value. *)
Definition reduce {A} (f : A -> A -> A) (l : list A) : JsError + A :=
  match l with
  | [] => inl reduce_of_empty_array
  | x :: r => inr (List.fold_left f r x)
  end.

(** [Array.prototype.sort((a, b) => a.rating - b.rating)]: ascending and
    stable. *)
Fixpoint insert_by_rating (x : Comparison) (l : list Comparison) : list Comparison :=
  match l with
  | [] => [x]
  | y :: r =>
      if Qle_bool (rating x) (rating y) then x :: y :: r
      else y :: insert_by_rating x r
  end.

Definition sort_by_rating (l : list Comparison) : list Comparison :=
  List.fold_right insert_by_rating [] l.

(** [cos.sortMatch(thanos, avengers)] of string-comparison: every member
    with its index and rating, the highest rating last. *)
Definition sortMatch (thanos : string) (avengers : list string) : list Comparison :=
  sort_by_rating (imap (fun i s => mkComparison s i (similarity env thanos s)) avengers).

(** [cleanStartUrls[i].url.split('/').pop().replace(/-/g, ' ')]. *)
Definition startUrlAddress (c : StartUrl) : string :=
  Js.replace_dashes (Js.pop (Js.split "/" (su_url c))).

(** The callback of [comparison.filter]. *)
Definition qualifies (zillowAddress : string) (f : Comparison) : bool :=
  let zStreetNo := Js.first (Js.split " " zillowAddress) in
  let rStreetNo := Js.first (Js.split " " (member f)) in
  Qle_bool (9 # 10) (rating f) && String.eqb zStreetNo rStreetNo.

Definition matchedComparisons (r : ResultRecord) (su : list string) : list Comparison :=
  List.filter (qualifies (address r)) (sortMatch (address r) su).

(** [(prev, current) => (prev.rating > current.rating) ? prev : current]. *)
Definition higher (prev current : Comparison) : Comparison :=
  if Qle_bool (rating prev) (rating current) then current else prev.

(** [r.match.rating] for an element of [filteredResults]. *)
Definition match_rating (r : ResultRecord) : Q :=
  match match_ r with Some m => rating m | None => 0%Q end.

(** [(prev, current) => (prev.match.rating > current.match.rating) ? prev : current]. *)
Definition higherMatch (prev current : ResultRecord) : ResultRecord :=
  if Qle_bool (match_rating prev) (match_rating current) then current else prev.

Definition undefined_property : JsError :=
  mkJsError "TypeError" "Cannot read properties of undefined".

(** [cleanStartUrls[i]], whose [url] and [matched] the code then uses. *)
Definition startUrl_at (i : nat) : M StartUrl :=
  call (fun w => match cleanStartUrls w !! i with
                 | Some c => inr c
                 | None => inl undefined_property
                 end).

(** The loop over the merged results, from the remaining [results] and
    the [filteredResults] pushed so far. *)
Fixpoint match_loop (su : list string) (results filteredResults : list ResultRecord)
    : M (list ResultRecord) :=
  match results with
  | [] => ret filteredResults
  | r :: rest =>
      let matched_ := matchedComparisons r su in
      if Nat.ltb 0 (length matched_) then
        let* m := call (fun _ => reduce higher matched_) in
        let* c := startUrl_at (index m) in
        run modify (fun w =>
              set_cleanStartUrls
                (<[index m := mkStartUrl (su_url c) true]> (cleanStartUrls w)) w) in
        match_loop su rest
          (filteredResults ++
           [mkResult (zpid r) (detailUrl r) (address r) (Some m) (Some (su_url c))])
      else match_loop su rest filteredResults
  end.

(** The filter that yields [reducedStartUrls]. *)
Definition not_matched (results : list ResultRecord) (f : StartUrl) : bool :=
  negb (List.existsb
          (fun r => bool_decide (baseUrl r = Some (su_url f)) || matched f)
          results).

Fixpoint report_no_match (reducedStartUrls : list StartUrl) : M unit :=
  match reducedStartUrls with
  | [] => ret tt
  | rSU :: rest =>
      run axios_post (ReportNoMatch (su_url rSU)) in report_no_match rest
  end.

(** *** Processing the extracted query states *)

(** [_validateQueryStatesResults(results, queryStates, totalCount)]: the
    value is [Some false] for [return false] and [None] for [undefined]. *)
Definition _validateQueryStatesResults (results : list ResultRecord) (totalCount : Z)
    : M (option bool) :=
  if negb (Nat.ltb 0 (length results)) then
    if 0 <? totalCount then
      run session_retire in
      throw (Error ("No map results but result count is " +:+ pretty totalCount))
    else ret (Some false)
  else ret None.

(** [for (const { qs } of queryStates)] of [_processExtractedQueryStates]. *)
Fixpoint queryStates_loop (currentPage totalCount : Z) (results : list ResultRecord)
    (queryStates : list PageState) : M unit :=
  match queryStates with
  | [] => ret tt
  | s :: rest =>
      let* found := gets (fun w => Z.of_nat (size (zpids w))) in
      let* most := gets maxZpidsFound in
      if found >=? most then ret tt
      else
        run (if currentPage =? 1 then
               run _tryEnqueueMapSplits (qs s) totalCount in
               _tryEnqueuePaginationPages (qs s) totalCount
             else ret tt) in
        run _extractZpidsFromResults results in
        queryStates_loop currentPage totalCount results rest
  end.

(** [pageNumber || 1]. *)
Definition currentPage : Z :=
  match pageNumber (userData (request this)) with
  | Some n => if n =? 0 then 1 else n
  | None => 1
  end.

(** [_processExtractedQueryStates(queryStates, totalCount, queryZpid,
    cleanStartUrls)]; [cleanStartUrls] is the array of the world. *)
Definition _processExtractedQueryStates (queryStates : list PageState) (totalCount : Z)
    : M unit :=
  let results := _mergeListResultsMapResults queryStates in
  let* su := gets (fun w => List.map startUrlAddress (cleanStartUrls w)) in
  let* filteredResults := match_loop su results [] in
  let* best := call (fun _ => reduce higherMatch filteredResults) in
  let results := [best] in
  run axios_post (ReportResults results) in
  let* reducedStartUrls :=
    gets (fun w => List.filter (not_matched results) (cleanStartUrls w)) in
  run report_no_match reducedStartUrls in
  let* result := _validateQueryStatesResults results (Z.of_nat (length results)) in
  match result with
  | Some false => ret tt
  | _ => queryStates_loop currentPage totalCount results queryStates
  end.

(** [_extractQueryStatesForCurrentPage(pageQs)], given the outcome of the
    call to [extractQueryStates]. *)
Definition _extractQueryStatesForCurrentPage
    (extracted : JsError + list CategoryExtract) : M (list PageState * Z) :=
  let* extractedQueryStates := call (fun _ => extracted) in
  let sumTotalCount :=
    List.fold_left (fun out c => out + totalCount c) extractedQueryStates 0 in
  run modify (fun w => set_maxZpidsFound (Z.max sumTotalCount (maxZpidsFound w)) w) in
  ret (List.map state extractedQueryStates, sumTotalCount).

(** What the browser page gives to one pass: the error of
    [_waitForSearchPageToLoad] if it throws, the outcome of [_getPageQs],
    and the outcome of [extractQueryStates]. *)
Record PageLoad := mkPageLoad {
  waitForSearchPageToLoad : option JsError;
  pageQs : JsError + option SearchState;
  extractQueryStates : JsError + list CategoryExtract
}.

(** The [try] block of [handleQueryAndSearchPage]: the value is
    [(shouldContinue, queryStates, totalCount)]. *)
Definition handleQueryAndSearchPage_try (label : Label) (page : PageLoad)
    : M (bool * list PageState * Z) :=
  run (match label, waitForSearchPageToLoad page with
       | SEARCH, Some e => throw e
       | _, _ => ret tt
       end) in
  let* pageQs := call (fun _ => pageQs page) in
  let results := __getPageQsResults pageQs in
  let* shouldContinue := _processPageQsResults results in
  if shouldContinue then
    let* extracted := _extractQueryStatesForCurrentPage (extractQueryStates page) in
    ret (true, extracted.1, extracted.2)
  else ret (false, [], 0).

(** [handleQueryAndSearchPage(label, queryZpid, cleanStartUrls)]. *)
Definition handleQueryAndSearchPage (label : Label) (page : PageLoad) : M unit :=
  let* r :=
    try_catch (handleQueryAndSearchPage_try label page)
      (fun _ => run session_retire in throw (Error "Retrying search")) in
  let '(shouldContinue, queryStates, totalCount) := r in
  if shouldContinue && Nat.ltb 0 (length queryStates) then
    _processExtractedQueryStates queryStates totalCount
  else ret tt.

(** [new PageHandler(context, globalContext, extendOutputFunction)]: the
    constructor builds a fresh [this.globalContext] object from the fields
    of the one of main.js, so [maxZpidsFound] is copied by value. *)
Definition new_PageHandler (w : World) : World :=
  set_anyErrors false (set_maxZpidsFound (g_maxZpidsFound w) w).

End PageHandler.

(** ** The host's request queue

    The request queue belongs to the crawler, not to this repository.  It
    drops a request whose [uniqueKey] it has already seen and puts a
    [forefront] request first; [host_queue] replays a list of [addRequest]
    calls on an empty queue. *)

Definition same_key {QueryState} (r r' : @Request QueryState) : bool :=
  bool_decide (uniqueKey r = uniqueKey r').

Definition host_enqueue {QueryState} (q : list (@Request QueryState))
    (c : @Request QueryState * bool) : list Request :=
  if List.existsb (same_key c.1) q then q
  else if c.2 then c.1 :: q else q ++ [c.1].

Definition host_queue {QueryState} (calls : list (@Request QueryState * bool))
    : list Request :=
  List.fold_left host_enqueue calls [].

(** ** The spec's reading of two computations, for comparison *)

(** [min(ceil(totalCount / 40) + 1, pagesLimit)]. *)
Definition spec_pagesCount (totalCount pagesLimit : Z) : Z :=
  Z.min ((totalCount + 39) / 40 + 1) pagesLimit.

(** Pages [2 .. pagesCount]. *)
Definition spec_pages (totalCount pagesLimit : Z) : list Z :=
  seqZ 2 (spec_pagesCount totalCount pagesLimit - 1).

(** The maximum-rating element, the first one encountered on a tie. *)
Definition spec_higher (prev current : Comparison) : Comparison :=
  if Qle_bool (rating current) (rating prev) then prev else current.

(** ** Concrete collaborators and inputs

    Query states are named by strings and a payload is the body of the
    answer.  [same_address] rates equal addresses 1 and any other pair 0;
    the examples below only compare an address with itself or with an
    address of another street number, which does not qualify whatever its
    rating. *)

Module Demo.

Definition same_address (a b : string) : Q :=
  if String.eqb a b then 1%Q else 0%Q.

Definition quarters (q : string) : list string :=
  [q +:+ "/nw"; q +:+ "/ne"; q +:+ "/sw"; q +:+ "/se"].

(** Every query succeeds and the output function inserts the zpid. *)
Definition env (usable : bool) : @Collaborators string string :=
  {| RESULTS_LIMIT := 500;
     PAGES_LIMIT := 20;
     quickHash := fun s => "#" +:+ s;
     splitQueryState := quarters;
     JSON_stringify := fun q => q;
     paginationUrl := fun q i => q +:+ "?page=" +:+ pretty i;
     mapSplitUrl := fun q => q;
     absoluteUrl := fun p => "https://www.zillow.com" +:+ p;
     similarity := same_address;
     session_isUsable := fun _ => usable;
     queryZpid := fun _ z => inr z;
     parse_data_property := fun body => inr body;
     extendOutputFunction := fun w _ z => (None, {[ z ]} ∪ zpids w) |}.

Definition userData0 : @UserData string :=
  {| label := QUERY; ud_zpid := None; searchQueryState := None;
     pageNumber := None; splitCount := None |}.

(** The request of an un-split first page, and of the second page of a
    viewport at split level 1. *)
Definition request0 : @Request string :=
  {| url := "https://www.zillow.com/homes/"; userData := userData0;
     uniqueKey := Some "start" |}.

Definition request_split_page2 : @Request string :=
  {| url := "https://www.zillow.com/homes/";
     userData := {| label := QUERY; ud_zpid := None; searchQueryState := Some "usa/nw";
                    pageNumber := Some 2; splitCount := Some 1 |};
     uniqueKey := Some "#usa/nw" |}.

Definition input0 (maxItems : option Z) : Input :=
  {| maxItems := maxItems; maxLevel := None; splitThreshold := None;
     input_zpids := [] |}.

Definition handler (maxItems : option Z) : @Handler string :=
  {| request := request0; input := input0 maxItems |}.

Definition handler_split_page2 : @Handler string :=
  {| request := request_split_page2; input := input0 None |}.

Definition world (seen : gset string) (most : Z) (targets : list string)
    : @World string :=
  {| zpids := seen; g_maxZpidsFound := 0; maxZpidsFound := most;
     anyErrors := false; requestQueue := [];
     cleanStartUrls := List.map (fun u => mkStartUrl u false) targets;
     markBadCalls := 0; retireCalls := 0; sleeps := []; queried := [];
     posted := [] |}.

Definition result (zpid address : string) : ResultRecord :=
  mkResult (Some zpid) None address None None.

Definition main_st : ResultRecord := result "11" "100 Main St".
Definition oak_ave : ResultRecord := result "22" "200 Oak Ave".

(** A query state whose only category has the given map results. *)
Definition page_state (q : string) (results : list ResultRecord) : @PageState string :=
  {| qs := q;
     searchState :=
       Some (mkSearchState
               (Some (mkCategory (Some (mkSearchResults None (Some results)))))
               None) |}.

(** A page whose embedded results are empty and whose query states are
    the given ones. *)
Definition page (states : list (@CategoryExtract string)) : @PageLoad string :=
  {| waitForSearchPageToLoad := None;
     pageQs := inr None;
     extractQueryStates := inr states |}.

(** A page whose embedded list results are [embedded]. *)
Definition page_embedding (embedded : list ResultRecord)
    (states : list (@CategoryExtract string)) : @PageLoad string :=
  {| waitForSearchPageToLoad := None;
     pageQs :=
       inr (Some (mkSearchState
                    (Some (mkCategory (Some (mkSearchResults (Some embedded) None))))
                    None));
     extractQueryStates := inr states |}.

(** Two start URLs for the address of [main_st] and one for an address
    that no record has. *)
Definition main_st_url : string := "https://www.zillow.com/homes/100-Main-St".
Definition main_st_url' : string := "https://www.zillow.com/homedetails/100-Main-St".
Definition pine_rd_url : string := "https://www.zillow.com/homes/999-Pine-Rd".

(** [main_st] once the matching has selected the first target for it. *)
Definition main_st_matched : ResultRecord :=
  mkResult (Some "11") None "100 Main St"
    (Some (mkComparison "100 Main St" 0 1)) (Some main_st_url).

Definition world_matched (seen : gset string) (most : Z) : @World string :=
  {| zpids := seen; g_maxZpidsFound := 0; maxZpidsFound := most;
     anyErrors := false; requestQueue := [];
     cleanStartUrls := [mkStartUrl main_st_url true; mkStartUrl pine_rd_url false];
     markBadCalls := 0; retireCalls := 0; sleeps := []; queried := [];
     posted := [] |}.

End Demo.

(** ** The vocabulary of the statements *)

Section Vocabulary.

Context {QueryState : Type}.

Local Abbreviation World := (@World QueryState).

(** The world after some more [addRequest] calls. *)
Definition add_requests (calls : list (Request * bool)) (w : World) : World :=
  set_requestQueue (requestQueue w ++ calls) w.

(** A relation that every field update other than those of [queried] and
    [maxZpidsFound] respects. *)
Record Frame (R : World -> World -> Prop) : Prop := mkFrame {
  frame_refl : forall w, R w w;
  frame_trans : forall a b c, R a b -> R b c -> R a c;
  frame_zpids : forall z w, R w (set_zpids z w);
  frame_anyErrors : forall b w, R w (set_anyErrors b w);
  frame_requestQueue : forall q w, R w (set_requestQueue q w);
  frame_cleanStartUrls : forall c w, R w (set_cleanStartUrls c w);
  frame_markBadCalls : forall n w, R w (set_markBadCalls n w);
  frame_retireCalls : forall n w, R w (set_retireCalls n w);
  frame_sleeps : forall l w, R w (set_sleeps l w);
  frame_posted : forall l w, R w (set_posted l w)
}.

(** [R] allows a query of [z]. *)
Definition querying (R : World -> World -> Prop) (z : string) : Prop :=
  forall w, R w (set_queried (queried w ++ [z]) w).

(** [R] allows [maxZpidsFound] to be raised to a maximum. *)
Definition raising (R : World -> World -> Prop) : Prop :=
  forall s w, R w (set_maxZpidsFound (Z.max s (maxZpidsFound w)) w).

(** The zpids of the records of a list allow their queries. *)
Definition querying_results (R : World -> World -> Prop)
    (results : list ResultRecord) : Prop :=
  forall r z, In r results -> zpid r = Some z -> querying R z.

(** [maxZpidsFound] does not decrease and the field of main.js is left
    as it is. *)
Definition not_lowered (w w' : World) : Prop :=
  maxZpidsFound w <= maxZpidsFound w' /\ g_maxZpidsFound w' = g_maxZpidsFound w.

(** The queries issued in between are all for zpids that satisfy [P]. *)
Definition queries_of (P : string -> Prop) (w w' : World) : Prop :=
  exists issued, queried w' = queried w ++ issued /\ Forall P issued.

(** [m] is the last of the elements of [l] whose key is the greatest:
    nothing before it has a greater key, everything after it has a
    smaller one. *)
Definition last_maximum {A} (key : A -> Q) (l : list A) (m : A) : Prop :=
  exists l1 l2,
    l = l1 ++ m :: l2 /\
    (forall x, In x l1 -> (key x <= key m)%Q) /\
    (forall x, In x l2 -> (key x < key m)%Q).

(** [maxZpidsFound] is left as it is. *)
Definition same_maxZpidsFound (w w' : World) : Prop :=
  maxZpidsFound w' = maxZpidsFound w.

(** What [match_loop] pushes: records of the merged results, each with
    the comparison selected for it. *)
Definition selected_for {Payload} (env : @Collaborators QueryState Payload)
    (su : list string) (results : list ResultRecord)
    (x : ResultRecord) : Prop :=
  exists r m,
    In r results /\
    zpid x = zpid r /\ detailUrl x = detailUrl r /\ address x = address r /\
    match_ x = Some m /\
    reduce higher (matchedComparisons env r su) = inr m.

End Vocabulary.

(** ** The rest of the handler, and the page function of src/main.js *)

Module JsString.

(** [s.startsWith(p)]. *)
Fixpoint startsWith (s p : string) : bool :=
  match p with
  | EmptyString => true
  | String a p' =>
      match s with
      | String b s' => Ascii.eqb a b && startsWith s' p'
      | EmptyString => false
      end
  end.

(** [s.includes(p)]. *)
Fixpoint includes (s p : string) : bool :=
  startsWith s p ||
  match s with
  | String _ s' => includes s' p
  | EmptyString => false
  end.

(** Whether [s] has ASCII characters only.  On such strings
    [Js.to_number_is_NaN] is [Number.isNaN(+s)]; [ToNumber] trims more
    white space than the six ASCII characters of [Js.is_ws] (U+00A0 and
    U+FEFF among others), so that a string with other characters may have a
    number where [Js.to_number_is_NaN] holds. *)
Definition is_ascii (s : string) : bool :=
  List.forallb (fun c => Nat.ltb (nat_of_ascii c) 128) (list_ascii_of_string s).

End JsString.

Section Crawler.

Context {QueryState Payload : Type}.

Local Abbreviation World := (@World QueryState).
Local Abbreviation M := (@M QueryState).
Local Abbreviation Request := (@Request QueryState).

(** What main.js holds besides the global context: the requests of
    [getInitializedStartUrls], [input.handlePageTimeoutSecs] and
    [URL_PATTERNS_TO_BLOCK] of ./constants.  [ToNumber_is_zero s] says
    whether [ToNumber] of the numeric string [s] is 0; that depends on the
    rounding of the literal and is left open. *)
Record Main := mkMain {
  startUrls : list Request;
  handlePageTimeoutSecs : option Z;
  URL_PATTERNS_TO_BLOCK : list string;
  ToNumber_is_zero : string -> bool
}.

(** The state of the crawl around one request: the world of the handler;
    the variable [queryZpid] of main.js, [None] for [null] and otherwise
    the two ids the function was created from; the variable [isFinishing];
    [request.noRetry]; [autoscaledPool.maxConcurrency]; the value last
    given to [fns.changeHandlePageTimeout]; whether [page.close()] was
    called. *)
Record Crawl := mkCrawl {
  world_of : World;
  queryZpid_ids : option (string * string);
  isFinishing : bool;
  noRetry : bool;
  maxConcurrency : Z;
  handlePageTimeout : Z;
  pageClosed : bool
}.

Definition set_world (w : World) (c : Crawl) : Crawl :=
  mkCrawl w (queryZpid_ids c) (isFinishing c) (noRetry c) (maxConcurrency c)
    (handlePageTimeout c) (pageClosed c).

Definition set_queryZpid (q : option (string * string)) (c : Crawl) : Crawl :=
  mkCrawl (world_of c) q (isFinishing c) (noRetry c) (maxConcurrency c)
    (handlePageTimeout c) (pageClosed c).

Definition set_isFinishing (b : bool) (c : Crawl) : Crawl :=
  mkCrawl (world_of c) (queryZpid_ids c) b (noRetry c) (maxConcurrency c)
    (handlePageTimeout c) (pageClosed c).

Definition set_noRetry (b : bool) (c : Crawl) : Crawl :=
  mkCrawl (world_of c) (queryZpid_ids c) (isFinishing c) b (maxConcurrency c)
    (handlePageTimeout c) (pageClosed c).

Definition set_maxConcurrency (n : Z) (c : Crawl) : Crawl :=
  mkCrawl (world_of c) (queryZpid_ids c) (isFinishing c) (noRetry c) n
    (handlePageTimeout c) (pageClosed c).

Definition set_handlePageTimeout (n : Z) (c : Crawl) : Crawl :=
  mkCrawl (world_of c) (queryZpid_ids c) (isFinishing c) (noRetry c)
    (maxConcurrency c) n (pageClosed c).

Definition set_pageClosed (b : bool) (c : Crawl) : Crawl :=
  mkCrawl (world_of c) (queryZpid_ids c) (isFinishing c) (noRetry c)
    (maxConcurrency c) (handlePageTimeout c) b.

(** What the initial page gives: the outcome of [interceptQueryId], with
    [None] for an id that is missing, and the error of
    [Apify.setValue('QUERY', ...)] if it throws. *)
Record InitialPage := mkInitialPage {
  interceptQueryId : JsError + (option string * option string);
  setValue_QUERY : option JsError
}.

(** What a detail page gives: [page.url()]; the outcome of the [$eval] of
    [__NEXT_DATA__], [None] for a falsy [nextData] and otherwise
    [nextData?.props?.initialData?.building?.zpid], a string as in
    [processZpid]; the outcome of [page.$x], and for each script either the
    error of reading and parsing it or the keys of [loaded] in the order of
    [for ... in], each with the outcome of reading [loaded[key].property],
    [None] for a falsy one. *)
Record DetailPage := mkDetailPage {
  page_url : string;
  nextData : JsError + option (option string);
  scripts : JsError + list (JsError + list (string * (JsError + option Payload)))
}.

(** What one request gives to the page function and to the navigation
    hooks: whether there is a [response]; the error of [page.close()] if
    it throws, and that of [puppeteer.blockRequests] for the patterns it is
    given; the outcome of [page.$('.captcha-container')]; whether the
    context has an [autoscaledPool]; the three kinds of page; and the
    scraper function of the input, called with a label. *)
Record Visit := mkVisit {
  response : bool;
  page_close : option JsError;
  blockRequests : list string -> option JsError;
  captcha_container : JsError + bool;
  autoscaledPool : bool;
  initialPage : InitialPage;
  detailPage : DetailPage;
  searchPage : @PageLoad QueryState;
  scraperFunction : string -> World -> option JsError * World
}.

Variable env : @Collaborators QueryState Payload.
Variable this : @Handler QueryState.
Variable main : Main.

Notation "'let*' x ':=' c 'in' k" := (bind c (fun x => k))
  (at level 10, x name, c at level 100, k at level 200).
Notation "'run' c 'in' k" := (bind c (fun _ => k))
  (at level 10, c at level 100, k at level 200).

(** *** The monad of the crawl *)

Definition C (A : Type) : Type := Crawl -> (JsError + A) * Crawl.

Definition retC {A} (a : A) : C A := fun c => (inr a, c).

Definition bindC {A B} (m : C A) (k : A -> C B) : C B :=
  fun c =>
    match m c with
    | (inl e, c') => (inl e, c')
    | (inr a, c') => k a c'
    end.

Definition throwC {A} (e : JsError) : C A := fun c => (inl e, c).

Definition try_catchC {A} (m : C A) (handler : JsError -> C A) : C A :=
  fun c =>
    match m c with
    | (inl e, c') => handler e c'
    | (inr a, c') => (inr a, c')
    end.

Definition getsC {A} (f : Crawl -> A) : C A := fun c => (inr (f c), c).

Definition modifyC (f : Crawl -> Crawl) : C unit := fun c => (inr tt, f c).

(** A step of the handler, run on the world of the crawl. *)
Definition lift {A} (m : M A) : C A :=
  fun c => let '(r, w) := m (world_of c) in (r, set_world w c).

(** An awaited call of which only the outcome matters. *)
Definition awaited {A} (outcome : JsError + A) : C A := fun c => (outcome, c).

Definition settled (thrown : option JsError) : C unit :=
  awaited (match thrown with Some e => inl e | None => inr tt end).

Notation "'let+' x ':=' c 'in' k" := (bindC c (fun x => k))
  (at level 10, x name, c at level 100, k at level 200).
Notation "'run+' c 'in' k" := (bindC c (fun _ => k))
  (at level 10, c at level 100, k at level 200).

(** [await extendScraperFunction(undefined, { ..., label })]: a function of
    the user, which is handed the page, the request, the session and, as
    helpers, the request queue, the set of zpids and the query function.  It
    can reach neither the handler nor the global context, so the error flag
    and both [maxZpidsFound] fields are as they were. *)
Definition extendScraperFunction (v : Visit) (label : string) : M unit :=
  fun w =>
    let '(thrown, w') := scraperFunction v label w in
    (match thrown with Some e => inl e | None => inr tt end,
     mkWorld (zpids w') (g_maxZpidsFound w) (maxZpidsFound w) (anyErrors w)
       (requestQueue w') (cleanStartUrls w') (markBadCalls w') (retireCalls w')
       (sleeps w') (queried w') (posted w')).

(** *** [_waitForSearchPageToLoad] *)

(** What the search page gives: the error of the first awaited calls (the
    request of the login, the two selectors, the focus, the suggestions and
    the typing) if one of them throws; that of the tap with its navigation;
    the number of elements of [page.$$('#interstitial-title')]; the outcome
    of the search for the Skip button, and whether clicking it led to a
    navigation in time; [page.url()] afterwards; the outcome of
    [page.$('.captcha-container')]. *)
Record SearchLoad := mkSearchLoad {
  search_box : option JsError;
  tap : option JsError;
  interstitial : JsError + nat;
  skip : JsError + bool;
  search_url : string;
  search_captcha : JsError + bool
}.

(** The test on [page.url()]; the regular expression [/(\/homes\/|_rb)/]
    looks for one of two substrings. *)
Definition unexpected_address (url : string) : bool :=
  (negb (JsString.includes url "/homes/" || JsString.includes url "_rb") ||
   JsString.includes url "/_rb/" || JsString.includes url "_zpid") &&
  negb (JsString.includes url "searchQueryState").

(** [_waitForSearchPageToLoad()]. *)
Definition _waitForSearchPageToLoad (sl : SearchLoad) : M unit :=
  run call (fun _ => match search_box sl with Some e => inl e | None => inr tt end) in
  run try_catch
        (call (fun _ => match tap sl with Some e => inl e | None => inr tt end))
        (fun _ =>
           let* interstitial := call (fun _ => interstitial sl) in
           if negb (Nat.ltb 0 interstitial) then
             run session_retire in
             throw (Error "Search didn't redirect, retrying...")
           else
             let* redirected := call (fun _ => skip sl) in
             if redirected then ret tt
             else throw (Error "Search page didn't redirect in time")) in
  if unexpected_address (search_url sl) then
    run session_retire in
    throw (Error ("Unexpected page address " +:+ search_url sl +:+
                  ", use a better keyword for searching or proper state or city name. Will retry..."))
  else
    let* captcha := call (fun _ => search_captcha sl) in
    if captcha then
      run session_retire in
      throw (Error "Captcha found when searching, retrying...")
    else ret tt.

(** The page of a pass over a search page, once [_waitForSearchPageToLoad]
    has been run with the outcome [loaded]. *)
Definition searchPageLoad (loaded : JsError + unit) (page : @PageLoad QueryState)
    : @PageLoad QueryState :=
  {| waitForSearchPageToLoad := match loaded with inl e => Some e | inr _ => None end;
     pageQs := pageQs page;
     extractQueryStates := extractQueryStates page |}.

(** *** [handleInitialPage] *)

(** [for (const req of startUrls) await requestQueue.addRequest(req)]. *)
Fixpoint addRequests (reqs : list Request) : M unit :=
  match reqs with
  | [] => ret tt
  | req :: rest => run addRequest req false in addRequests rest
  end.

(** The [try] block; its value is [queryZpid] as the block leaves it. *)
Definition handleInitialPage_try (v : Visit) (queryZpid : option (string * string))
    : C (option (string * string)) :=
  let+ ids := awaited (interceptQueryId (initialPage v)) in
  let '(queryId, clientVersion) := ids in
  if negb (Js.truthy_opt queryId) || negb (Js.truthy_opt clientVersion)
  then throwC (Error "queryId unavailable")
  else
    match queryZpid with
    | None =>
        run+ settled (setValue_QUERY (initialPage v)) in
        run+ (if autoscaledPool v then modifyC (set_maxConcurrency 10) else retC tt) in
        run+ lift (addRequests (startUrls main)) in
        retC (Some (default EmptyString queryId, default EmptyString clientVersion))
    | Some _ => retC queryZpid
    end.

(** [handleInitialPage(queryZpid, startUrls)]. *)
Definition handleInitialPage (v : Visit) (queryZpid : option (string * string))
    : C (option (string * string)) :=
  try_catchC (handleInitialPage_try v queryZpid)
    (fun e => run+ lift session_retire in throwC e).

(** *** [handleDetailPage] *)

(** [!+request.userData.zpid]: the stored number is [NaN] or 0, or there
    is none. *)
Definition no_zpid_number : bool :=
  match ud_zpid (userData (request this)) with
  | Some s => Js.to_number_is_NaN s || ToNumber_is_zero main s
  | None => true
  end.

(** The request of the legacy layout. *)
Definition legacyRequest (zpid : string) : Request :=
  let zpidUrl := "https://www.zillow.com/homedetails/" +:+ zpid +:+ "_zpid/" in
  {| url := zpidUrl;
     userData := {| label := DETAIL; ud_zpid := Some zpid;
                    searchQueryState := None; pageNumber := None;
                    splitCount := None |};
     uniqueKey := Js.or_else zpid (Some zpidUrl) |}.

(** [for (const key in loaded)], from the remaining keys on: the value
    says whether the output function was called and returned. *)
Fixpoint loaded_loop (zpid : string)
    (loaded : list (string * (JsError + option Payload))) : M bool :=
  match loaded with
  | [] => ret false
  | (key, property) :: rest =>
      if JsString.includes key "RenderQuery" then
        let* property := call (fun _ => property) in
        match property with
        | Some property => run extendOutput env property zpid in ret true
        | None => loaded_loop zpid rest
        end
      else loaded_loop zpid rest
  end.

(** [for (const script of scripts)], from the remaining scripts on and
    from the current value of [noScriptsFound]; the value is
    [noScriptsFound] at the end.  The [catch] block reads the [message] of
    what was thrown, which every [JsError] has, and logs in both
    branches. *)
Fixpoint scripts_loop (zpid : string)
    (scripts : list (JsError + list (string * (JsError + option Payload))))
    (noScriptsFound : bool) : M bool :=
  match scripts with
  | [] => ret noScriptsFound
  | script :: rest =>
      let* found :=
        try_catch
          (let* loaded := call (fun _ => script) in loaded_loop zpid loaded)
          (fun e =>
             if JsString.includes (message e) "Cannot read property" then ret false
             else ret false) in
      scripts_loop zpid rest (if found then false else noScriptsFound)
  end.

(** [handleDetailPage()].  The output function is given the number of
    [request.userData.zpid], named by the string of [ud_zpid]. *)
Definition handleDetailPage (v : Visit) : C unit :=
  let+ over := lift (gets (isOverItems this 0)) in
  if over then retC tt
  else if JsString.startsWith (page_url (detailPage v)) "/b/" || no_zpid_number then
    let+ nextData := awaited (nextData (detailPage v)) in
    match nextData with
    | None => throwC (Error "Missing data")
    | Some zpid =>
        if Js.truthy_opt zpid then
          lift (addRequest (legacyRequest (default EmptyString zpid)) true)
        else
          run+ modifyC (set_noRetry true) in
          throwC (Error "ZPID not found in page")
    end
  else
    let+ scripts := awaited (scripts (detailPage v)) in
    if negb (Nat.ltb 0 (length scripts)) then
      run+ lift session_retire in
      throwC (Error "Failed to load preloaded data scripts")
    else
      let zpid := default EmptyString (ud_zpid (userData (request this))) in
      let+ noScriptsFound := lift (scripts_loop zpid scripts true) in
      if noScriptsFound then throwC (Error "Failed to load preloaded data from page")
      else retC tt.

(** [foundAnyErrors()]. *)
Definition foundAnyErrors : M bool := gets anyErrors.

(** *** The page function and the navigation hooks of main.js *)

(** [input.handlePageTimeoutSecs || 3600]. *)
Definition handlePageTimeoutSecs_or_default : Z :=
  match handlePageTimeoutSecs main with
  | Some t => if t =? 0 then 3600 else t
  | None => 3600
  end.

(** The chain of [if (label === ...)] of [handlePageFunction]. *)
Definition dispatch (v : Visit) : C unit :=
  let label := label (userData (request this)) in
  let+ queryZpid := getsC queryZpid_ids in
  match label, queryZpid with
  | INITIAL, _ | _, None =>
      let+ queryZpid := handleInitialPage v queryZpid in
      run+ modifyC (set_queryZpid queryZpid) in
      modifyC (set_handlePageTimeout handlePageTimeoutSecs_or_default)
  | DETAIL, Some _ => handleDetailPage v
  | ZPIDS, Some _ => lift (handleZpidsPage env this)
  | QUERY, Some _ | SEARCH, Some _ =>
      lift (handleQueryAndSearchPage env this label (searchPage v))
  end.

(** [handlePageFunction]; the first line is [new PageHandler(...)].
    [session.retire()] and [fns.changeHandlePageTimeout] are taken not to
    throw. *)
Definition handlePageFunction (v : Visit) : C unit :=
  run+ lift (modify new_PageHandler) in
  let+ over := lift (gets (isOverItems this 0)) in
  if negb (response v) || over then
    run+ settled (page_close v) in
    run+ modifyC (set_pageClosed true) in
    if negb (response v) then throwC (Error "No response from page") else retC tt
  else
    let+ captcha := awaited (captcha_container v) in
    if captcha then
      run+ lift session_retire in
      throwC (Error "Captcha found, retrying...")
    else
      run+ dispatch v in
      run+ lift (extendScraperFunction v "HANDLE") in
      let+ anyErrors := lift foundAnyErrors in
      if anyErrors then
        run+ lift session_retire in
        throwC (Error "Retiring session and browser...")
      else retC tt.

(** The two fields of [gotoOptions] that the hook before the navigation
    sets. *)
Record GotoOptions := mkGotoOptions {
  goto_timeout : Z;
  waitUntil : string
}.

(** The hook of [preNavigationHooks]. *)
Definition preNavigationHook (v : Visit) : C GotoOptions :=
  let+ finishing := getsC isFinishing in
  if finishing then
    run+ modifyC (set_noRetry true) in
    throwC (Error "Ending scrape")
  else
    let detail :=
      match label (userData (request this)) with DETAIL => true | _ => false end in
    run+ settled
           (blockRequests v
              (URL_PATTERNS_TO_BLOCK main ++
               (if detail then ["maps.googleapis.com"; ".js"] else []))) in
    run+ lift (extendScraperFunction v "GOTO") in
    retC (mkGotoOptions 60000 (if detail then "domcontentloaded" else "load")).

(** The hook of [postNavigationHooks].  [page.bringToFront()] and the
    pausing of the pool are calls whose errors are caught and dropped; they
    act on the browser and on the scheduler only. *)
Definition postNavigationHook : C unit :=
  let+ over := lift (gets (isOverItems this 0)) in
  let+ finishing := getsC isFinishing in
  if over && negb finishing then modifyC (set_isFinishing true) else retC tt.

(** *** The vocabulary of the statements *)

(** Between [c] and [c'] the field [maxZpidsFound] of the global context
    of main.js and the variable [isFinishing] have not changed. *)
Definition kept (c c' : Crawl) : Prop :=
  g_maxZpidsFound (world_of c') = g_maxZpidsFound (world_of c) /\
  isFinishing c' = isFinishing c.

(** Nor has the error flag of the handler. *)
Definition unflagged (c c' : Crawl) : Prop :=
  kept c c' /\ anyErrors (world_of c') = anyErrors (world_of c).

End Crawler.

(** ** More vocabulary *)

Section MoreVocabulary.

Context {QueryState Payload : Type}.

Local Abbreviation World := (@World QueryState).

(** The error flag and the calls to [session.markBad()] go together: the
    flag is set afterwards exactly when it was set before or the session
    was marked bad in between. *)
Definition marking (w w' : World) : Prop :=
  (markBadCalls w <= markBadCalls w')%nat /\
  anyErrors w' = anyErrors w || Nat.ltb (markBadCalls w) (markBadCalls w').

(** What a pass leaves alone once the matching is over: the reports, the
    start URLs, the calls to [session.retire()] and both [maxZpidsFound]
    fields are as they were, and the error flag follows the calls to
    [session.markBad()]. *)
Definition extracting (w w' : World) : Prop :=
  posted w' = posted w /\
  cleanStartUrls w' = cleanStartUrls w /\
  retireCalls w' = retireCalls w /\
  maxZpidsFound w' = maxZpidsFound w /\
  g_maxZpidsFound w' = g_maxZpidsFound w /\
  marking w w'.

(** The effect of one call of [processZpid zpid detailUrl] that leads
    from [w] to [w']. *)
Definition processZpid_effect (env : @Collaborators QueryState Payload)
    (zpid : string) (detailUrl : option string) (w w' : World) : Prop :=
  exists (queries : list string) (fallback slept : bool),
    (queries = [] \/ queries = [zpid]) /\
    queried w' = queried w ++ queries /\
    (queries = [] -> zpids w' = zpids w) /\
    requestQueue w' =
      requestQueue w ++
      (if fallback then [(detailRequest env zpid detailUrl, true)] else []) /\
    anyErrors w' = anyErrors w || fallback /\
    markBadCalls w' = (markBadCalls w + (if fallback then 1 else 0))%nat /\
    sleeps w' = sleeps w ++ (if slept then [100] else []) /\
    (fallback = true -> slept = true /\ Js.truthy zpid = true) /\
    extracting w w'.

(** The effect of a batch that passes the zpids [zs], or the first ones
    of them, to [processZpid] in their order: the queries and the fallback
    requests follow that order, one call of [session.markBad()] goes with
    each fallback request, and the error flag is set when there is one. *)
Definition batch_effect (zs : list string) (w w' : World) : Prop :=
  extracting w w' /\
  (exists queries,
     queried w' = queried w ++ queries /\ queries `sublist_of` zs) /\
  (exists fallbacks,
     requestQueue w' = requestQueue w ++ fallbacks /\
     List.map (fun c => uniqueKey c.1) fallbacks `sublist_of` List.map Some zs /\
     Forall (fun c => c.2 = true /\ label (userData c.1) = DETAIL) fallbacks /\
     markBadCalls w' = (markBadCalls w + length fallbacks)%nat /\
     anyErrors w' = anyErrors w || negb (Nat.eqb (length fallbacks) 0)) /\
  (exists delays,
     sleeps w' = sleeps w ++ delays /\ Forall (fun ms => ms = 100) delays /\
     (length delays <= length zs)%nat).

(** The zpids of the records that a batch passes to [processZpid]. *)
Definition truthy_zpids (results : list ResultRecord) : list string :=
  omap (fun r => if Js.truthy_opt (zpid r) then zpid r else None) results.

(** The start URLs [c'] are the start URLs [c] with some more of them
    flagged as matched. *)
Definition flags_raised (c c' : list StartUrl) : Prop :=
  Forall2 (fun a b => su_url b = su_url a /\ (matched a = true -> matched b = true))
    c c'.

(** [x] is the record [r] as the matching loop pushes it when the start
    URLs are [starts]: with the comparison selected for it and the URL of
    the start URL at the index of that comparison. *)
Definition pushed_for (env : @Collaborators QueryState Payload) (su : list string)
    (starts : list StartUrl) (r x : ResultRecord) : Prop :=
  exists m,
    reduce higher (matchedComparisons env r su) = inr m /\
    x = mkResult (zpid r) (detailUrl r) (address r) (Some m)
          (su_url <$> starts !! index m).

(** The extraction of [zpid] fails in the world [w] with the error [e],
    other than by a skip: the item cap is not reached, the [try] block of
    [processZpid] throws [e], the item cap is not reached then either, and
    the message of [e] is not one of the two skip messages. *)
Definition extraction_fails (env : @Collaborators QueryState Payload)
    (this : @Handler QueryState) (zpid : string) (w : World) (e : JsError) : Prop :=
  isOverItems this 0 w = false /\
  (processZpid_try env zpid w).1 = inl e /\
  isOverItems this 0 (processZpid_try env zpid w).2 = false /\
  List.existsb (String.eqb (message e)) [notZpid; invalidNonNumeric] = false.

End MoreVocabulary.

(** ** Collaborators that fail

    The collaborators of [Demo.env true] with a query and an output
    function of one's choice. *)

Module Faults.

Definition refused : JsError := Error "Request refused".

(** A query that throws, and two output functions: the one of [Demo.env],
    and one that throws after it has inserted the zpid. *)
Definition refuse (z : string) : JsError + string := inl refused.

Definition insert (seen : gset string) (z : string) : option JsError * gset string :=
  (None, {[ z ]} ∪ seen).

Definition insert_and_throw (seen : gset string) (z : string)
    : option JsError * gset string :=
  (Some refused, {[ z ]} ∪ seen).

Definition env (query : string -> JsError + string)
    (output : gset string -> string -> option JsError * gset string)
    : @Collaborators string string :=
  {| RESULTS_LIMIT := RESULTS_LIMIT (Demo.env true);
     PAGES_LIMIT := PAGES_LIMIT (Demo.env true);
     quickHash := quickHash (Demo.env true);
     splitQueryState := splitQueryState (Demo.env true);
     JSON_stringify := JSON_stringify (Demo.env true);
     paginationUrl := paginationUrl (Demo.env true);
     mapSplitUrl := mapSplitUrl (Demo.env true);
     absoluteUrl := absoluteUrl (Demo.env true);
     similarity := similarity (Demo.env true);
     session_isUsable := fun _ => true;
     queryZpid := fun _ z => query z;
     parse_data_property := fun body => inr body;
     extendOutputFunction := fun w _ z => output (zpids w) z |}.

End Faults.

(** ** Concrete requests and visits *)

Module Crawling.

Definition zpids_request : @Request string :=
  {| url := "https://www.zillow.com/";
     userData := {| label := ZPIDS; ud_zpid := None; searchQueryState := None;
                    pageNumber := None; splitCount := None |};
     uniqueKey := Some "ZPIDS" |}.

(** The handler of the request for the zpids of the input. *)
Definition zpids_handler (zs : list string) : @Handler string :=
  {| request := zpids_request;
     input := {| maxItems := None; maxLevel := None; splitThreshold := None;
                 input_zpids := zs |} |}.

(** The handler of the request for the initial page. *)
Definition initial_handler : @Handler string :=
  {| request :=
       {| url := "https://www.zillow.com/homes/";
          userData := {| label := INITIAL; ud_zpid := None; searchQueryState := None;
                         pageNumber := None; splitCount := None |};
          uniqueKey := Some "0.25" |};
     input := Demo.input0 None |}.

(** The handler of the fallback request of a zpid. *)
Definition detail_handler (zpid : string) : @Handler string :=
  {| request := detailRequest (Demo.env true) zpid None;
     input := Demo.input0 None |}.

(** One start URL; the examples have no zpid whose number is 0. *)
Definition main : @Main string :=
  {| startUrls := [Demo.request0];
     handlePageTimeoutSecs := None;
     URL_PATTERNS_TO_BLOCK := [".css"; ".png"];
     ToNumber_is_zero := fun s => String.eqb s "0" |}.

(** A visit with or without a response, without a captcha and without a
    scraper function of the user; the initial page gives both ids, the
    detail page has the given scripts and the search page is empty. *)
Definition visit (response : bool)
    (scripts : list (JsError + list (string * (JsError + option string))))
    : @Visit string string :=
  {| response := response;
     page_close := None;
     blockRequests := fun _ => None;
     captcha_container := inr false;
     autoscaledPool := true;
     initialPage := mkInitialPage (inr (Some "queryId", Some "clientVersion")) None;
     detailPage :=
       mkDetailPage "https://www.zillow.com/homedetails/11_zpid/" (inr None)
         (inr scripts);
     searchPage := Demo.page [];
     scraperFunction := fun _ w => (None, w) |}.

Definition ids : string * string := ("queryId", "clientVersion").

(** The crawl before a request, not finishing. *)
Definition crawl (w : @World string) (queryZpid : option (string * string))
    : @Crawl string :=
  {| world_of := w; queryZpid_ids := queryZpid; isFinishing := false;
     noRetry := false; maxConcurrency := 1; handlePageTimeout := 120;
     pageClosed := false |}.

End Crawling.

(** * Properties *)

Section Properties.

Context {QueryState Payload : Type}.
Variable env : @Collaborators QueryState Payload.
Variable this : @Handler QueryState.

Local Abbreviation World := (@World QueryState).
Local Abbreviation M := (@M QueryState).

Notation "'let*' x ':=' c 'in' k" := (bind c (fun x => k))
  (at level 10, x name, c at level 100, k at level 200).
Notation "'run' c 'in' k" := (bind c (fun _ => k))
  (at level 10, c at level 100, k at level 200).


Lemma add_requests_nil (w : World) : add_requests [] w = w.
Proof. destruct w; unfold add_requests, set_requestQueue; simpl. by rewrite app_nil_r. Qed.

Lemma add_requests_app (l1 l2 : list (Request * bool)) (w : World) :
  add_requests l2 (add_requests l1 w) = add_requests (l1 ++ l2) w.
Proof. destruct w; unfold add_requests, set_requestQueue; simpl. by rewrite app_assoc. Qed.

(** ** The pagination planner *)

Lemma Qle_bool_inject_Z_floor (i : Z) (q : Q) :
  Qle_bool (inject_Z i) q = true <-> i <= Qfloor q.
Proof.
  rewrite Qle_bool_iff. split; intros H.
  - apply Qfloor_resp_le in H. by rewrite Qfloor_Z in H.
  - apply Qle_trans with (inject_Z (Qfloor q)).
    + by rewrite <- Zle_Qle.
    + apply Qfloor_le.
Qed.

Lemma Qfloor_quotient_plus_1 (t : Z) :
  Qfloor (inject_Z t / inject_Z LISTINGS_PER_PAGE + 1) = t / 40 + 1.
Proof.
  unfold LISTINGS_PER_PAGE, Qfloor, Qdiv, Qmult, Qplus, Qinv, inject_Z; simpl.
  rewrite !Pos.mul_1_l, !Pos.mul_1_r, !Z.mul_1_r.
  rewrite Z.div_add; lia.
Qed.

Lemma Qfloor_pagesCount (t : Z) :
  Qfloor (pagesCount env t) = Z.min (t / 40 + 1) (PAGES_LIMIT env).
Proof.
  unfold pagesCount.
  set (a := (inject_Z t / inject_Z LISTINGS_PER_PAGE + 1)%Q).
  set (b := inject_Z (PAGES_LIMIT env)).
  assert (Ha : Qfloor a = t / 40 + 1) by apply Qfloor_quotient_plus_1.
  assert (Hb : Qfloor b = PAGES_LIMIT env) by apply Qfloor_Z.
  destruct (Q.min_spec a b) as [[Hlt Heq]|[Hle Heq]].
  - rewrite (Qfloor_comp _ _ Heq), Ha.
    apply Qlt_le_weak, Qfloor_resp_le in Hlt. lia.
  - rewrite (Qfloor_comp _ _ Heq), Hb.
    apply Qfloor_resp_le in Hle. lia.
Qed.

(** With fuel beyond the number of pages left, the loop ends normally
    having enqueued one request per page from [i] to the floor of
    [pages]. *)
Lemma pagination_loop_pages (sqs : QueryState) (pages : Q) (fuel : nat) :
  forall (i : Z) (w : World),
    (Z.to_nat (Qfloor pages + 1 - i) < fuel)%nat ->
    pagination_loop env fuel sqs pages i w =
      (inr tt,
       add_requests
         (List.map (fun p => (paginationRequest env sqs p, false))
            (seqZ i (Qfloor pages + 1 - i))) w).
Proof.
  induction fuel as [|fuel IH]; intros i w Hfuel; [lia|].
  simpl. destruct (Qle_bool (inject_Z i) pages) eqn:Hle.
  - apply Qle_bool_inject_Z_floor in Hle.
    unfold bind, addRequest, modify at 1. simpl.
    rewrite IH by lia.
    rewrite (seqZ_cons i) by lia. simpl.
    replace (Z.pred (Qfloor pages + 1 - i)) with (Qfloor pages + 1 - (i + 1)) by lia.
    replace (Z.succ i) with (i + 1) by lia.
    f_equal. apply (add_requests_app [_]).
  - assert (~ i <= Qfloor pages) as Hgt.
    { intros H. apply Qle_bool_inject_Z_floor in H. congruence. }
    rewrite seqZ_nil by lia. simpl. by rewrite add_requests_nil.
Qed.

(** ** Relations between the worlds before and after a computation *)


Section Frames.

Variable R : World -> World -> Prop.
Hypothesis HR : Frame R.

Lemma R_bind {A B} (m : M A) (k : A -> M B) (w : World) :
  R w (m w).2 ->
  (forall a w1, m w = (inr a, w1) -> R w1 (k a w1).2) ->
  R w (bind m k w).2.
Proof.
  intros Hm Hk. unfold bind. destruct (m w) as [[e|a] w1] eqn:E; simpl in *.
  - exact Hm.
  - eapply frame_trans; eauto.
Qed.

Lemma R_try_catch {A} (m : M A) (h : JsError -> M A) (w : World) :
  R w (m w).2 ->
  (forall e w1, m w = (inl e, w1) -> R w1 (h e w1).2) ->
  R w (try_catch m h w).2.
Proof.
  intros Hm Hh. unfold try_catch. destruct (m w) as [[e|a] w1] eqn:E; simpl in *.
  - eapply frame_trans; eauto.
  - exact Hm.
Qed.

Lemma R_gets {A} (f : World -> A) (w : World) : R w (gets f w).2.
Proof. apply frame_refl; assumption. Qed.

Lemma R_call {A} (f : World -> JsError + A) (w : World) : R w (call f w).2.
Proof. apply frame_refl; assumption. Qed.

Lemma R_ret {A} (a : A) (w : World) : R w (ret a w).2.
Proof. apply frame_refl; assumption. Qed.

Lemma R_throw {A} (e : JsError) (w : World) : R w (@throw QueryState A e w).2.
Proof. apply frame_refl; assumption. Qed.

Lemma R_addRequest (r : Request) (f : bool) (w : World) : R w (addRequest r f w).2.
Proof. unfold addRequest, modify; simpl. apply frame_requestQueue; assumption. Qed.

Lemma R_axios_post (r : Report) (w : World) : R w (axios_post r w).2.
Proof. unfold axios_post, modify; simpl. apply frame_posted; assumption. Qed.

Lemma R_sleep (ms : Z) (w : World) : R w (sleep ms w).2.
Proof. unfold sleep, modify; simpl. apply frame_sleeps; assumption. Qed.

Lemma R_session_retire (w : World) : R w (session_retire w).2.
Proof. unfold session_retire, modify; simpl. apply frame_retireCalls; assumption. Qed.

Lemma R_session_markBad (w : World) : R w (session_markBad w).2.
Proof. unfold session_markBad, modify; simpl. apply frame_markBadCalls; assumption. Qed.

Lemma R_extendOutput (p : Payload) (z : string) (w : World) :
  R w (extendOutput env p z w).2.
Proof.
  unfold extendOutput. destruct (extendOutputFunction env w p z) as [t s]. simpl.
  apply frame_zpids; assumption.
Qed.

Lemma R_query (z : string) (w : World) : querying R z -> R w (query env z w).2.
Proof. intros Hq. unfold query; simpl. apply Hq. Qed.

Ltac frame_step :=
  first
    [ assumption
    | match goal with
      | |- R ?w ?w => apply (frame_refl R HR)
      | |- R ?w (set_cleanStartUrls _ ?w) => apply (frame_cleanStartUrls R HR)
      | |- R ?w (set_anyErrors _ ?w) => apply (frame_anyErrors R HR)
      | |- R _ (ret _ _).2 => apply R_ret
      | |- R _ (throw _ _).2 => apply R_throw
      | |- R _ (gets _ _).2 => apply R_gets
      | |- R _ (call _ _).2 => apply R_call
      | |- R _ (addRequest _ _ _).2 => apply R_addRequest
      | |- R _ (axios_post _ _).2 => apply R_axios_post
      | |- R _ (sleep _ _).2 => apply R_sleep
      | |- R _ (session_retire _).2 => apply R_session_retire
      | |- R _ (session_markBad _).2 => apply R_session_markBad
      | |- R _ (extendOutput _ _ _ _).2 => apply R_extendOutput
      | |- R _ (query _ _ _).2 => apply R_query; assumption
      | |- R _ (bind _ _ _).2 => apply R_bind; [ | intros ? ? _ ]
      | |- R _ ((if ?b then _ else _) _).2 => destruct b
      | |- R _ (modify _ _).2 => unfold modify; simpl
      end ].

Ltac frame := repeat frame_step.

(** *** [processZpid] and the batches *)

Lemma R_processZpid (z : string) (d : option string) (w : World) :
  querying R z -> R w (processZpid env this z d w).2.
Proof.
  intros Hq. unfold processZpid. frame.
  apply R_try_catch.
  - unfold processZpid_try. frame.
  - intros ? ? _. unfold processZpid_catch. frame.
Qed.

Lemma R_handleZpidsPage_loop (l : list string) :
  (forall z, In z l -> querying R z) ->
  forall w, R w (handleZpidsPage_loop env this l w).2.
Proof.
  induction l as [|z l IH]; intros Hq w; cbn [handleZpidsPage_loop]; frame.
  - apply R_processZpid, Hq. by left.
  - apply IH. intros; apply Hq. by right.
Qed.


Lemma querying_results_cons (r : ResultRecord) (l : list ResultRecord) :
  querying_results R (r :: l) -> querying_results R l.
Proof. intros H r' z Hin. apply H. by right. Qed.

Lemma R_processZpid_of (r : ResultRecord) (l : list ResultRecord) (w : World) :
  querying_results R (r :: l) -> Js.truthy_opt (zpid r) = true ->
  R w (processZpid env this (default EmptyString (zpid r)) (detailUrl r) w).2.
Proof.
  intros Hq Ht. destruct (zpid r) as [z|] eqn:Ez; [|discriminate].
  simpl. apply R_processZpid. apply (Hq r z); [by left|done].
Qed.

Lemma R_processPageQsResults (results : list ResultRecord) :
  querying_results R results ->
  forall w, R w (_processPageQsResults env this results w).2.
Proof.
  induction results as [|r l IH]; intros Hq w;
    cbn [_processPageQsResults]; [frame|].
  destruct (Js.truthy_opt (zpid r)) eqn:Ht; frame.
  - by eapply R_processZpid_of.
  - by eapply IH, querying_results_cons.
  - by eapply IH, querying_results_cons.
Qed.

Lemma R_extractZpidsFromResults_loop (results : list ResultRecord) :
  querying_results R results ->
  forall w, R w (_extractZpidsFromResults_loop env this results w).2.
Proof.
  induction results as [|r l IH]; intros Hq w;
    cbn [_extractZpidsFromResults_loop]; [frame|].
  destruct (Js.truthy_opt (zpid r)) eqn:Ht; frame.
  - by eapply R_processZpid_of.
  - by eapply IH, querying_results_cons.
  - by eapply IH, querying_results_cons.
Qed.

Lemma R_extractZpidsFromResults (results : list ResultRecord) (w : World) :
  querying_results R results ->
  R w (_extractZpidsFromResults env this results w).2.
Proof.
  intros Hq. unfold _extractZpidsFromResults. frame.
  by apply R_extractZpidsFromResults_loop.
Qed.

(** *** The planners *)

Lemma R_enqueueMapSplits (splits : list QueryState) (n : Z) :
  forall w, R w (_enqueueMapSplits env this splits n w).2.
Proof.
  induction splits as [|s l IH]; intros w; cbn [_enqueueMapSplits]; frame.
  apply IH.
Qed.

Lemma R_tryEnqueueMapSplits (q : QueryState) (t : Z) (w : World) :
  R w (_tryEnqueueMapSplits env this q t w).2.
Proof. unfold _tryEnqueueMapSplits. frame. apply R_enqueueMapSplits. Qed.

Lemma R_pagination_loop (sqs : QueryState) (pages : Q) (fuel : nat) :
  forall i w, R w (pagination_loop env fuel sqs pages i w).2.
Proof.
  induction fuel as [|fuel IH]; intros i w; cbn [pagination_loop]; frame.
  apply IH.
Qed.

Lemma R_tryEnqueuePaginationPages (q : QueryState) (t : Z) (w : World) :
  R w (_tryEnqueuePaginationPages env q t w).2.
Proof. unfold _tryEnqueuePaginationPages. frame. apply R_pagination_loop. Qed.

(** *** Matching, reporting and the loop over the query states *)

Lemma R_match_loop (su : list string) (results : list ResultRecord) :
  forall acc w, R w (match_loop env su results acc w).2.
Proof.
  induction results as [|r l IH]; intros acc w; cbn [match_loop]; [frame|].
  cbv zeta. unfold startUrl_at. frame; apply IH.
Qed.

Lemma R_report_no_match (l : list StartUrl) :
  forall w, R w (report_no_match l w).2.
Proof. induction l as [|c l IH]; intros w; cbn [report_no_match]; frame. apply IH. Qed.

Lemma R_validateQueryStatesResults (results : list ResultRecord) (t : Z) (w : World) :
  R w (_validateQueryStatesResults results t w).2.
Proof. unfold _validateQueryStatesResults. frame. Qed.

Lemma R_queryStates_loop (page total : Z) (results : list ResultRecord)
    (states : list PageState) :
  querying_results R results ->
  forall w, R w (queryStates_loop env this page total results states w).2.
Proof.
  intros Hq. induction states as [|s l IH]; intros w; cbn [queryStates_loop]; frame.
  - apply R_tryEnqueueMapSplits.
  - apply R_tryEnqueuePaginationPages.
  - by apply R_extractZpidsFromResults.
  - apply IH.
Qed.

(** What follows the selection of [best] in
    [_processExtractedQueryStates]. *)
Lemma R_after_selection (best : ResultRecord) (states : list PageState) (total : Z)
    (w : World) :
  querying_results R [best] ->
  R w ((run axios_post (ReportResults [best]) in
        let* reducedStartUrls :=
          gets (fun w => List.filter (not_matched [best]) (cleanStartUrls w)) in
        run report_no_match reducedStartUrls in
        let* result :=
          _validateQueryStatesResults [best] (Z.of_nat (length [best])) in
        match result with
        | Some false => ret tt
        | _ => queryStates_loop env this (currentPage this) total [best] states
        end) w).2.
Proof.
  intros Hq. frame.
  - apply R_report_no_match.
  - apply R_validateQueryStatesResults.
  - match goal with |- R _ (match ?a with _ => _ end _).2 => destruct a as [[]|] end;
      frame; by apply R_queryStates_loop.
Qed.

Lemma R_processExtractedQueryStates (states : list PageState) (total : Z) (w : World) :
  (forall z, querying R z) ->
  R w (_processExtractedQueryStates env this states total w).2.
Proof.
  intros Hq. unfold _processExtractedQueryStates. cbv zeta.
  apply R_bind; [frame|intros su w1 _].
  apply R_bind; [apply R_match_loop|intros filteredResults w2 _].
  apply R_bind; [frame|intros best w3 _].
  apply R_after_selection. intros r z _ _. apply Hq.
Qed.

Lemma R_extractQueryStatesForCurrentPage (x : JsError + list CategoryExtract)
    (w : World) :
  raising R -> R w (_extractQueryStatesForCurrentPage x w).2.
Proof. intros Hr. unfold _extractQueryStatesForCurrentPage. frame. apply Hr. Qed.

Lemma R_handleQueryAndSearchPage (l : Label) (page : PageLoad) (w : World) :
  (forall z, querying R z) -> raising R ->
  R w (handleQueryAndSearchPage env this l page w).2.
Proof.
  intros Hq Hr. unfold handleQueryAndSearchPage. apply R_bind.
  - apply R_try_catch; [|intros ? ? _; frame].
    unfold handleQueryAndSearchPage_try. frame.
    + destruct l, (waitForSearchPageToLoad page); frame.
    + apply R_processPageQsResults. intros r z _ _. apply Hq.
    + by apply R_extractQueryStatesForCurrentPage.
  - intros [[c states] total] w1 _. frame.
    by apply R_processExtractedQueryStates.
Qed.

End Frames.

(** *** Two instances *)


Lemma not_lowered_frame : Frame (@not_lowered QueryState).
Proof.
  split; unfold not_lowered; simpl; intros; lia.
Qed.

Lemma not_lowered_querying (z : string) : querying (@not_lowered QueryState) z.
Proof. intros w. unfold not_lowered; simpl. lia. Qed.

Lemma not_lowered_raising : raising (@not_lowered QueryState).
Proof. intros t w. unfold not_lowered; simpl. lia. Qed.


Lemma queries_of_frame (P : string -> Prop) : Frame (@queries_of QueryState P).
Proof.
  split; unfold queries_of; simpl;
    try (intros; exists []; by rewrite app_nil_r).
  intros a b c (l1 & E1 & F1) (l2 & E2 & F2). exists (l1 ++ l2). split.
  - by rewrite E2, E1, app_assoc.
  - by apply Forall_app.
Qed.

Lemma queries_of_querying (P : string -> Prop) (z : string) :
  P z -> querying (@queries_of QueryState P) z.
Proof. intros HP w. exists [z]. split; [done|]. by constructor. Qed.

(** ** C1: the pagination planner *)

(** C1 (amended).  When [totalCount > 0] and fewer zpids have been
    extracted than [maxZpidsFound], [_tryEnqueuePaginationPages] ends
    normally having called [addRequest] exactly once, without [forefront],
    for each page number from 2 to [min(floor(totalCount / 40) + 1,
    PAGES_LIMIT)], in increasing order, and for no other page: the quotient
    is not rounded up.  Each request carries its page number. *)
Theorem pagination_pages_enqueued (sqs : QueryState) (totalCount : Z) (w : World) :
  0 < totalCount ->
  Z.of_nat (size (zpids w)) < maxZpidsFound w ->
  let last := Z.min (totalCount / 40 + 1) (PAGES_LIMIT env) in
  _tryEnqueuePaginationPages env sqs totalCount w =
    (inr tt,
     add_requests
       (List.map (fun p => (paginationRequest env sqs p, false)) (seqZ 2 (last - 1)))
       w) /\
  (forall p, In p (seqZ 2 (last - 1)) <-> 2 <= p <= last) /\
  NoDup (seqZ 2 (last - 1)) /\
  (forall p, pageNumber (userData (paginationRequest env sqs p)) = Some p).
Proof.
  intros Htotal Hfound last. split; [|split; [|split]].
  - unfold _tryEnqueuePaginationPages, bind, gets. cbv beta iota.
    replace (0 <? totalCount) with true by (symmetry; apply Z.ltb_lt; lia).
    replace (Z.of_nat (size (zpids w)) <? maxZpidsFound w) with true
      by (symmetry; apply Z.ltb_lt; lia).
    cbn [andb]. rewrite pagination_loop_pages by lia.
    rewrite Qfloor_pagesCount. fold last.
    by replace (last + 1 - 2) with (last - 1) by lia.
  - intros p. rewrite <- list_elem_of_In, elem_of_seqZ. lia.
  - apply NoDup_seqZ.
  - done.
Qed.

(** The requests of the pages of one query state all have the same
    [uniqueKey]: the page number is not part of what is hashed. *)
Lemma pagination_requests_share_uniqueKey (sqs : QueryState) (p p' : Z) :
  uniqueKey (paginationRequest env sqs p) = uniqueKey (paginationRequest env sqs p').
Proof. reflexivity. Qed.

(** The fuel of the loop always suffices: the planner ends normally on
    every input. *)
Lemma pagination_ends_normally (sqs : QueryState) (totalCount : Z) (w : World) :
  (_tryEnqueuePaginationPages env sqs totalCount w).1 = inr tt.
Proof.
  unfold _tryEnqueuePaginationPages, bind, gets. cbv beta iota.
  destruct ((0 <? totalCount) && _); [|done].
  by rewrite pagination_loop_pages by lia.
Qed.

(** Otherwise the planner does nothing. *)
Lemma pagination_not_triggered (sqs : QueryState) (totalCount : Z) (w : World) :
  totalCount <= 0 \/ maxZpidsFound w <= Z.of_nat (size (zpids w)) ->
  _tryEnqueuePaginationPages env sqs totalCount w = (inr tt, w).
Proof.
  intros H. unfold _tryEnqueuePaginationPages, bind, gets.
  destruct (0 <? totalCount) eqn:E1; [|done].
  destruct (Z.of_nat (size (zpids w)) <? maxZpidsFound w) eqn:E2; [|done].
  apply Z.ltb_lt in E1, E2. lia.
Qed.

(** ** The address matching *)

Lemma Qle_bool_false (a b : Q) : Qle_bool a b = false -> (b < a)%Q.
Proof.
  intros H. apply Qnot_le_lt. intros Hle.
  apply Qle_bool_iff in Hle. congruence.
Qed.

(** A left fold that keeps the accumulator only when its key is strictly
    greater yields the last maximum. *)
Lemma fold_left_last_maximum {A} (key : A -> Q) (pick : A -> A -> A) :
  (forall p c, pick p c = if Qle_bool (key p) (key c) then c else p) ->
  forall l x, last_maximum key (x :: l) (List.fold_left pick l x).
Proof.
  intros Hpick. induction l as [|y l IH]; intros x; simpl.
  - exists [], []. repeat split; intros ? [].
  - specialize (IH (pick x y)).
    remember (List.fold_left pick l (pick x y)) as m eqn:Hm. clear Hm.
    destruct IH as (l1 & l2 & E & Hbefore & Hafter).
    rewrite Hpick in E. destruct (Qle_bool (key x) (key y)) eqn:Hle.
    + apply Qle_bool_iff in Hle.
      assert (key y <= key m)%Q as Hy.
      { destruct l1 as [|y' l1]; injection E as -> E.
        - apply Qle_refl.
        - apply Hbefore. by left. }
      exists (x :: l1), l2. split; [by rewrite E|]. split; [|done].
      intros z [<-|Hz]; [|by apply Hbefore].
      by apply Qle_trans with (key y).
    + apply Qle_bool_false in Hle.
      destruct l1 as [|x' l1]; injection E as E1 E2.
      * exists [], (y :: l2). rewrite <- E1, E2. split; [done|].
        split; [intros ? []|]. intros z [<-|Hz]; [done|].
        rewrite E1. by apply Hafter.
      * subst x'. exists (x :: y :: l1), l2. split; [by rewrite E2|].
        split; [|done].
        assert (key x <= key m)%Q as Hx by (apply Hbefore; by left).
        intros z [<-|[<-|Hz]]; [done| |apply Hbefore; by right].
        apply Qlt_le_weak. by apply Qlt_le_trans with (key x).
Qed.

Lemma reduce_last_maximum {A} (key : A -> Q) (pick : A -> A -> A) (l : list A) (m : A) :
  (forall p c, pick p c = if Qle_bool (key p) (key c) then c else p) ->
  reduce pick l = inr m -> last_maximum key l m.
Proof.
  intros Hpick. destruct l as [|x l]; simpl; [discriminate|].
  intros [= <-]. by apply fold_left_last_maximum.
Qed.

Lemma last_maximum_In {A} (key : A -> Q) (l : list A) (m : A) :
  last_maximum key l m -> In m l.
Proof. intros (l1 & l2 & -> & _). apply in_or_app. right. by left. Qed.

Lemma last_maximum_greatest {A} (key : A -> Q) (l : list A) (m : A) :
  last_maximum key l m -> forall x, In x l -> (key x <= key m)%Q.
Proof.
  intros (l1 & l2 & -> & Hb & Ha) x Hx.
  apply in_app_or in Hx as [Hx|[<-|Hx]].
  - by apply Hb.
  - apply Qle_refl.
  - by apply Qlt_le_weak, Ha.
Qed.

(** Sorting keeps the elements. *)
Lemma In_insert_by_rating (x c : Comparison) (l : list Comparison) :
  In c (insert_by_rating x l) <-> c = x \/ In c l.
Proof.
  induction l as [|y l IH]; simpl; [intuition congruence|].
  destruct (Qle_bool (rating x) (rating y)); simpl; [intuition congruence|].
  rewrite IH. intuition congruence.
Qed.

Lemma In_sort_by_rating (c : Comparison) (l : list Comparison) :
  In c (sort_by_rating l) <-> In c l.
Proof.
  induction l as [|y l IH]; simpl; [done|].
  rewrite In_insert_by_rating, IH. intuition congruence.
Qed.

(** Every element of [sortMatch] is a target with its index and its
    rating. *)
Lemma In_sortMatch (thanos : string) (avengers : list string) (c : Comparison) :
  In c (sortMatch env thanos avengers) <->
  exists i s, avengers !! i = Some s /\ c = mkComparison s i (similarity env thanos s).
Proof.
  unfold sortMatch. rewrite In_sort_by_rating, <- list_elem_of_In. split.
  - intros (i & s & -> & Hs)%elem_of_lookup_imap_1. by exists i, s.
  - intros (i & s & Hs & ->).
    by apply (elem_of_lookup_imap_2 (fun i s => mkComparison s i (similarity env thanos s))).
Qed.


Lemma match_loop_selects (su : list string) (results : list ResultRecord) :
  forall acc w out w1,
    match_loop env su results acc w = (inr out, w1) ->
    exists pushed, out = acc ++ pushed /\ Forall (selected_for env su results) pushed.
Proof.
  induction results as [|r l IH]; intros acc w out w1; cbn [match_loop].
  - intros [= <- <-]. exists []. by rewrite app_nil_r.
  - cbv zeta. destruct (Nat.ltb 0 (length (matchedComparisons env r su))).
    + unfold bind at 1, call at 1.
      destruct (reduce higher (matchedComparisons env r su)) as [e|m] eqn:Em;
        [discriminate|].
      unfold bind at 1, startUrl_at, call at 1.
      destruct (cleanStartUrls w !! index m) as [c|]; [|discriminate].
      unfold bind at 1, modify at 1. intros H.
      apply IH in H as (pushed & -> & HF).
      eexists (_ :: pushed). split; [by rewrite <- app_assoc|].
      constructor.
      * exists r, m. simpl. repeat split; try done. by left.
      * eapply Forall_impl; [exact HF|].
        intros x (r' & m' & Hin & H'). exists r', m'. split; [by right|done].
    + intros H. apply IH in H as (pushed & -> & HF). exists pushed. split; [done|].
      eapply Forall_impl; [exact HF|].
      intros x (r' & m' & Hin & H'). exists r', m'. split; [by right|done].
Qed.

Lemma higher_spec (p c : Comparison) :
  higher p c = if Qle_bool (rating p) (rating c) then c else p.
Proof. reflexivity. Qed.

Lemma higherMatch_spec (p c : ResultRecord) :
  higherMatch p c = if Qle_bool (match_rating p) (match_rating c) then c else p.
Proof. reflexivity. Qed.

(** The comparison selected for one record. *)
Lemma selected_comparison (r : ResultRecord) (su : list string) (m : Comparison) :
  reduce higher (matchedComparisons env r su) = inr m ->
  last_maximum rating (matchedComparisons env r su) m /\
  (9 # 10 <= rating m)%Q /\
  Js.first (Js.split " " (address r)) = Js.first (Js.split " " (member m)) /\
  su !! index m = Some (member m) /\
  rating m = similarity env (address r) (member m).
Proof.
  intros Hm. apply (reduce_last_maximum rating) in Hm; [|apply higher_spec].
  split; [done|].
  apply last_maximum_In in Hm. unfold matchedComparisons in Hm.
  apply filter_In in Hm as [Hin Hq].
  unfold qualifies in Hq. apply andb_true_iff in Hq as [Hrating Htoken].
  apply Qle_bool_iff in Hrating. apply String.eqb_eq in Htoken.
  apply In_sortMatch in Hin as (i & s & Hs & ->). simpl in *. done.
Qed.

(** ** C3 and C5: no record matches a target *)

Lemma match_loop_no_match (su : list string) (results : list ResultRecord) :
  (forall r, In r results -> matchedComparisons env r su = []) ->
  forall acc w, match_loop env su results acc w = (inr acc, w).
Proof.
  induction results as [|r l IH]; intros Hno acc w; cbn [match_loop]; [done|].
  cbv zeta. rewrite (Hno r) by (by left). simpl. apply IH.
  intros r' Hin. apply Hno. by right.
Qed.

(** When no merged record has a qualifying candidate (in particular when
    there is no merged record), [_processExtractedQueryStates] throws the
    [TypeError] of the reduction over the empty [filteredResults], whatever
    [totalCount] is, and leaves the world as it found it: nothing is
    reported and the session is not retired. *)
Lemma processExtractedQueryStates_no_match (queryStates : list PageState)
    (totalCount : Z) (w : World) :
  (forall r, In r (_mergeListResultsMapResults queryStates) ->
     matchedComparisons env r (List.map startUrlAddress (cleanStartUrls w)) = []) ->
  _processExtractedQueryStates env this queryStates totalCount w =
    (inl reduce_of_empty_array, w).
Proof.
  intros Hno. unfold _processExtractedQueryStates. cbv zeta.
  unfold bind at 1, gets at 1. cbv beta iota.
  unfold bind at 1. by rewrite match_loop_no_match.
Qed.

(** ** C6 and C8: [processZpid] *)

Lemma isOverItems_true (m : Z) (w : World) :
  maxItems (input this) = Some m -> 0 < m -> m <= Z.of_nat (size (zpids w)) ->
  isOverItems this 0 w = true.
Proof.
  intros Hm Hpos Hsize. unfold isOverItems. rewrite Hm.
  replace (0 <? m) with true by (symmetry; apply Z.ltb_lt; lia).
  apply Z.geb_le. lia.
Qed.

Lemma processZpid_over (zpid : string) (detailUrl : option string) (w : World) :
  isOverItems this 0 w = true ->
  processZpid env this zpid detailUrl w = (inr tt, w).
Proof. intros H. unfold processZpid, bind, gets. by rewrite H. Qed.

Lemma extractZpidsFromResults_loop_over (results : list ResultRecord) (w : World) :
  isOverItems this 0 w = true ->
  _extractZpidsFromResults_loop env this results w = (inr tt, w).
Proof.
  intros H. induction results as [|r l IH]; cbn [_extractZpidsFromResults_loop]; [done|].
  destruct (Js.truthy_opt (zpid r)); [|done].
  unfold bind at 1. rewrite processZpid_over by done.
  unfold bind, gets. by rewrite H.
Qed.

Lemma processPageQsResults_over (results : list ResultRecord) (w : World) :
  isOverItems this 0 w = true ->
  exists shouldContinue,
    _processPageQsResults env this results w = (inr shouldContinue, w).
Proof.
  intros H. induction results as [|r l IH]; cbn [_processPageQsResults]; [by eexists|].
  destruct (Js.truthy_opt (zpid r)); [|done].
  unfold bind, gets. rewrite H. by eexists.
Qed.

Lemma handleZpidsPage_loop_over (l : list string) (w : World) :
  isOverItems this 0 w = true ->
  handleZpidsPage_loop env this l w = (inr tt, w).
Proof.
  intros H. destruct l as [|z l]; cbn [handleZpidsPage_loop]; [done|].
  unfold bind at 1. rewrite processZpid_over by done.
  unfold bind, gets. by rewrite H.
Qed.

(** C8.  Once [zpids.size] has reached a positive [maxItems], a call of
    [processZpid] and each of the three batches, entered or resumed at any
    of their iterations, return before the query step: they end normally
    and leave the world, and so the list of issued queries and the size of
    [zpids], as they are. *)
Theorem no_query_once_maxItems_reached (m : Z) (w : World) :
  maxItems (input this) = Some m -> 0 < m -> m <= Z.of_nat (size (zpids w)) ->
  (forall zpid detailUrl, processZpid env this zpid detailUrl w = (inr tt, w)) /\
  (forall results, _extractZpidsFromResults env this results w = (inr tt, w)) /\
  (forall rest, _extractZpidsFromResults_loop env this rest w = (inr tt, w)) /\
  (forall rest, exists shouldContinue,
     _processPageQsResults env this rest w = (inr shouldContinue, w)) /\
  (forall rest, handleZpidsPage_loop env this rest w = (inr tt, w)).
Proof.
  intros Hm Hpos Hsize.
  assert (isOverItems this 0 w = true) as H by by eapply isOverItems_true.
  split; [|split; [|split; [|split]]].
  - intros. by apply processZpid_over.
  - intros results. unfold _extractZpidsFromResults.
    destruct (Nat.ltb 0 (length results)); [|done].
    by apply extractZpidsFromResults_loop_over.
  - intros. by apply extractZpidsFromResults_loop_over.
  - intros. by apply processPageQsResults_over.
  - intros. by apply handleZpidsPage_loop_over.
Qed.

(** C6 (amended).  For a valid zpid that is not in [zpids], with the item
    cap not reached and the session not usable, [processZpid] issues no
    query; the error it throws is caught by its own [catch] block, so the
    call ends normally after it has enqueued the fallback detail request
    with [forefront], set [anyErrors], called [session.markBad()] and slept
    100 ms. *)
Theorem unusable_session_takes_the_fallback (zpid : string)
    (detailUrl : option string) (w : World) :
  isOverItems this 0 w = false ->
  Js.truthy zpid = true ->
  Js.plus_loosely_differs zpid = false ->
  zpid ∉ zpids w ->
  session_isUsable env w = false ->
  processZpid env this zpid detailUrl w =
    (inr tt,
     set_sleeps (sleeps w ++ [100])
       (set_markBadCalls (S (markBadCalls w))
          (set_anyErrors true
             (add_requests [(detailRequest env zpid detailUrl, true)] w)))).
Proof.
  intros Hover Htruthy Hnum Hseen Husable.
  unfold processZpid, bind at 1, gets at 1. rewrite Hover.
  unfold bind at 1, try_catch, processZpid_try. rewrite Htruthy, Hnum. simpl.
  unfold bind at 1, gets at 1. rewrite bool_decide_eq_false_2 by done.
  unfold bind at 1, gets at 1. rewrite Husable. simpl.
  unfold processZpid_catch, bind at 1, gets at 1. rewrite Hover.
  reflexivity.
Qed.

Lemma processZpid_try_falsy (zpid : string) (w : World) :
  Js.truthy zpid = false ->
  processZpid_try env zpid w = (inl (Error notZpid), w).
Proof. intros H. unfold processZpid_try. by rewrite H. Qed.

Lemma processZpid_try_requestQueue (zpid : string) (w : World) :
  requestQueue (processZpid_try env zpid w).2 = requestQueue w.
Proof.
  unfold processZpid_try.
  destruct (negb (Js.truthy zpid)); [done|].
  destruct (Js.plus_loosely_differs zpid); [done|].
  unfold bind at 1, gets at 1.
  destruct (bool_decide (zpid ∈ zpids w)); [done|].
  unfold bind at 1, gets at 1.
  destruct (negb (session_isUsable env w)); [done|].
  unfold bind at 1, query.
  destruct (queryZpid env w zpid) as [e|body]; [done|].
  unfold bind at 1, call.
  destruct (parse_data_property env body) as [e|property]; [done|].
  unfold bind, extendOutput. simpl.
  by destruct (extendOutputFunction env _ property zpid) as [[e|] z].
Qed.

(** What [processZpid] adds to the request queue: nothing, or the
    fallback request of a truthy zpid, with [forefront]. *)
Lemma processZpid_requests (zpid : string) (detailUrl : option string) (w : World) :
  exists added,
    requestQueue (processZpid env this zpid detailUrl w).2 = requestQueue w ++ added /\
    (added = [] \/
     added = [(detailRequest env zpid detailUrl, true)] /\ Js.truthy zpid = true).
Proof.
  unfold processZpid, bind at 1, gets at 1.
  destruct (isOverItems this 0 w);
    [exists []; simpl; rewrite app_nil_r; by split; [|left]|].
  unfold bind, try_catch.
  pose proof (processZpid_try_requestQueue zpid w) as Hq.
  destruct (processZpid_try env zpid w) as [[e|noWait] w1] eqn:Etry; simpl in Hq.
  - unfold processZpid_catch, bind at 1, gets at 1.
    destruct (isOverItems this 0 w1).
    { exists []. simpl. rewrite app_nil_r. by split; [|left]. }
    destruct (List.existsb (String.eqb (message e)) [notZpid; invalidNonNumeric])
      eqn:Emsg.
    { exists []. simpl. rewrite app_nil_r. by split; [|left]. }
    exists [(detailRequest env zpid detailUrl, true)]. simpl. rewrite Hq.
    split; [done|]. right. split; [done|].
    destruct (Js.truthy zpid) eqn:Et; [done|].
    rewrite processZpid_try_falsy in Etry by done.
    injection Etry as <- <-. discriminate.
  - exists []. rewrite app_nil_r. split; [|by left]. by destruct noWait.
Qed.

(** The host's queue never holds two requests with the same
    [uniqueKey]. *)
Lemma host_queue_NoDup (calls : list (Request * bool)) :
  NoDup (List.map uniqueKey (@host_queue QueryState calls)).
Proof.
  unfold host_queue.
  assert (forall q, NoDup (List.map uniqueKey q) ->
                    NoDup (List.map uniqueKey (List.fold_left host_enqueue calls q)))
    as H; [|apply H; simpl; constructor].
  induction calls as [|[r f] l IH]; intros q Hq; simpl; [done|].
  apply IH. unfold host_enqueue. simpl.
  destruct (List.existsb (same_key r) q) eqn:E; [done|].
  assert (uniqueKey r ∉ List.map uniqueKey q) as Hnew.
  { intros (r' & Hk & Hin)%list_elem_of_In%in_map_iff.
    assert (List.existsb (same_key r) q = true) as E'; [|congruence].
    apply existsb_exists. exists r'. split; [done|].
    unfold same_key. by apply bool_decide_eq_true_2. }
  destruct f; simpl.
  - by constructor.
  - rewrite map_app. simpl. apply NoDup_app. split; [done|]. split.
    + intros k Hk ->%list_elem_of_singleton. done.
    + apply NoDup_singleton.
Qed.

(** ** C9: the map-split planner *)

Lemma isOverItems_add_requests (calls : list (Request * bool)) (w : World) :
  isOverItems this 0 (add_requests calls w) = isOverItems this 0 w.
Proof. reflexivity. Qed.

Lemma enqueueMapSplits_requests (splits : list QueryState) (n : Z) :
  forall w,
    _enqueueMapSplits env this splits n w =
      (inr tt,
       add_requests
         (if isOverItems this 0 w then []
          else List.map (fun s => (mapSplitRequest env s n, false)) splits) w).
Proof.
  induction splits as [|s l IH]; intros w; cbn [_enqueueMapSplits].
  - unfold ret. destruct (isOverItems this 0 w); by rewrite add_requests_nil.
  - unfold bind at 1, gets at 1. destruct (isOverItems this 0 w) eqn:Hover.
    + unfold ret. by rewrite add_requests_nil.
    + unfold bind, addRequest, modify. rewrite IH.
      change (set_requestQueue _ w) with (add_requests [(mapSplitRequest env s n, false)] w).
      rewrite isOverItems_add_requests, Hover. by rewrite add_requests_app.
Qed.

(** C9 (amended).  [_tryEnqueueMapSplits] always ends normally.  It
    enqueues one request per element of [splitQueryState(queryState)] when
    [totalCount >= (input.splitThreshold || RESULTS_LIMIT)], the current
    split level is below [input.maxLevel ?? 5] AND the item cap is not
    reached; otherwise it enqueues nothing.  Every enqueued request carries
    the current split level plus 1, which is then at most the maximum
    level. *)
Theorem map_splits_enqueued (queryState : QueryState) (totalCount : Z) (w : World) :
  let level := currentSplitCount this in
  let trigger :=
    (mapSplittingThreshold env this <=? totalCount) &&
    (level <? maxLevel_or_default this) &&
    negb (isOverItems this 0 w) in
  _tryEnqueueMapSplits env this queryState totalCount w =
    (inr tt,
     add_requests
       (if trigger
        then List.map (fun s => (mapSplitRequest env s (level + 1), false))
               (splitQueryState env queryState)
        else []) w) /\
  (forall s, splitCount (userData (mapSplitRequest env s (level + 1))) = Some (level + 1)) /\
  (if trigger then level + 1 <= maxLevel_or_default this else True).
Proof.
  intros level trigger. split; [|split; [done|]].
  - unfold _tryEnqueueMapSplits, trigger. fold level.
    rewrite Z.geb_leb.
    destruct (mapSplittingThreshold env this <=? totalCount); simpl;
      [|by rewrite add_requests_nil].
    rewrite Z.geb_leb, Z.leb_antisym.
    destruct (level <? maxLevel_or_default this); simpl;
      [|by rewrite add_requests_nil].
    rewrite enqueueMapSplits_requests.
    by destruct (isOverItems this 0 w).
  - unfold trigger.
    destruct (level <? maxLevel_or_default this) eqn:E;
      [|by rewrite andb_false_r].
    apply Z.ltb_lt in E.
    by destruct (_ <=? _), (isOverItems this 0 w); simpl; try lia.
Qed.

(** ** C7: [maxZpidsFound] *)


Lemma same_maxZpidsFound_frame : Frame (@same_maxZpidsFound QueryState).
Proof. split; unfold same_maxZpidsFound; simpl; intros; congruence. Qed.

(** A page-handling pass never lowers the handler's [maxZpidsFound], and
    never writes the field of the object of main.js. *)
Lemma maxZpidsFound_not_lowered (l : Label) (page : PageLoad) (w : World) :
  not_lowered w (handleQueryAndSearchPage env this l page w).2.
Proof.
  apply R_handleQueryAndSearchPage.
  - apply not_lowered_frame.
  - apply not_lowered_querying.
  - apply not_lowered_raising.
Qed.

(** C7 (amended).  Whatever the split level and the page number of the
    handler's request, when the [try] block of [handleQueryAndSearchPage]
    gets to extract the query states it sets the handler's [maxZpidsFound]
    to the maximum of its former value and the sum of the [totalCount]s of
    the extracted categories; and the pass as a whole never lowers it. *)
Theorem maxZpidsFound_raised_on_every_page (l : Label) (page : PageLoad)
    (w w1 : World) (queryStates : list PageState) (total : Z) :
  handleQueryAndSearchPage_try env this l page w = (inr (true, queryStates, total), w1) ->
  (exists states,
     extractQueryStates page = inr states /\
     queryStates = List.map state states /\
     total = List.fold_left (fun out c => out + totalCount c) states 0) /\
  maxZpidsFound w1 = Z.max total (maxZpidsFound w) /\
  maxZpidsFound w <= maxZpidsFound (handleQueryAndSearchPage env this l page w).2.
Proof.
  intros Htry. split; [|split]; [| |apply maxZpidsFound_not_lowered].
  all: revert Htry; unfold handleQueryAndSearchPage_try.
  all: unfold bind at 1;
    destruct ((match l, waitForSearchPageToLoad page with
               | SEARCH, Some e => throw e
               | _, _ => ret tt
               end) w) as [[e|[]] w0] eqn:Ewait; [discriminate|].
  all: assert (w0 = w) as -> by
    (destruct l, (waitForSearchPageToLoad page); by injection Ewait).
  all: unfold bind at 1, call at 1;
    destruct (pageQs page) as [e|pq]; [discriminate|].
  all: unfold bind at 1.
  all: pose proof (R_processPageQsResults same_maxZpidsFound same_maxZpidsFound_frame
                     (__getPageQsResults pq) (fun _ _ _ _ _ => eq_refl) w) as Hsame.
  all: destruct (_processPageQsResults env this (__getPageQsResults pq) w)
    as [[e|[]] w2]; [discriminate| |discriminate].
  all: unfold same_maxZpidsFound in Hsame; simpl in Hsame.
  all: unfold bind at 1, _extractQueryStatesForCurrentPage, bind at 1, call at 1.
  all: destruct (extractQueryStates page) as [e|states]; [discriminate|].
  all: unfold bind, modify, ret; simpl; intros [= <- <- <-].
  - by exists states.
  - simpl. by rewrite Hsame.
Qed.

End Properties.

(** * The properties on concrete inputs *)

Section Examples.

Import Demo.

(** C1: 120 results and a limit of 20 pages give the pages 2, 3 and 4. *)
Lemma pagination_of_120_results :
  0 < 120 /\
  Z.of_nat (size (zpids (world ∅ 120 []))) < maxZpidsFound (world ∅ 120 []) /\
  _tryEnqueuePaginationPages (env true) "usa" 120 (world ∅ 120 []) =
    (inr tt,
     add_requests
       (List.map (fun p => (paginationRequest (env true) "usa" p, false)) [2; 3; 4])
       (world ∅ 120 [])).
Proof.
  assert (0 < 120) as H1 by lia.
  assert (Z.of_nat (size (zpids (world ∅ 120 []))) < maxZpidsFound (world ∅ 120 []))
    as H2 by (vm_compute; reflexivity).
  split; [exact H1|]. split; [exact H2|].
  exact (proj1 (pagination_pages_enqueued (env true) "usa" 120 (world ∅ 120 []) H1 H2)).
Defined.

(** C1 as stated fails for 100 results: the code enqueues the pages 2
    and 3, the rounded-up quotient gives the pages 2, 3 and 4. *)
Lemma pagination_of_100_results :
  let enqueued :=
    List.map (fun c => pageNumber (userData c.1))
      (requestQueue (_tryEnqueuePaginationPages (env true) "usa" 100 (world ∅ 120 [])).2) in
  enqueued = [Some 2; Some 3] /\
  spec_pages 100 20 = [2; 3; 4] /\
  enqueued <> List.map Some (spec_pages 100 20).
Proof. vm_compute. repeat split; discriminate. Qed.

(** C2 as stated fails on a page with two merged records and one target:
    the pass ends normally, below the item cap and with fewer zpids
    extracted than [maxZpidsFound], yet the only query is for the matched
    record; the other record, with its valid and unseen zpid 22, is never
    passed to [processZpid]. *)
Lemma unmatched_record_is_not_extracted :
  let w := world ∅ 2 [main_st_url] in
  let queryStates := [page_state "usa" [main_st; oak_ave]] in
  let r := _processExtractedQueryStates (env true) (handler None) queryStates 2 w in
  In oak_ave (_mergeListResultsMapResults queryStates) /\
  r.1 = inr tt /\
  queried r.2 = ["11"] /\
  ~ In "22" (queried r.2) /\
  isOverItems (handler None) 0 r.2 = false /\
  Z.of_nat (size (zpids r.2)) < maxZpidsFound r.2.
Proof.
  vm_compute. repeat split; try reflexivity.
  - right. by left.
  - intros [H|[]]. discriminate.
Qed.

(** C3: with no merged record and a reported total of 50 the pass throws
    the [TypeError] of the reduction over the empty [filteredResults]
    without retiring the session; with a reported total of 0 it throws the
    same error instead of ending normally. *)
Lemma zero_results_throw_TypeError :
  let w := world ∅ 0 [main_st_url] in
  let pass total :=
    handleQueryAndSearchPage (env true) (handler None) QUERY
      (page [mkCategoryExtract (page_state "usa" []) total]) w in
  (pass 50).1 = inl reduce_of_empty_array /\
  retireCalls (pass 50).2 = 0%nat /\
  (pass 0).1 = inl reduce_of_empty_array.
Proof. vm_compute. repeat split. Qed.

(** C5: when the only merged record matches no target, the selection
    throws before anything is reported and before any extraction. *)
Lemma no_match_throws_TypeError :
  let w := world ∅ 2 [pine_rd_url] in
  _processExtractedQueryStates (env true) (handler None)
    [page_state "usa" [oak_ave]] 1 w =
  (inl reduce_of_empty_array, w).
Proof.
  apply processExtractedQueryStates_no_match.
  intros r [<-|[]]. reflexivity.
Qed.

(** C4 as stated fails on a tie: two start URLs with the address of the
    record qualify with the same rating; the code selects the one
    encountered last (index 1), a selection that keeps the first one on a
    tie selects index 0. *)
Lemma tie_is_won_by_the_last_candidate :
  let su := List.map startUrlAddress
              [mkStartUrl main_st_url false; mkStartUrl main_st_url' false] in
  let candidates := matchedComparisons (env true) main_st su in
  List.map index candidates = [0%nat; 1%nat] /\
  List.map rating candidates = [1%Q; 1%Q] /\
  reduce higher candidates = inr (mkComparison "100 Main St" 1 1) /\
  reduce spec_higher candidates = inr (mkComparison "100 Main St" 0 1).
Proof. vm_compute. repeat split. Qed.

(** C6 on a valid, unseen zpid with an unusable session. *)
Lemma unusable_session_fallback_of_11 :
  let w := world ∅ 0 [] in
  isOverItems (handler None) 0 w = false /\
  Js.truthy "11" = true /\
  Js.plus_loosely_differs "11" = false /\
  ("11" ∉ zpids w) /\
  session_isUsable (env false) w = false /\
  processZpid (env false) (handler None) "11" None w =
    (inr tt,
     set_sleeps [100]
       (set_markBadCalls 1
          (set_anyErrors true
             (add_requests [(detailRequest (env false) "11" None, true)] w)))).
Proof.
  intros w.
  assert (isOverItems (handler None) 0 w = false) as H1 by reflexivity.
  assert (Js.truthy "11" = true) as H2 by reflexivity.
  assert (Js.plus_loosely_differs "11" = false) as H3 by reflexivity.
  assert ("11" ∉ zpids w) as H4 by (simpl; apply not_elem_of_empty).
  assert (session_isUsable (env false) w = false) as H5 by reflexivity.
  repeat (split; [assumption|]).
  exact (unusable_session_takes_the_fallback (env false) (handler None)
           "11" None w H1 H2 H3 H4 H5).
Defined.

(** C6 as stated fails there: the call ends normally (nothing is thrown
    to the caller), and it has enqueued the fallback request, set the error
    flag and marked the session bad; no query was issued. *)
Lemma unusable_session_does_not_throw :
  let r := processZpid (env false) (handler None) "11" None (world ∅ 0 []) in
  r.1 = inr tt /\
  List.map (fun c => (uniqueKey c.1, label (userData c.1), c.2)) (requestQueue r.2) =
    [(Some "11", DETAIL, true)] /\
  anyErrors r.2 = true /\
  markBadCalls r.2 = 1%nat /\
  sleeps r.2 = [100] /\
  queried r.2 = [].
Proof. vm_compute. repeat split. Qed.

(** C7 on the second page of a viewport at split level 1. *)
Lemma maxZpidsFound_raised_by_a_split_page :
  let w := new_PageHandler (world ∅ 0 [main_st_url]) in
  let p := page [mkCategoryExtract (page_state "usa/nw" [main_st]) 70] in
  handleQueryAndSearchPage_try (env true) handler_split_page2 QUERY p w =
    (inr (true, [page_state "usa/nw" [main_st]], 70), set_maxZpidsFound 70 w) /\
  maxZpidsFound (set_maxZpidsFound 70 w) = Z.max 70 (maxZpidsFound w).
Proof.
  intros w p.
  assert (handleQueryAndSearchPage_try (env true) handler_split_page2 QUERY p w =
          (inr (true, [page_state "usa/nw" [main_st]], 70), set_maxZpidsFound 70 w))
    as H by reflexivity.
  split; [exact H|].
  exact (proj1 (proj2 (maxZpidsFound_raised_on_every_page (env true)
                         handler_split_page2 QUERY p w _ _ _ H))).
Defined.

(** C7 as stated fails for both fields.  The pass over the second page
    of a viewport at split level 1 ends normally and has changed the
    handler's [maxZpidsFound] from 0 to 70; the pass over an un-split first
    page with the same total ends normally and has left the field of the
    object of main.js at 0. *)
Lemma maxZpidsFound_changed_by_a_split_page :
  let w := new_PageHandler (world ∅ 0 [main_st_url]) in
  let p := page [mkCategoryExtract (page_state "usa/nw" [main_st]) 70] in
  let split_page := handleQueryAndSearchPage (env true) handler_split_page2 QUERY p w in
  let first_page := handleQueryAndSearchPage (env true) (handler None) QUERY p w in
  splitCount (userData (request handler_split_page2)) = Some 1 /\
  pageNumber (userData (request handler_split_page2)) = Some 2 /\
  split_page.1 = inr tt /\
  maxZpidsFound w = 0 /\
  maxZpidsFound split_page.2 = 70 /\
  splitCount (userData (request (handler None))) = None /\
  pageNumber (userData (request (handler None))) = None /\
  first_page.1 = inr tt /\
  g_maxZpidsFound w = 0 /\
  g_maxZpidsFound first_page.2 = 0.
Proof. vm_compute. repeat split. Qed.

(** C8 with [maxItems = 1] and one zpid extracted. *)
Lemma no_query_with_one_item_of_one :
  let w := world {[ "1" ]} 5 [] in
  maxItems (input (handler (Some 1))) = Some 1 /\
  0 < 1 /\
  1 <= Z.of_nat (size (zpids w)) /\
  processZpid (env true) (handler (Some 1)) "2" None w = (inr tt, w) /\
  _extractZpidsFromResults (env true) (handler (Some 1)) [main_st; oak_ave] w =
    (inr tt, w).
Proof.
  intros w.
  assert (maxItems (input (handler (Some 1))) = Some 1) as H1 by reflexivity.
  assert (0 < 1) as H2 by lia.
  assert (1 <= Z.of_nat (size (zpids w))) as H3 by (vm_compute; discriminate).
  repeat (split; [assumption|]).
  pose proof (no_query_once_maxItems_reached (env true) (handler (Some 1)) 1 w
                H1 H2 H3) as (Hp & He & _).
  split; [apply Hp|apply He].
Defined.

(** C9 as stated fails once the item cap is reached: the total is over
    the threshold, the split level is below the maximum and the viewport
    has four quarters, yet nothing is enqueued.  A pass gets there when the
    last embedded result of a first page fills the cap: with
    [maxItems = 1] the pass over such a page with a total of 600 ends
    normally and no request of its queue carries a split level. *)
Lemma no_split_once_maxItems_reached :
  let h := handler (Some 1) in
  let w := world {[ "1" ]} 600 [] in
  let pass :=
    handleQueryAndSearchPage (env true) h QUERY
      (page_embedding [main_st] [mkCategoryExtract (page_state "usa" [main_st]) 600])
      (world ∅ 0 [main_st_url]) in
  mapSplittingThreshold (env true) h <= 600 /\
  currentSplitCount h < maxLevel_or_default h /\
  length (splitQueryState (env true) "usa") = 4%nat /\
  _tryEnqueueMapSplits (env true) h "usa" 600 w = (inr tt, w) /\
  ~ (requestQueue (_tryEnqueueMapSplits (env true) h "usa" 600 w).2 <> [] <->
     mapSplittingThreshold (env true) h <= 600 /\
     currentSplitCount h < maxLevel_or_default h) /\
  pass.1 = inr tt /\
  List.filter (fun c => bool_decide (splitCount (userData c.1) <> None))
    (requestQueue pass.2) = [].
Proof.
  vm_compute. repeat split; try discriminate.
  intros [_ H]. apply H; [|reflexivity]. split; [discriminate|reflexivity].
Qed.

End Examples.

(** * More properties of the handler *)

Section MoreProperties.

Context {QueryState Payload : Type}.
Variable env : @Collaborators QueryState Payload.
Variable this : @Handler QueryState.

Local Abbreviation World := (@World QueryState).
Local Abbreviation M := (@M QueryState).

Notation "'let*' x ':=' c 'in' k" := (bind c (fun x => k))
  (at level 10, x name, c at level 100, k at level 200).
Notation "'run' c 'in' k" := (bind c (fun _ => k))
  (at level 10, c at level 100, k at level 200).

Lemma marking_refl (w : World) : marking w w.
Proof. split; [done|]. by rewrite Nat.ltb_irrefl, orb_false_r. Qed.

Lemma marking_trans (a b c : World) : marking a b -> marking b c -> marking a c.
Proof.
  intros [H1 H2] [K1 K2]. split; [lia|]. rewrite K2, H2, <- orb_assoc. f_equal.
  destruct (Nat.ltb_spec (markBadCalls a) (markBadCalls b)),
           (Nat.ltb_spec (markBadCalls b) (markBadCalls c)),
           (Nat.ltb_spec (markBadCalls a) (markBadCalls c)); simpl; try done; lia.
Qed.

(** A step that leaves the flag and the calls alone. *)
Lemma marking_same (w w' : World) :
  markBadCalls w' = markBadCalls w -> anyErrors w' = anyErrors w -> marking w w'.
Proof.
  intros H1 H2. unfold marking. rewrite H1, H2, Nat.ltb_irrefl, orb_false_r. done.
Qed.

Lemma extracting_refl (w : World) : extracting w w.
Proof. do 5 (split; [done|]). apply marking_refl. Qed.

Lemma extracting_trans (a b c : World) :
  extracting a b -> extracting b c -> extracting a c.
Proof.
  intros (H1 & H2 & H3 & H4 & H5 & H6) (K1 & K2 & K3 & K4 & K5 & K6).
  do 5 (split; [congruence|]). by eapply marking_trans.
Qed.

(** ** [processZpid] *)

(** X1.  An empty zpid, a zpid of ASCII characters whose [ToNumber] is
    [NaN], and a zpid that is extracted already are skipped without a
    trace: no query, no request, no flag and no delay. *)
Theorem skipped_zpid_leaves_no_trace (zpid : string) (detailUrl : option string)
    (w : World) :
  Js.truthy zpid = false \/
  JsString.is_ascii zpid = true /\ Js.plus_loosely_differs zpid = true \/
  zpid ∈ zpids w ->
  processZpid env this zpid detailUrl w = (inr tt, w).
Proof.
  intros H. unfold processZpid, bind at 1, gets at 1.
  destruct (isOverItems this 0 w) eqn:Hover; [done|].
  unfold bind, try_catch, processZpid_try.
  destruct (Js.truthy zpid) eqn:Ht; simpl.
  - destruct (Js.plus_loosely_differs zpid) eqn:Hn; simpl.
    + unfold processZpid_catch, bind, gets. by rewrite Hover.
    + destruct H as [H|[[_ H]|H]]; [done..|].
      unfold bind, gets. by rewrite bool_decide_eq_true_2.
  - unfold processZpid_catch, bind, gets. by rewrite Hover.
Qed.

Ltac case_skip :=
  match goal with
  | |- context [if ?b then ret true else _] => destruct b; simpl
  end.

Ltac effect q f sl :=
  eexists; split; [reflexivity|]; exists q, f, sl; simpl;
  rewrite ?app_nil_r, ?orb_false_r, ?orb_true_r, ?Nat.add_0_r, ?Nat.add_1_r;
  repeat split; auto; try discriminate; simpl;
  rewrite ?Nat.ltb_irrefl, ?orb_false_r, ?(proj2 (Nat.ltb_lt _ _) (Nat.lt_succ_diag_r _)),
    ?orb_true_r; auto.

(** Every call of [processZpid] ends normally, with the effect described
    by [processZpid_effect]. *)
Lemma processZpid_outcome (zpid : string) (detailUrl : option string) (w : World) :
  exists w',
    processZpid env this zpid detailUrl w = (inr tt, w') /\
    processZpid_effect env zpid detailUrl w w'.
Proof.
  unfold processZpid, bind at 1, gets at 1.
  destruct (isOverItems this 0 w) eqn:Hover; [effect (@nil string) false false|].
  unfold bind, try_catch, processZpid_try, processZpid_catch.
  destruct (Js.truthy zpid) eqn:Ht; simpl.
  2: { unfold bind, gets. rewrite Hover. simpl. effect (@nil string) false false. }
  destruct (Js.plus_loosely_differs zpid); simpl.
  { unfold bind, gets. rewrite Hover. simpl. effect (@nil string) false false. }
  unfold bind at 1, gets at 1.
  destruct (bool_decide (zpid ∈ zpids w)); [effect (@nil string) false false|].
  unfold bind at 1, gets at 1.
  destruct (negb (session_isUsable env w)); simpl.
  { unfold bind, gets. rewrite Hover. simpl. effect (@nil string) true true. }
  unfold bind at 1, query.
  destruct (queryZpid env w zpid) as [e|body].
  { unfold bind, gets.
    change (isOverItems this 0 (set_queried _ w)) with (isOverItems this 0 w).
    rewrite Hover.
    case_skip; [effect [zpid] false false|effect [zpid] true true]. }
  unfold bind at 1, call.
  destruct (parse_data_property env body) as [e|property].
  { unfold bind, gets.
    change (isOverItems this 0 (set_queried _ w)) with (isOverItems this 0 w).
    rewrite Hover.
    case_skip; [effect [zpid] false false|effect [zpid] true true]. }
  unfold bind at 1, extendOutput.
  destruct (extendOutputFunction env _ property zpid) as [[e|] z]; simpl.
  - unfold bind, gets.
    destruct (isOverItems this 0 (set_zpids _ _)); simpl;
      [effect [zpid] false true|].
    case_skip; [effect [zpid] false false|effect [zpid] true true].
  - effect [zpid] false true.
Qed.

(** X2.  What a call of [processZpid] can do, however it ends.  It issues
    at most one query, for its own zpid, and leaves [zpids] alone unless it
    did; it enqueues at most one request, the fallback with [forefront],
    and it does so exactly when it sets [anyErrors] and calls
    [session.markBad()]; it sleeps at most once, 100 ms; it posts no
    report, retires no session and writes neither [maxZpidsFound] nor the
    start URLs. *)
Theorem processZpid_effects (zpid : string) (detailUrl : option string)
    (w : World) :
  let r := processZpid env this zpid detailUrl w in
  (queried r.2 = queried w /\ zpids r.2 = zpids w \/
   queried r.2 = queried w ++ [zpid]) /\
  (requestQueue r.2 = requestQueue w /\
   anyErrors r.2 = anyErrors w /\ markBadCalls r.2 = markBadCalls w \/
   requestQueue r.2 = requestQueue w ++ [(detailRequest env zpid detailUrl, true)] /\
   anyErrors r.2 = true /\ markBadCalls r.2 = S (markBadCalls w)) /\
  (sleeps r.2 = sleeps w \/ sleeps r.2 = sleeps w ++ [100]) /\
  posted r.2 = posted w /\
  retireCalls r.2 = retireCalls w /\
  maxZpidsFound r.2 = maxZpidsFound w /\
  cleanStartUrls r.2 = cleanStartUrls w.
Proof.
  destruct (processZpid_outcome zpid detailUrl w)
    as (w' & E & q & f & sl & Hq & Eq & Hz & Er & Ea & Em & Es & _ & Hx).
  destruct Hx as (Hp & Hc & Hr & Hm & _ & _).
  cbv zeta. rewrite E. simpl. split; [|split; [|split]].
  - destruct Hq as [->| ->]; [left|right]; [|done].
    rewrite app_nil_r in Eq. auto.
  - destruct f; [right|left].
    + by rewrite Er, Ea, Em, orb_true_r, Nat.add_1_r.
    + by rewrite Er, Ea, Em, app_nil_r, orb_false_r, Nat.add_0_r.
  - destruct sl; [right|left]; [done|]. by rewrite Es, app_nil_r.
  - done.
Qed.

(** The [try] block up to the query, for a zpid that gets that far. *)
Lemma processZpid_reaches_the_query (zpid : string) (detailUrl : option string)
    (w : World) :
  isOverItems this 0 w = false ->
  Js.truthy zpid = true ->
  Js.plus_loosely_differs zpid = false ->
  zpid ∉ zpids w ->
  session_isUsable env w = true ->
  processZpid env this zpid detailUrl w =
    (let* noWait :=
       try_catch
         (let* body := query env zpid in
          let* property := call (fun _ => parse_data_property env body) in
          run extendOutput env property zpid in
          ret false)
         (processZpid_catch env this zpid detailUrl) in
     if negb noWait then sleep 100 else ret tt) w.
Proof.
  intros Hover Ht Hn Hseen Hu.
  unfold processZpid, bind at 1, gets at 1. rewrite Hover.
  unfold bind at 1 2, try_catch, processZpid_try. rewrite Ht, Hn. simpl.
  unfold bind at 1, gets at 1. rewrite bool_decide_eq_false_2 by done.
  unfold bind at 1, gets at 1. by rewrite Hu.
Qed.

(** X3.  For a valid zpid that is not in [zpids], below the item cap and
    with a usable session, when the query, the parsing of its answer and
    the output function all succeed, [processZpid] issues that one query,
    takes the contents of [zpids] that the output function leaves, sleeps
    100 ms and does nothing else: no request, no error flag, no
    [session.markBad()]. *)
Theorem processZpid_extracts (zpid : string) (detailUrl : option string)
    (w : World) (body : string) (property : Payload) (z : gset string) :
  isOverItems this 0 w = false ->
  Js.truthy zpid = true ->
  Js.plus_loosely_differs zpid = false ->
  zpid ∉ zpids w ->
  session_isUsable env w = true ->
  queryZpid env w zpid = inr body ->
  parse_data_property env body = inr property ->
  extendOutputFunction env (set_queried (queried w ++ [zpid]) w) property zpid =
    (None, z) ->
  processZpid env this zpid detailUrl w =
    (inr tt,
     set_sleeps (sleeps w ++ [100])
       (set_zpids z (set_queried (queried w ++ [zpid]) w))).
Proof.
  intros Hover Ht Hn Hseen Hu Hq Hp Ho.
  rewrite processZpid_reaches_the_query by done.
  unfold bind at 1, try_catch, bind at 1, query. rewrite Hq.
  unfold bind at 1, call. rewrite Hp.
  unfold bind at 1, extendOutput. by rewrite Ho.
Qed.

(** X4.  In the same situation, when the query throws, or its answer
    does not parse, with a message that is not one of the two skip
    messages, [processZpid] still ends normally: the query is on record,
    the fallback detail request is enqueued with [forefront], [anyErrors]
    is set, the session is marked bad and the call sleeps 100 ms; the
    output function is not called, so [zpids] is as it was. *)
Theorem failed_query_takes_the_fallback (zpid : string) (detailUrl : option string)
    (w : World) (e : JsError) :
  isOverItems this 0 w = false ->
  Js.truthy zpid = true ->
  Js.plus_loosely_differs zpid = false ->
  zpid ∉ zpids w ->
  session_isUsable env w = true ->
  queryZpid env w zpid = inl e \/
  (exists body, queryZpid env w zpid = inr body /\
                parse_data_property env body = inl e) ->
  List.existsb (String.eqb (message e)) [notZpid; invalidNonNumeric] = false ->
  processZpid env this zpid detailUrl w =
    (inr tt,
     set_sleeps (sleeps w ++ [100])
       (set_markBadCalls (S (markBadCalls w))
          (set_anyErrors true
             (add_requests [(detailRequest env zpid detailUrl, true)]
                (set_queried (queried w ++ [zpid]) w))))).
Proof.
  intros Hover Ht Hn Hseen Hu Hfail Hmsg.
  rewrite processZpid_reaches_the_query by done.
  assert (forall w1 : World, zpids w1 = zpids w ->
            processZpid_catch env this zpid detailUrl e w1 =
            (inr false,
             set_markBadCalls (S (markBadCalls w1))
               (set_anyErrors true
                  (add_requests [(detailRequest env zpid detailUrl, true)] w1))))
    as Hcatch.
  { intros w1 Hz. unfold processZpid_catch, bind at 1, gets at 1.
    replace (isOverItems this 0 w1) with (isOverItems this 0 w)
      by (unfold isOverItems; by rewrite Hz).
    rewrite Hover, Hmsg. reflexivity. }
  unfold bind at 1, try_catch, bind at 1, query.
  destruct Hfail as [Hq|(body & Hq & Hp)]; rewrite Hq.
  - by rewrite Hcatch.
  - unfold bind at 1, call. rewrite Hp. by rewrite Hcatch.
Qed.

(** X5.  When it is the output function that throws (with a message that
    is not a skip message), what [processZpid] does depends on the item
    cap afterwards: if the output function has filled the cap before it
    threw, the call only sleeps; otherwise it takes the fallback as for a
    failed query. *)
Theorem failed_output_and_the_cap (zpid : string) (detailUrl : option string)
    (w : World) (body : string) (property : Payload) (e : JsError)
    (z : gset string) :
  isOverItems this 0 w = false ->
  Js.truthy zpid = true ->
  Js.plus_loosely_differs zpid = false ->
  zpid ∉ zpids w ->
  session_isUsable env w = true ->
  queryZpid env w zpid = inr body ->
  parse_data_property env body = inr property ->
  extendOutputFunction env (set_queried (queried w ++ [zpid]) w) property zpid =
    (Some e, z) ->
  List.existsb (String.eqb (message e)) [notZpid; invalidNonNumeric] = false ->
  let w1 := set_zpids z (set_queried (queried w ++ [zpid]) w) in
  processZpid env this zpid detailUrl w =
    (inr tt,
     set_sleeps (sleeps w ++ [100])
       (if isOverItems this 0 w1 then w1
        else set_markBadCalls (S (markBadCalls w))
               (set_anyErrors true
                  (add_requests [(detailRequest env zpid detailUrl, true)] w1)))).
Proof.
  intros Hover Ht Hn Hseen Hu Hq Hp Ho Hmsg w1.
  rewrite processZpid_reaches_the_query by done.
  unfold bind at 1, try_catch, bind at 1, query. rewrite Hq.
  unfold bind at 1, call. rewrite Hp.
  unfold bind at 1, extendOutput. rewrite Ho. simpl.
  unfold processZpid_catch, bind at 1, gets at 1. fold w1.
  destruct (isOverItems this 0 w1); [done|].
  rewrite Hmsg. reflexivity.
Qed.

(** ** The batches *)

Lemma batch_effect_refl (zs : list string) (w : World) : batch_effect zs w w.
Proof.
  split; [apply extracting_refl|]. split; [|split].
  - exists []. split; [by rewrite app_nil_r|apply sublist_nil_l].
  - exists []. simpl. rewrite app_nil_r, Nat.add_0_r, orb_false_r.
    repeat split; try done. apply sublist_nil_l.
  - exists []. rewrite app_nil_r. repeat split; try done. simpl. lia.
Qed.

Lemma batch_effect_skip (z : string) (zs : list string) (w w' : World) :
  batch_effect zs w w' -> batch_effect (z :: zs) w w'.
Proof.
  intros (Hx & (q & Eq & Sq) & (f & Ef & Sf & Ff & Em & Ea) & (d & Ed & Fd & Ld)).
  split; [done|]. split; [|split].
  - exists q. split; [done|by apply sublist_cons].
  - exists f. repeat split; try done. simpl. by apply sublist_cons.
  - exists d. repeat split; try done. simpl. lia.
Qed.

Lemma batch_effect_step (z : string) (d : option string) (zs : list string)
    (w w1 w2 : World) :
  processZpid_effect env z d w w1 -> batch_effect zs w1 w2 ->
  batch_effect (z :: zs) w w2.
Proof.
  intros (q0 & f0 & s0 & Hq0 & Eq0 & _ & Er0 & Ea0 & Em0 & Es0 & Hf0 & Hx0)
         (Hx & (q & Eq & Sq) & (f & Ef & Sf & Ff & Em & Ea) & (dl & Ed & Fd & Ld)).
  split; [by eapply extracting_trans|]. split; [|split].
  - exists (q0 ++ q). split; [by rewrite Eq, Eq0, app_assoc|].
    destruct Hq0 as [->| ->]; simpl; [by apply sublist_cons|by apply sublist_skip].
  - destruct f0.
    + destruct Hf0 as [_ Ht]; [done|].
      exists ((detailRequest env z d, true) :: f).
      rewrite Ef, Er0, <- app_assoc. split; [done|]. simpl.
      unfold Js.or_else. rewrite Ht. split; [by apply sublist_skip|].
      split; [by constructor|]. split; [lia|].
      by rewrite Ea, Ea0, !orb_true_r.
    + exists f. rewrite Ef, Er0, app_nil_r. split; [done|]. simpl.
      split; [by apply sublist_cons|]. split; [done|]. split; [lia|].
      by rewrite Ea, Ea0, orb_false_r.
  - exists ((if s0 then [100] else []) ++ dl).
    rewrite Ed, Es0, <- app_assoc. split; [done|]. split.
    + apply Forall_app. split; [|done]. destruct s0; by repeat constructor.
    + rewrite length_app. destruct s0; simpl; lia.
Qed.

Lemma truthy_zpids_cons (r : ResultRecord) (l : list ResultRecord) :
  truthy_zpids (r :: l) =
  if Js.truthy_opt (zpid r) then default EmptyString (zpid r) :: truthy_zpids l
  else truthy_zpids l.
Proof.
  unfold truthy_zpids. simpl.
  destruct (Js.truthy_opt (zpid r)) eqn:E; [|done].
  by destruct (zpid r).
Qed.

Lemma extractZpidsFromResults_loop_outcome (results : list ResultRecord) :
  forall w, exists w',
    _extractZpidsFromResults_loop env this results w = (inr tt, w') /\
    batch_effect (truthy_zpids results) w w'.
Proof.
  induction results as [|r l IH]; intros w; cbn [_extractZpidsFromResults_loop].
  - exists w. split; [done|apply batch_effect_refl].
  - rewrite truthy_zpids_cons. destruct (Js.truthy_opt (zpid r)); [|apply IH].
    destruct (processZpid_outcome (default EmptyString (zpid r)) (detailUrl r) w)
      as (w1 & E1 & H1).
    unfold bind at 1. rewrite E1. unfold bind, gets.
    destruct (isOverItems this 0 w1).
    + exists w1. split; [done|]. eapply batch_effect_step; [done|].
      apply batch_effect_refl.
    + destruct (IH w1) as (w2 & E2 & H2). exists w2. split; [done|].
      by eapply batch_effect_step.
Qed.

Lemma handleZpidsPage_loop_outcome (l : list string) :
  forall w, exists w',
    handleZpidsPage_loop env this l w = (inr tt, w') /\ batch_effect l w w'.
Proof.
  induction l as [|z l IH]; intros w; cbn [handleZpidsPage_loop].
  - exists w. split; [done|apply batch_effect_refl].
  - destruct (processZpid_outcome z (Some EmptyString) w) as (w1 & E1 & H1).
    unfold bind at 1. rewrite E1. unfold bind, gets.
    destruct (isOverItems this 0 w1).
    + exists w1. split; [done|]. eapply batch_effect_step; [done|].
      apply batch_effect_refl.
    + destruct (IH w1) as (w2 & E2 & H2). exists w2. split; [done|].
      by eapply batch_effect_step.
Qed.

(** X6.  What [_extractZpidsFromResults] and [handleZpidsPage] can do,
    however they end.  The queries they issue are zpids of their list, in
    the order of the list, each entry of the list queried at most once
    (records without a zpid are passed over); the requests they enqueue are
    fallback requests with [forefront], in the same order, one
    [session.markBad()] goes with each, and [anyErrors] ends set exactly
    when it was set before or a fallback was enqueued; every delay is
    100 ms and there is at most one per zpid; reports, start URLs,
    [maxZpidsFound] and [session.retire()] calls are untouched. *)
Theorem extraction_batches_effect (results : list ResultRecord) (w : World) :
  batch_effect (truthy_zpids results) w
    (_extractZpidsFromResults env this results w).2 /\
  batch_effect (input_zpids (input this)) w (handleZpidsPage env this w).2.
Proof.
  split.
  - unfold _extractZpidsFromResults. destruct (Nat.ltb 0 (length results)).
    + destruct (extractZpidsFromResults_loop_outcome results w) as (w' & -> & H).
      exact H.
    + apply batch_effect_refl.
  - destruct (handleZpidsPage_loop_outcome (input_zpids (input this)) w)
      as (w' & E & H).
    unfold handleZpidsPage. rewrite E. exact H.
Qed.

Lemma processPageQsResults_outcome (results : list ResultRecord) :
  forall w, exists shouldContinue w',
    _processPageQsResults env this results w = (inr shouldContinue, w') /\
    batch_effect (truthy_zpids results) w w' /\
    (if shouldContinue then True else isOverItems this 0 w' = true).
Proof.
  induction results as [|r l IH]; intros w; cbn [_processPageQsResults].
  - exists true, w. split; [done|]. split; [apply batch_effect_refl|done].
  - rewrite truthy_zpids_cons. destruct (Js.truthy_opt (zpid r)); [|apply IH].
    unfold bind at 1, gets at 1. destruct (isOverItems this 0 w) eqn:Hover.
    + exists false, w. split; [done|]. split; [apply batch_effect_refl|done].
    + destruct (processZpid_outcome (default EmptyString (zpid r)) (detailUrl r) w)
        as (w1 & E1 & H1).
      unfold bind. rewrite E1.
      destruct (IH w1) as (c & w2 & E2 & H2 & Hc). exists c, w2.
      split; [done|]. split; [by eapply batch_effect_step|done].
Qed.

(** X7.  [_processPageQsResults] has the effect of a batch over the
    zpids of the embedded results, however it ends, and it answers that
    the pass should not continue only when the item cap is reached. *)
Theorem processPageQsResults_stops_at_the_cap (results : list ResultRecord)
    (w : World) :
  let r := _processPageQsResults env this results w in
  (r.1 = inr false -> isOverItems this 0 r.2 = true) /\
  batch_effect (truthy_zpids results) w r.2.
Proof.
  destruct (processPageQsResults_outcome results w) as (c & w' & E & H & Hc).
  cbv zeta. rewrite E. simpl. split; [|done].
  intros [= ->]. exact Hc.
Qed.

(** ** The planners and the loop over the query states *)

Lemma extracting_add_requests (calls : list (Request * bool)) (w : World) :
  extracting w (add_requests calls w).
Proof. do 5 (split; [done|]). by apply marking_same. Qed.

Lemma tryEnqueueMapSplits_adds (q : QueryState) (t : Z) (w : World) :
  exists calls, _tryEnqueueMapSplits env this q t w = (inr tt, add_requests calls w).
Proof.
  unfold _tryEnqueueMapSplits.
  destruct (t >=? mapSplittingThreshold env this);
    [|exists []; by rewrite add_requests_nil].
  destruct (currentSplitCount this >=? maxLevel_or_default this);
    [exists []; by rewrite add_requests_nil|].
  rewrite enqueueMapSplits_requests. by eexists.
Qed.

(** The requests of the pagination planner. *)
Lemma tryEnqueuePaginationPages_adds (q : QueryState) (t : Z) (w : World) :
  exists n,
    n <= Z.min (t / 40 + 1) (PAGES_LIMIT env) - 1 /\
    _tryEnqueuePaginationPages env q t w =
      (inr tt,
       add_requests
         (List.map (fun p => (paginationRequest env q p, false)) (seqZ 2 n)) w).
Proof.
  unfold _tryEnqueuePaginationPages, bind, gets. cbv beta iota.
  destruct ((0 <? t) && _) eqn:E.
  - exists (Z.min (t / 40 + 1) (PAGES_LIMIT env) - 1). split; [lia|].
    rewrite pagination_loop_pages by lia. rewrite Qfloor_pagesCount.
    by replace (Z.min (t / 40 + 1) (PAGES_LIMIT env) + 1 - 2)
      with (Z.min (t / 40 + 1) (PAGES_LIMIT env) - 1) by lia.
  - exists (Z.min 0 (Z.min (t / 40 + 1) (PAGES_LIMIT env) - 1)). split; [lia|].
    rewrite seqZ_nil by lia. simpl. by rewrite add_requests_nil.
Qed.

Lemma queryStates_loop_outcome (page total : Z) (results : list ResultRecord)
    (states : list PageState) :
  forall w, exists w',
    queryStates_loop env this page total results states w = (inr tt, w') /\
    extracting w w'.
Proof.
  induction states as [|s l IH]; intros w; cbn [queryStates_loop].
  - exists w. split; [done|apply extracting_refl].
  - unfold bind at 1, gets at 1. unfold bind at 1, gets at 1.
    destruct (_ >=? _); [exists w; split; [done|apply extracting_refl]|].
    assert (exists w1,
              (if page =? 1
               then run _tryEnqueueMapSplits env this (qs s) total in
                    _tryEnqueuePaginationPages env (qs s) total
               else ret tt) w = (inr tt, w1) /\ extracting w w1)
      as (w1 & E1 & H1).
    { destruct (page =? 1); [|exists w; split; [done|apply extracting_refl]].
      destruct (tryEnqueueMapSplits_adds (qs s) total w) as (c1 & E1).
      destruct (tryEnqueuePaginationPages_adds (qs s) total (add_requests c1 w))
        as (n & _ & E2).
      unfold bind. rewrite E1, E2. eexists. split; [done|].
      rewrite add_requests_app. apply extracting_add_requests. }
    unfold bind at 1. rewrite E1.
    assert (exists w2, _extractZpidsFromResults env this results w1 = (inr tt, w2) /\
                       extracting w1 w2) as (w2 & E2 & H2).
    { unfold _extractZpidsFromResults. destruct (Nat.ltb 0 (length results)).
      - destruct (extractZpidsFromResults_loop_outcome results w1) as (w2 & E & H & _).
        by exists w2.
      - exists w1. split; [done|apply extracting_refl]. }
    unfold bind. rewrite E2.
    destruct (IH w2) as (w3 & E3 & H3). exists w3. split; [done|].
    eapply extracting_trans; [|done]. by eapply extracting_trans.
Qed.

(** ** The matching loop *)

Lemma flags_raised_refl (c : list StartUrl) : flags_raised c c.
Proof. unfold flags_raised. induction c; constructor; auto. Qed.

Lemma flags_raised_trans (a b c : list StartUrl) :
  flags_raised a b -> flags_raised b c -> flags_raised a c.
Proof.
  unfold flags_raised. intros Hab. revert c.
  induction Hab as [|x y a b [H1 H2] Hab IH]; intros c Hbc;
    inversion Hbc as [|y' z b' c' [H3 H4] Hbc']; subst; constructor.
  - split; [congruence|auto].
  - by apply IH.
Qed.

Lemma flags_raised_insert (c : list StartUrl) :
  forall i x, c !! i = Some x ->
              flags_raised c (<[i := mkStartUrl (su_url x) true]> c).
Proof.
  induction c as [|y c IH]; intros [|i] x Hx; simplify_eq/=.
  - constructor; [done|apply flags_raised_refl].
  - constructor; [done|by apply IH].
Qed.

Lemma flags_raised_lookup (c c' : list StartUrl) (i : nat) (x : StartUrl) :
  flags_raised c c' -> c !! i = Some x ->
  exists y, c' !! i = Some y /\ su_url y = su_url x /\
            (matched x = true -> matched y = true).
Proof. intros H Hx. by apply (Forall2_lookup_l _ _ _ _ _ H) in Hx. Qed.

Lemma flags_raised_url (c c' : list StartUrl) (i : nat) :
  flags_raised c c' -> su_url <$> c' !! i = su_url <$> c !! i.
Proof.
  intros H. destruct (c !! i) as [x|] eqn:Hx.
  - destruct (flags_raised_lookup _ _ _ _ H Hx) as (y & -> & Hy & _).
    simpl. by rewrite Hy.
  - apply Forall2_length in H. apply lookup_ge_None in Hx.
    rewrite (proj2 (lookup_ge_None c' i)); [done|lia].
Qed.

(** A selected comparison points inside the list of targets. *)
Lemma selected_index_in_range (r : ResultRecord) (su : list string) (m : Comparison) :
  reduce higher (matchedComparisons env r su) = inr m ->
  (index m < length su)%nat.
Proof.
  intros Hm. apply selected_comparison in Hm as (_ & _ & _ & Hi & _).
  by apply lookup_lt_Some in Hi.
Qed.

Lemma reduce_nonempty {A} (f : A -> A -> A) (l : list A) :
  Nat.ltb 0 (length l) = true -> exists m, reduce f l = inr m.
Proof. destruct l; [discriminate|]. by eexists. Qed.

Lemma match_loop_outcome (su : list string) (results : list ResultRecord) :
  forall acc w,
    length (cleanStartUrls w) = length su ->
    exists pushed w',
      match_loop env su results acc w = (inr (acc ++ pushed), w') /\
      w' = set_cleanStartUrls (cleanStartUrls w') w /\
      flags_raised (cleanStartUrls w) (cleanStartUrls w') /\
      Forall2 (pushed_for env su (cleanStartUrls w))
        (List.filter (fun r => Nat.ltb 0 (length (matchedComparisons env r su)))
           results)
        pushed /\
      Forall (fun x => exists m c,
                match_ x = Some m /\
                cleanStartUrls w' !! index m = Some c /\
                matched c = true /\ baseUrl x = Some (su_url c)) pushed.
Proof.
  induction results as [|r l IH]; intros acc w Hlen; cbn [match_loop List.filter].
  - exists [], w. rewrite app_nil_r. split; [done|]. split; [by destruct w|].
    split; [apply flags_raised_refl|]. by split; constructor.
  - cbv zeta.
    destruct (Nat.ltb 0 (length (matchedComparisons env r su))) eqn:Hne;
      [|by apply IH].
    destruct (reduce_nonempty higher _ Hne) as (m & Em).
    assert (index m < length (cleanStartUrls w))%nat as Hi
      by (rewrite Hlen; by eapply selected_index_in_range).
    apply lookup_lt_is_Some_2 in Hi as (c & Hc).
    unfold bind at 1, call at 1. rewrite Em.
    unfold bind at 1, startUrl_at, call at 1. rewrite Hc.
    unfold bind at 1, modify at 1.
    set (c2 := <[index m := mkStartUrl (su_url c) true]> (cleanStartUrls w)).
    set (x := mkResult (zpid r) (detailUrl r) (address r) (Some m) (Some (su_url c))).
    destruct (IH (acc ++ [x]) (set_cleanStartUrls c2 w)) as (pushed & w' & E & Hw & Hf & H2 & H1).
    { simpl. unfold c2. by rewrite length_insert. }
    simpl in Hf, H2.
    assert (flags_raised (cleanStartUrls w) c2) as Hc2
      by (by apply flags_raised_insert).
    exists (x :: pushed), w'. split; [by rewrite E, <- app_assoc|].
    split; [by rewrite Hw at 1|].
    split; [by eapply flags_raised_trans|]. split.
    + constructor.
      * exists m. split; [done|]. unfold x. by rewrite Hc.
      * eapply Forall2_impl; [exact H2|].
        intros r' x' (m' & Em' & ->). exists m'. split; [done|].
        by rewrite (flags_raised_url _ _ _ Hc2).
    + constructor; [|done].
      assert (c2 !! index m = Some (mkStartUrl (su_url c) true)) as Hc2m.
      { unfold c2. apply list_lookup_insert_eq. by eapply lookup_lt_Some. }
      destruct (flags_raised_lookup _ _ _ _ Hf Hc2m) as (y & Hy & Hu & Hm).
      exists m, y. split; [done|]. split; [done|]. split; [by apply Hm|].
      simpl. by rewrite Hu.
Qed.

(** X8.  When the matching loop of [_processExtractedQueryStates] ends
    normally, it has changed of the world the start URLs only, and of those
    only the [matched] flags, which it raises and never clears.  It has
    pushed, in order, the merged records that have a qualifying target,
    each with the comparison selected for it and the URL of the start URL
    at the index of that comparison, and that start URL ends up flagged. *)
Theorem matching_loop_flags_the_selected_start_urls (results : list ResultRecord)
    (w w' : World) (filteredResults : list ResultRecord) :
  let su := List.map startUrlAddress (cleanStartUrls w) in
  match_loop env su results [] w = (inr filteredResults, w') ->
  w' = set_cleanStartUrls (cleanStartUrls w') w /\
  flags_raised (cleanStartUrls w) (cleanStartUrls w') /\
  Forall2 (pushed_for env su (cleanStartUrls w))
    (List.filter (fun r => Nat.ltb 0 (length (matchedComparisons env r su)))
       results)
    filteredResults /\
  Forall (fun x => exists m c,
            match_ x = Some m /\
            cleanStartUrls w' !! index m = Some c /\
            matched c = true /\ baseUrl x = Some (su_url c)) filteredResults.
Proof.
  intros su Hloop.
  destruct (match_loop_outcome su results [] w) as (pushed & w1 & E & H);
    [unfold su; by rewrite length_map|].
  rewrite Hloop in E. injection E as -> ->. exact H.
Qed.

(** ** Reports and errors of a pass *)

Lemma report_no_match_posts (l : list StartUrl) :
  forall w : World,
    report_no_match l w =
    (inr tt,
     set_posted (posted w ++ List.map (fun f => ReportNoMatch (su_url f)) l) w).
Proof.
  induction l as [|f l IH]; intros w; cbn [report_no_match].
  - simpl. rewrite app_nil_r. by destruct w.
  - unfold bind, axios_post, modify. rewrite IH. simpl. by rewrite <- app_assoc.
Qed.

(** What follows the selection of [best], from the world [w1] that the
    matching loop leaves. *)
Lemma after_selection_outcome (best : ResultRecord) (states : list PageState)
    (total : Z) (w1 : World) :
  exists w',
    (run axios_post (ReportResults [best]) in
     let* reducedStartUrls :=
       gets (fun w => List.filter (not_matched [best]) (cleanStartUrls w)) in
     run report_no_match reducedStartUrls in
     let* result := _validateQueryStatesResults [best] (Z.of_nat (length [best])) in
     match result with
     | Some false => ret tt
     | _ => queryStates_loop env this (currentPage this) total [best] states
     end) w1 = (inr tt, w') /\
    posted w' =
      posted w1 ++
      ReportResults [best] ::
      List.map (fun f => ReportNoMatch (su_url f))
        (List.filter (not_matched [best]) (cleanStartUrls w1)) /\
    cleanStartUrls w' = cleanStartUrls w1 /\
    retireCalls w' = retireCalls w1 /\
    maxZpidsFound w' = maxZpidsFound w1 /\
    marking w1 w'.
Proof.
  unfold bind at 1, axios_post, modify. unfold bind at 1, gets. simpl.
  unfold bind at 1. rewrite report_no_match_posts.
  unfold bind, _validateQueryStatesResults. simpl.
  match goal with
  | |- context [queryStates_loop env this ?p ?t ?r ?s ?w] =>
      destruct (queryStates_loop_outcome p t r s w)
        as (w' & E & Hp & Hc & Hr & Hm & _ & Hk)
  end.
  exists w'. rewrite E. simpl in *. split; [done|].
  rewrite Hp, Hc, Hr, Hm, <- app_assoc. done.
Qed.

Lemma filter_nil_Forall {A} (p : A -> bool) (l : list A) :
  List.filter p l = [] -> Forall (fun x => p x = false) l.
Proof.
  induction l as [|x l IH]; simpl; [constructor|].
  destruct (p x) eqn:E; [discriminate|]. intros H. constructor; auto.
Qed.

Lemma filter_cons_Exists {A} (p : A -> bool) (l : list A) (x : A) (k : list A) :
  List.filter p l = x :: k -> Exists (fun x => p x = true) l.
Proof.
  intros H. assert (In x (List.filter p l)) as Hin by (rewrite H; by left).
  apply filter_In in Hin as [Hin Hp]. apply Exists_exists. exists x.
  split; [by apply list_elem_of_In|done].
Qed.

Lemma length_0_nil {A} (l : list A) : Nat.ltb 0 (length l) = false -> l = [].
Proof. by destruct l. Qed.

(** The outcome of [_processExtractedQueryStates], in both cases. *)
Lemma processExtractedQueryStates_outcome (queryStates : list PageState)
    (totalCount : Z) (w : World) :
  let merged := _mergeListResultsMapResults queryStates in
  let su := List.map startUrlAddress (cleanStartUrls w) in
  let r := _processExtractedQueryStates env this queryStates totalCount w in
  r = (inl reduce_of_empty_array, w) /\
  Forall (fun rec => matchedComparisons env rec su = []) merged
  \/
  r.1 = inr tt /\
  Exists (fun rec => matchedComparisons env rec su <> []) merged /\
  (exists best,
     posted r.2 =
       posted w ++
       ReportResults [best] ::
       List.map (fun f => ReportNoMatch (su_url f))
         (List.filter (not_matched [best]) (cleanStartUrls r.2))) /\
  flags_raised (cleanStartUrls w) (cleanStartUrls r.2) /\
  retireCalls r.2 = retireCalls w /\
  maxZpidsFound r.2 = maxZpidsFound w /\
  marking w r.2.
Proof.
  intros merged su r.
  destruct (match_loop_outcome su merged [] w)
    as (pushed & w1 & Eloop & Hw1 & Hflags & Hpushed & _);
    [unfold su; by rewrite length_map|].
  simpl in Eloop.
  destruct pushed as [|x pushed].
  - left. apply Forall2_nil_inv_r in Hpushed.
    apply filter_nil_Forall in Hpushed.
    assert (Forall (fun rec => matchedComparisons env rec su = []) merged) as Hno.
    { eapply Forall_impl; [exact Hpushed|]. intros rec. apply length_0_nil. }
    split; [|done]. apply processExtractedQueryStates_no_match.
    intros rec Hin. rewrite Forall_forall in Hno. by apply Hno, list_elem_of_In.
  - right.
    assert (Exists (fun rec => matchedComparisons env rec su <> []) merged) as Hex.
    { inversion Hpushed as [|rec x' recs p' _ _ Hf]; subst.
      symmetry in Hf. apply filter_cons_Exists in Hf.
      eapply Exists_impl; [exact Hf|]. intros rec' Hl Hnil.
      cbv beta in Hl. rewrite Hnil in Hl. discriminate. }
    destruct (after_selection_outcome
                (List.fold_left higherMatch pushed x) queryStates totalCount w1)
      as (w' & E & Hp & Hc & Hr & Hm & Hk).
    assert (r = (inr tt, w')) as ->.
    { unfold r, _processExtractedQueryStates. cbv zeta.
      unfold bind at 1, gets at 1. cbv beta iota.
      unfold bind at 1. fold merged su. rewrite Eloop.
      unfold bind at 1, call at 1. simpl. exact E. }
    simpl. split; [done|]. split; [done|]. split.
    + eexists. rewrite Hp, Hc. by rewrite Hw1.
    + rewrite Hc, Hr, Hm. split; [by rewrite Hw1|]. split; [by rewrite Hw1|].
      split; [by rewrite Hw1|].
      eapply marking_trans; [|exact Hk]. apply marking_same; by rewrite Hw1.
Qed.

(** X9.  When it ends normally, [_processExtractedQueryStates] has posted
    exactly one report of results, holding the one record [best], followed
    by one "no match" report for each start URL that is neither flagged as
    matched nor the one of [best], in the order of the start URLs, and
    nothing else; no start URL that is flagged is reported as unmatched.
    When it throws the [TypeError] of the reduction over an empty array it
    has posted nothing.  However it ends, it has not called
    [session.retire()], it has not written [maxZpidsFound], and the matched
    flags are only raised. *)
Theorem reports_of_a_pass (queryStates : list PageState) (totalCount : Z)
    (w : World) :
  let r := _processExtractedQueryStates env this queryStates totalCount w in
  retireCalls r.2 = retireCalls w /\
  maxZpidsFound r.2 = maxZpidsFound w /\
  flags_raised (cleanStartUrls w) (cleanStartUrls r.2) /\
  (r.1 = inl reduce_of_empty_array -> posted r.2 = posted w) /\
  (r.1 = inr tt ->
   exists best unmatched,
     posted r.2 =
       posted w ++
       ReportResults [best] :: List.map (fun f => ReportNoMatch (su_url f)) unmatched /\
     unmatched = List.filter (not_matched [best]) (cleanStartUrls r.2) /\
     Forall (fun f => matched f = false /\ baseUrl best <> Some (su_url f)) unmatched).
Proof.
  intros r.
  destruct (processExtractedQueryStates_outcome queryStates totalCount w)
    as [[E _]|(E & _ & (best & Hp) & Hf & Hr & Hm & _)]; fold r in E |- *.
  - rewrite E. simpl. repeat split; try done. apply flags_raised_refl.
  - fold r in Hp, Hf, Hr, Hm. do 3 (split; [done|]). split.
    { rewrite E. intros [=]. }
    intros _.
    exists best, (List.filter (not_matched [best]) (cleanStartUrls r.2)).
    split; [done|]. split; [done|].
    apply Forall_forall. intros f Hin.
    apply list_elem_of_In, filter_In in Hin as [_ Hn].
    unfold not_matched in Hn. simpl in Hn.
    rewrite orb_false_r in Hn. apply negb_true_iff, orb_false_iff in Hn as [H1 H2].
    split; [done|]. by apply bool_decide_eq_false in H1.
Qed.

(** X10.  When the search page does not load (label [SEARCH] only) or
    the embedded page state cannot be read, the [catch] block of
    [handleQueryAndSearchPage] retires the session once and throws
    "Retrying search" in place of the original error; nothing else has
    happened: no zpid was processed.  The world is the one that
    [_waitForSearchPageToLoad] leaves; what that function does to the
    session before it throws is the matter of X17. *)
Theorem page_load_failure_retires_the_session (l : Label) (page : PageLoad)
    (w : World) (e : JsError) :
  l = SEARCH /\ waitForSearchPageToLoad page = Some e \/
  (l <> SEARCH \/ waitForSearchPageToLoad page = None) /\ pageQs page = inl e ->
  handleQueryAndSearchPage env this l page w =
    (inl (Error "Retrying search"), set_retireCalls (S (retireCalls w)) w).
Proof.
  intros H. unfold handleQueryAndSearchPage, bind at 1, try_catch.
  unfold handleQueryAndSearchPage_try, bind at 1.
  destruct H as [[-> Hw]|[Hw Hp]].
  - by rewrite Hw.
  - assert ((match l, waitForSearchPageToLoad page with
             | SEARCH, Some e => throw e
             | _, _ => ret tt
             end) w = (inr tt, w)) as ->.
    { destruct Hw as [Hl| ->]; [|by destruct l].
      destruct l; done. }
    unfold bind at 1, call at 1. by rewrite Hp.
Qed.

(** The [try] block of [handleQueryAndSearchPage]: it throws only on a
    failure of the page, and keeps reports and [session.retire()] calls as
    they are. *)
Lemma handleQueryAndSearchPage_try_outcome (l : Label) (page : PageLoad) (w : World) :
  exists x w1,
    handleQueryAndSearchPage_try env this l page w = (x, w1) /\
    posted w1 = posted w /\ retireCalls w1 = retireCalls w /\ marking w w1.
Proof.
  assert (marking w w) as Hw by apply marking_refl.
  unfold handleQueryAndSearchPage_try, bind at 1.
  destruct ((match l, waitForSearchPageToLoad page with
             | SEARCH, Some e => throw e
             | _, _ => ret tt
             end) w) as [[e|[]] w0] eqn:Ewait.
  { assert (w0 = w) as ->
      by (destruct l, (waitForSearchPageToLoad page); by injection Ewait).
    by eexists _, _. }
  assert (w0 = w) as ->
    by (destruct l, (waitForSearchPageToLoad page); by injection Ewait).
  unfold bind at 1, call at 1. destruct (pageQs page) as [e|pq]; [by eexists _, _|].
  destruct (processPageQsResults_outcome (__getPageQsResults pq) w)
    as (c & w1 & E & ((Hp & _ & Hr & _ & _ & Hk) & _) & _).
  unfold bind at 1. rewrite E. destruct c; [|by eexists _, _].
  unfold bind at 1, _extractQueryStatesForCurrentPage, bind at 1, call at 1.
  destruct (extractQueryStates page) as [e|states]; [by eexists _, _|].
  unfold bind, modify, ret. simpl. eexists _, _. split; [done|].
  split; [done|]. split; [done|].
  eapply marking_trans; [exact Hk|]. by apply marking_same.
Qed.

(** The outcomes of a pass, with the calls to [session.retire()] and
    the reports of each. *)
Lemma handleQueryAndSearchPage_outcome (l : Label) (page : PageLoad) (w : World) :
  let r := handleQueryAndSearchPage env this l page w in
  r.1 = inr tt /\ retireCalls r.2 = retireCalls w \/
  r.1 = inl (Error "Retrying search") /\
    retireCalls r.2 = S (retireCalls w) /\ posted r.2 = posted w \/
  r.1 = inl reduce_of_empty_array /\
    retireCalls r.2 = retireCalls w /\ posted r.2 = posted w.
Proof.
  intros r. remember r as r' eqn:Er. unfold r in Er. clear r.
  unfold handleQueryAndSearchPage, bind at 1, try_catch in Er.
  destruct (handleQueryAndSearchPage_try_outcome l page w)
    as (x & w1 & E & Hp & Hr & _).
  rewrite E in Er. destruct x as [e|[[c states] total]].
  - right. left. subst r'. simpl. by rewrite Hr, Hp.
  - unfold ret in Er. destruct (c && Nat.ltb 0 (length states));
      [|left; subst r'; by simpl].
    destruct (processExtractedQueryStates_outcome states total w1)
      as [[E1 _]|(E1 & _ & _ & _ & Hr1 & _ & _)]; rewrite <- Er in *.
    + right. right. rewrite E1. simpl. by rewrite Hp, Hr.
    + left. split; [done|]. by rewrite Hr1.
Qed.

(** X11.  A pass of [handleQueryAndSearchPage] that ends normally has not
    called [session.retire()].  One that throws "Retrying search" has
    called it exactly once, in its [catch] block, and has posted no report.
    One that throws the [TypeError] of the reduction over an empty array
    has not called it and has posted no report.  The calls are counted from
    the world that [_waitForSearchPageToLoad] leaves (see X17). *)
Theorem outcomes_of_a_search_pass (l : Label) (page : PageLoad) (w : World) :
  let r := handleQueryAndSearchPage env this l page w in
  (r.1 = inr tt -> retireCalls r.2 = retireCalls w) /\
  (r.1 = inl (Error "Retrying search") ->
   retireCalls r.2 = S (retireCalls w) /\ posted r.2 = posted w) /\
  (r.1 = inl reduce_of_empty_array ->
   retireCalls r.2 = retireCalls w /\ posted r.2 = posted w).
Proof.
  intros r.
  destruct (handleQueryAndSearchPage_outcome l page w)
    as [[E H]|[(E & H)|(E & H)]]; fold r in E, H; rewrite E.
  - split; [done|]. split; intros [=].
  - split; [intros [=]|]. split; [done|intros [=]].
  - split; [intros [=]|]. split; [intros [=]|done].
Qed.

(** The loop over the query states when the zpids extracted so far are
    as many as [maxZpidsFound]. *)
Lemma queryStates_loop_all_extracted (page total : Z) (results : list ResultRecord)
    (states : list PageState) (w : World) :
  maxZpidsFound w <= Z.of_nat (size (zpids w)) ->
  queryStates_loop env this page total results states w = (inr tt, w).
Proof.
  intros H. destruct states as [|s l]; cbn [queryStates_loop]; [done|].
  unfold bind, gets.
  by replace (Z.of_nat (size (zpids w)) >=? maxZpidsFound w) with true by lia.
Qed.

(** X26.  The loop over the query states returns at once when the set of
    zpids, which every handler shares, holds at least as many zpids as the
    [maxZpidsFound] of this handler.  Then [_processExtractedQueryStates]
    posts its reports at most: it enqueues no map split and no pagination
    page, and it does not pass the best match to [processZpid], so there is
    no query, no delay, no fallback, and the set of zpids is as it was. *)
Theorem nothing_is_extracted_once_the_total_is_reached
    (queryStates : list PageState) (totalCount : Z) (w : World) :
  maxZpidsFound w <= Z.of_nat (size (zpids w)) ->
  let r := _processExtractedQueryStates env this queryStates totalCount w in
  queried r.2 = queried w /\
  requestQueue r.2 = requestQueue w /\
  zpids r.2 = zpids w /\
  sleeps r.2 = sleeps w /\
  markBadCalls r.2 = markBadCalls w /\
  anyErrors r.2 = anyErrors w.
Proof.
  intros Hall r. remember r as r' eqn:Er. unfold r in Er. clear r.
  unfold _processExtractedQueryStates in Er. cbv zeta in Er.
  unfold bind at 1, gets at 1 in Er. cbv beta iota in Er.
  destruct (match_loop_outcome
              (List.map startUrlAddress (cleanStartUrls w))
              (_mergeListResultsMapResults queryStates) [] w)
    as (pushed & w1 & Eloop & Hw1 & _); [by rewrite length_map|].
  simpl in Eloop. unfold bind at 1 in Er. rewrite Eloop in Er.
  unfold bind at 1, call at 1 in Er.
  destruct (reduce higherMatch pushed) as [e|best].
  { subst r'. simpl. by rewrite Hw1. }
  unfold bind at 1, axios_post, modify in Er.
  unfold bind at 1, gets at 1 in Er. cbv beta iota in Er.
  unfold bind at 1 in Er. rewrite report_no_match_posts in Er.
  unfold bind, _validateQueryStatesResults in Er. simpl in Er.
  rewrite queryStates_loop_all_extracted in Er
    by (simpl; rewrite Hw1; exact Hall).
  subst r'. simpl. by rewrite Hw1.
Qed.

(** The error flag follows the calls to [session.markBad()] through a
    whole pass. *)
Lemma handleQueryAndSearchPage_marking (l : Label) (page : PageLoad) (w : World) :
  marking w (handleQueryAndSearchPage env this l page w).2.
Proof.
  unfold handleQueryAndSearchPage, bind at 1, try_catch.
  destruct (handleQueryAndSearchPage_try_outcome l page w)
    as (x & w1 & E & _ & _ & Hk).
  rewrite E. destruct x as [e|[[c states] total]].
  - simpl. eapply marking_trans; [exact Hk|]. by apply marking_same.
  - unfold ret. destruct (c && Nat.ltb 0 (length states)); [|done].
    eapply marking_trans; [exact Hk|].
    destruct (processExtractedQueryStates_outcome states total w1)
      as [[-> _]|(_ & _ & _ & _ & _ & _ & H)]; [apply marking_refl|exact H].
Qed.

Lemma handleZpidsPage_marking (w : World) :
  (handleZpidsPage env this w).1 = inr tt /\
  marking w (handleZpidsPage env this w).2.
Proof.
  destruct (handleZpidsPage_loop_outcome (input_zpids (input this)) w)
    as (w' & E & (_ & _ & _ & _ & _ & H) & _).
  unfold handleZpidsPage. by rewrite E.
Qed.

(** ** The pagination planner and the host's queue *)

(** X12.  The pagination planner never throws: its loop always ends.
    Whatever the total count, every page [p] it enqueues lies between 2 and
    [PAGES_LIMIT] and starts at or before the last result
    ([40 * (p - 1) <= totalCount]); with fewer than 40 results, or a limit
    below 2, it enqueues nothing. *)
Theorem pagination_pages_are_bounded (sqs : QueryState) (totalCount : Z) (w : World) :
  exists pages,
    _tryEnqueuePaginationPages env sqs totalCount w =
      (inr tt,
       add_requests
         (List.map (fun p => (paginationRequest env sqs p, false)) pages) w) /\
    Forall (fun p => 2 <= p <= PAGES_LIMIT env /\ 40 * (p - 1) <= totalCount) pages /\
    (totalCount < 40 \/ PAGES_LIMIT env < 2 -> pages = []).
Proof.
  destruct (tryEnqueuePaginationPages_adds sqs totalCount w) as (n & Hn & E).
  exists (seqZ 2 n). split; [done|]. split.
  - apply Forall_forall. intros p Hp%elem_of_seqZ.
    pose proof (Z.mul_div_le totalCount 40). lia.
  - intros H. apply seqZ_nil.
    assert (totalCount < 40 -> totalCount / 40 <= 0)
      by (intros; apply Z.lt_succ_r, Z.div_lt_upper_bound; lia).
    lia.
Qed.

Lemma host_queue_app (a b : list (Request * bool)) :
  @host_queue QueryState (a ++ b) = List.fold_left host_enqueue b (host_queue a).
Proof. unfold host_queue. by rewrite fold_left_app. Qed.

(** Requests whose key the queue has seen are all dropped. *)
Lemma host_enqueue_seen (r : Request) (calls : list (Request * bool))
    (q : list (@Request QueryState)) :
  List.existsb (same_key r) q = true ->
  Forall (fun c => uniqueKey c.1 = uniqueKey r) calls ->
  List.fold_left host_enqueue calls q = q.
Proof.
  intros Hq. induction 1 as [|c l Hc _ IH]; simpl; [done|].
  unfold host_enqueue at 2.
  replace (List.existsb (same_key c.1) q) with true; [done|].
  rewrite <- Hq. unfold same_key. by rewrite Hc.
Qed.

Lemma existsb_same_key_false (r : Request) (q : list (@Request QueryState)) :
  List.existsb (same_key r) q = false ->
  Forall (fun x => uniqueKey x <> uniqueKey r) q.
Proof.
  intros H. apply Forall_forall. intros x Hx%list_elem_of_In Hk.
  assert (List.existsb (same_key r) q = true) as H'; [|congruence].
  apply existsb_exists. exists x. split; [done|].
  unfold same_key. by apply bool_decide_eq_true_2.
Qed.

(** Of the pagination requests of one query state the host's queue keeps
    the first one at most. *)
Lemma host_queue_pagination (sqs : QueryState) (n : Z) (q : list (@Request QueryState)) :
  let calls := List.map (fun p => (paginationRequest env sqs p, false)) (seqZ 2 n) in
  List.existsb (same_key (paginationRequest env sqs 2)) q = true /\
    List.fold_left host_enqueue calls q = q \/
  List.existsb (same_key (paginationRequest env sqs 2)) q = false /\
    (List.fold_left host_enqueue calls q = q \/
     List.fold_left host_enqueue calls q = q ++ [paginationRequest env sqs 2]).
Proof.
  intros calls.
  assert (Forall (fun c : Request * bool =>
                    uniqueKey c.1 = uniqueKey (paginationRequest env sqs 2)) calls) as Hk.
  { apply Forall_forall. intros c (p & <- & _)%list_elem_of_In%in_map_iff. done. }
  destruct (List.existsb (same_key (paginationRequest env sqs 2)) q) eqn:E.
  - left. split; [done|]. by apply (host_enqueue_seen (paginationRequest env sqs 2)).
  - right. split; [done|]. unfold calls in *. destruct (Z.le_gt_cases n 0) as [Hn|Hn].
    + left. by rewrite seqZ_nil.
    + right. rewrite seqZ_cons in * by lia. simpl.
      unfold host_enqueue at 2. simpl. rewrite E.
      apply (host_enqueue_seen (paginationRequest env sqs 2)); [|by inversion Hk].
      rewrite existsb_app. simpl. unfold same_key at 2.
      by rewrite bool_decide_eq_true_2, orb_true_r.
Qed.

(** X13.  All the pagination requests of one query state carry the same
    [uniqueKey], so a host queue that drops a request whose key it has seen
    keeps at most one of them, the request for page 2, and only when no
    request with that key was in it before; the requests for the pages from
    3 on are always dropped. *)
Theorem host_queue_keeps_one_pagination_page (sqs : QueryState) (totalCount : Z)
    (w : World) :
  let q := host_queue (requestQueue w) in
  let q' := host_queue (requestQueue (_tryEnqueuePaginationPages env sqs totalCount w).2) in
  q' = q \/
  q' = q ++ [paginationRequest env sqs 2] /\
  Forall (fun r => uniqueKey r <> Some (quickHash env (JSON_stringify env sqs))) q.
Proof.
  intros q q'. unfold q'.
  destruct (tryEnqueuePaginationPages_adds sqs totalCount w) as (n & _ & ->).
  simpl. rewrite host_queue_app. fold q.
  destruct (host_queue_pagination sqs n q) as [[_ H]|[E [H|H]]]; [by left..|].
  right. split; [done|]. by apply existsb_same_key_false in E.
Qed.

(** X14.  The map split request of a viewport and the pagination requests
    of the same query state share their [uniqueKey]: once the host's queue
    holds the map split request that led to a page, it keeps none of the
    pagination requests that the pass over this page enqueues for it. *)
Theorem host_queue_drops_the_pages_of_a_split (sqs : QueryState) (level : Z)
    (totalCount : Z) (w : World) :
  In (mapSplitRequest env sqs level) (host_queue (requestQueue w)) ->
  host_queue (requestQueue (_tryEnqueuePaginationPages env sqs totalCount w).2) =
    host_queue (requestQueue w).
Proof.
  intros Hin.
  destruct (tryEnqueuePaginationPages_adds sqs totalCount w) as (n & _ & ->).
  simpl. rewrite host_queue_app.
  destruct (host_queue_pagination sqs n (host_queue (requestQueue w)))
    as [[_ H]|[E _]]; [done|].
  apply existsb_same_key_false in E. rewrite Forall_forall in E.
  by destruct (E _ (proj2 (list_elem_of_In _ _) Hin)).
Qed.

(** ** The two merges *)

(** X15.  [_mergeListResultsMapResults] collects, for each query state,
    the records that [__getPageQsResults] collects for its search state:
    the same records the same number of times, the map results before the
    list results instead of after them. *)
Theorem merged_results_are_the_page_results (queryStates : list (@PageState QueryState)) :
  _mergeListResultsMapResults queryStates ≡ₚ
  List.flat_map (fun s => __getPageQsResults (searchState s)) queryStates.
Proof.
  unfold _mergeListResultsMapResults, __getPageQsResults.
  induction queryStates as [|s l IH]; simpl; [done|].
  apply Permutation_app; [|done].
  generalize (results_of cat1 mapResults (searchState s)),
             (results_of cat1 listResults (searchState s)),
             (results_of cat2 mapResults (searchState s)),
             (results_of cat2 listResults (searchState s)).
  intros a b c d. rewrite (app_assoc a), (app_assoc b).
  apply Permutation_app; apply Permutation_app_comm.
Qed.

(** ** Addresses that cannot be matched *)

Lemma replace_dashes_no_dash (s : string) :
  ~ In "-"%char (list_ascii_of_string (Js.replace_dashes s)).
Proof.
  induction s as [|c s IH]; simpl; [tauto|].
  intros [H|H]; [|done]. destruct (Ascii.eqb_spec c "-"%char); [discriminate|done].
Qed.

Lemma first_split_chars (sep : ascii) (s : string) (c : ascii) :
  In c (list_ascii_of_string (Js.first (Js.split sep s))) ->
  In c (list_ascii_of_string s).
Proof.
  induction s as [|a s IH]; simpl; [done|].
  destruct (Ascii.eqb a sep); simpl; [tauto|].
  destruct (Js.split sep s) as [|h t]; simpl in *; [tauto|].
  intros [H|H]; [by left|right; by apply IH].
Qed.

(** X16.  The targets are compared after their dashes are replaced by
    spaces, the address of a record as it is.  So a record whose street
    number, the part of its address before the first space, contains a
    dash qualifies for no start URL, whatever the ratings are. *)
Theorem street_number_with_a_dash_never_matches (r : ResultRecord)
    (starts : list StartUrl) :
  In "-"%char (list_ascii_of_string (Js.first (Js.split " " (address r)))) ->
  matchedComparisons env r (List.map startUrlAddress starts) = [].
Proof.
  intros Hdash. unfold matchedComparisons.
  destruct (List.filter _ _) as [|c l] eqn:E; [done|]. exfalso.
  assert (In c (c :: l)) as Hin by (by left). rewrite <- E in Hin.
  apply filter_In in Hin as [Hin Hq].
  apply In_sortMatch in Hin as (i & s & Hs & ->).
  apply list_lookup_fmap_Some in Hs as (u & -> & _).
  unfold qualifies in Hq. apply andb_true_iff in Hq as [_ Htoken].
  apply String.eqb_eq in Htoken. simpl in Htoken. rewrite Htoken in Hdash.
  apply first_split_chars in Hdash. unfold startUrlAddress in Hdash.
  by apply replace_dashes_no_dash in Hdash.
Qed.

(** ** C4 and C2: the selection, and what the extraction runs over *)

(** C4 (amended).  Let [filteredResults] be what the matching loop of
    [_processExtractedQueryStates] collects from the merged results and
    [best] what the reduction over it returns.  The loop collects the
    merged records that have a qualifying candidate, all of them, once each
    and in the order of the merged results, each with the candidate [m]
    selected for it and the URL of the start URL at the index of [m]: [m]
    has rating at least 0.9 and the same first space-delimited token as the
    record's address, no qualifying candidate has a greater rating, and on a
    tie [m] is the one encountered LAST in [sortMatch]'s order (every
    qualifying candidate after it has a strictly smaller rating).  [best] is
    in the same way the last of the collected records with the greatest
    match rating, and what follows in the function sees the one-element
    list [[best]] only. *)
Theorem best_match_is_last_maximum (queryStates : list PageState) (totalCount : Z)
    (w w1 : World) (filteredResults : list ResultRecord) (best : ResultRecord) :
  let merged := _mergeListResultsMapResults queryStates in
  let su := List.map startUrlAddress (cleanStartUrls w) in
  match_loop env su merged [] w = (inr filteredResults, w1) ->
  reduce higherMatch filteredResults = inr best ->
  Forall2
    (fun r x =>
       exists m,
         last_maximum rating
           (List.filter (qualifies (address r)) (sortMatch env (address r) su)) m /\
         x = mkResult (zpid r) (detailUrl r) (address r) (Some m)
               (su_url <$> cleanStartUrls w !! index m))
    (List.filter
       (fun r =>
          Nat.ltb 0
            (length (List.filter (qualifies (address r))
                       (sortMatch env (address r) su))))
       merged)
    filteredResults /\
  Forall
    (fun x => exists r m,
       In r merged /\ zpid x = zpid r /\ address x = address r /\
       match_ x = Some m /\
       last_maximum rating
         (List.filter (qualifies (address r)) (sortMatch env (address r) su)) m /\
       (9 # 10 <= rating m)%Q /\
       Js.first (Js.split " " (address r)) = Js.first (Js.split " " (member m)) /\
       su !! index m = Some (member m) /\
       rating m = similarity env (address r) (member m))
    filteredResults /\
  last_maximum match_rating filteredResults best /\
  _processExtractedQueryStates env this queryStates totalCount w =
    (run axios_post (ReportResults [best]) in
     let* reducedStartUrls :=
       gets (fun w => List.filter (not_matched [best]) (cleanStartUrls w)) in
     run report_no_match reducedStartUrls in
     let* result := _validateQueryStatesResults [best] (Z.of_nat (length [best])) in
     match result with
     | Some false => ret tt
     | _ => queryStates_loop env this (currentPage this) totalCount [best] queryStates
     end) w1.
Proof.
  intros merged su Hloop Hbest. split; [|split; [|split]].
  - destruct (match_loop_outcome su merged [] w)
      as (pushed & w' & E & _ & _ & HF & _); [unfold su; by rewrite length_map|].
    rewrite Hloop in E. injection E as -> _. simpl.
    eapply Forall2_impl; [exact HF|].
    intros r x (m & Hm & ->). exists m. split; [|done].
    by apply selected_comparison in Hm as (H1 & _).
  - apply match_loop_selects in Hloop as (pushed & -> & HF). simpl.
    eapply Forall_impl; [exact HF|].
    intros x (r & m & Hin & Hz & _ & Ha & Hm & Hsel).
    apply selected_comparison in Hsel as (H1 & H2 & H3 & H4 & H5).
    exists r, m. done.
  - apply (reduce_last_maximum match_rating) in Hbest; [done|apply higherMatch_spec].
  - unfold _processExtractedQueryStates. cbv zeta.
    unfold bind at 1, gets at 1. cbv beta iota.
    unfold bind at 1. fold merged su. rewrite Hloop.
    unfold bind at 1, call at 1. by rewrite Hbest.
Qed.

(** Over the one-element list [[best]] the batch is one call of
    [processZpid], or nothing when [best] has no zpid. *)
Lemma extractZpidsFromResults_one (best : ResultRecord) (w : World) :
  _extractZpidsFromResults env this [best] w =
    (if Js.truthy_opt (zpid best)
     then processZpid env this (default EmptyString (zpid best)) (detailUrl best)
     else ret tt) w.
Proof.
  unfold _extractZpidsFromResults. simpl.
  destruct (Js.truthy_opt (zpid best)); [|done].
  unfold bind at 1.
  destruct (processZpid env this (default EmptyString (zpid best)) (detailUrl best) w)
    as [[e|[]] w1]; [done|].
  unfold bind, gets. by destruct (isOverItems this 0 w1).
Qed.

Ltac case_branch :=
  match goal with
  | |- context [if ?b then _ else _] => destruct b; simpl
  end.

(** A zpid that passes the guards of the [try] block is queried, whatever
    comes of the query. *)
Lemma processZpid_queries (zpid : string) (detailUrl : option string) (w : World) :
  isOverItems this 0 w = false ->
  Js.truthy zpid = true ->
  Js.plus_loosely_differs zpid = false ->
  zpid ∉ zpids w ->
  session_isUsable env w = true ->
  exists w',
    processZpid env this zpid detailUrl w = (inr tt, w') /\
    queried w' = queried w ++ [zpid].
Proof.
  intros Hover Ht Hn Hseen Hu.
  rewrite processZpid_reaches_the_query by done.
  unfold bind at 1, try_catch, bind at 1, query, processZpid_catch.
  destruct (queryZpid env w zpid) as [e|body].
  { unfold bind, gets. repeat case_branch; by eexists. }
  unfold bind at 1, call at 1.
  destruct (parse_data_property env body) as [e|property].
  { unfold bind, gets. repeat case_branch; by eexists. }
  unfold bind at 1, extendOutput.
  destruct (extendOutputFunction env _ property zpid) as [[e|] z]; simpl;
    [|by eexists].
  unfold bind, gets. repeat case_branch; by eexists.
Qed.

(** The planners of the first page only add requests. *)
Lemma planners_add_requests (page total : Z) (s : PageState) (w : World) :
  exists calls,
    (if page =? 1 then
       run _tryEnqueueMapSplits env this (qs s) total in
       _tryEnqueuePaginationPages env (qs s) total
     else ret tt) w = (inr tt, add_requests calls w).
Proof.
  destruct (page =? 1); [|exists []; by rewrite add_requests_nil].
  destruct (tryEnqueueMapSplits_adds (qs s) total w) as (c1 & E1).
  destruct (tryEnqueuePaginationPages_adds (qs s) total (add_requests c1 w))
    as (n & _ & E2).
  unfold bind. rewrite E1, E2. eexists. by rewrite add_requests_app.
Qed.

(** The loop over the query states with the one-element list [[best]]
    issues at most one query for each query state, for the zpid of
    [best]. *)
Lemma queryStates_loop_one (page total : Z) (best : ResultRecord)
    (states : list PageState) :
  forall w, exists issued,
    queried (queryStates_loop env this page total [best] states w).2 =
      queried w ++ issued /\
    (length issued <= length states)%nat /\
    Forall (fun z => zpid best = Some z) issued.
Proof.
  induction states as [|s l IH]; intros w; cbn [queryStates_loop].
  - exists []. by rewrite app_nil_r.
  - unfold bind at 1, gets at 1. unfold bind at 1, gets at 1.
    destruct (_ >=? _); [exists []; rewrite app_nil_r; repeat split; [simpl; lia|done]|].
    destruct (planners_add_requests page total s w) as (calls & E1).
    unfold bind at 1. rewrite E1.
    unfold bind at 1. rewrite extractZpidsFromResults_one.
    destruct (zpid best) as [z|] eqn:Ez; simpl.
    2: { destruct (IH (add_requests calls w)) as (issued & E & Hl & HF).
         exists issued. split; [done|]. split; [lia|done]. }
    destruct (Js.truthy z).
    2: { destruct (IH (add_requests calls w)) as (issued & E & Hl & HF).
         exists issued. split; [done|]. split; [lia|done]. }
    destruct (processZpid_outcome z (detailUrl best) (add_requests calls w))
      as (w2 & E2 & q & f & sl & Hq & Eq & _).
    rewrite E2. destruct (IH w2) as (issued & E & Hl & HF).
    exists (q ++ issued). rewrite E, Eq, <- app_assoc. split; [done|].
    destruct Hq as [->| ->]; simpl; (split; [lia|]); [done|by constructor].
Qed.

(** C2 (amended).  Every zpid query that [_processExtractedQueryStates]
    issues is for the zpid of the one record [best] that the address
    matching selected out of the merged results.  And the extraction does
    run over [best]: once the matching loop has collected
    [filteredResults] and the reduction has returned [best], the function
    is, after its reports, the loop over the query states with the
    one-element list [[best]]; each query state that the loop reaches with
    fewer zpids extracted than [maxZpidsFound] runs the planners (on page
    1) and then [processZpid] once, on the zpid and the detail URL of
    [best], and nothing else: the function issues at most one query for
    each query state.  And when [best] has a valid zpid that is not
    extracted yet, the item cap is not reached, fewer zpids are extracted
    than [maxZpidsFound] and the session is usable, the first query that
    the function issues is the one for the zpid of [best]. *)
Theorem extraction_runs_over_best_match_only (queryStates : list PageState)
    (totalCount : Z) (w : World) :
  let merged := _mergeListResultsMapResults queryStates in
  let su := List.map startUrlAddress (cleanStartUrls w) in
  let r := _processExtractedQueryStates env this queryStates totalCount w in
  (exists issued,
     queried r.2 = queried w ++ issued /\
     forall z, In z issued ->
       exists filteredResults w1 best,
         match_loop env su merged [] w = (inr filteredResults, w1) /\
         reduce higherMatch filteredResults = inr best /\
         zpid best = Some z) /\
  (forall filteredResults w1 best,
     match_loop env su merged [] w = (inr filteredResults, w1) ->
     reduce higherMatch filteredResults = inr best ->
     let extract : M unit :=
       if Js.truthy_opt (zpid best)
       then processZpid env this (default EmptyString (zpid best)) (detailUrl best)
       else ret tt in
     let reported :=
       set_posted
         (posted w1 ++
          ReportResults [best] ::
          List.map (fun f => ReportNoMatch (su_url f))
            (List.filter (not_matched [best]) (cleanStartUrls w1))) w1 in
     r = queryStates_loop env this (currentPage this) totalCount [best] queryStates
           reported /\
     (forall s rest w',
        queryStates_loop env this (currentPage this) totalCount [best] (s :: rest) w' =
          if Z.of_nat (size (zpids w')) >=? maxZpidsFound w' then (inr tt, w')
          else
            (run (if currentPage this =? 1 then
                    run _tryEnqueueMapSplits env this (qs s) totalCount in
                    _tryEnqueuePaginationPages env (qs s) totalCount
                  else ret tt) in
             run extract in
             queryStates_loop env this (currentPage this) totalCount [best] rest) w') /\
     (exists issued,
        queried r.2 = queried w ++ issued /\
        (length issued <= length queryStates)%nat /\
        Forall (fun z => zpid best = Some z) issued) /\
     (forall z,
        zpid best = Some z ->
        Js.truthy z = true ->
        Js.plus_loosely_differs z = false ->
        z ∉ zpids w ->
        isOverItems this 0 w = false ->
        Z.of_nat (size (zpids w)) < maxZpidsFound w ->
        (forall w', session_isUsable env w' = true) ->
        exists more, queried r.2 = queried w ++ z :: more)).
Proof.
  intros merged su r.
  assert (forall best s rest w',
            queryStates_loop env this (currentPage this) totalCount [best] (s :: rest) w' =
              if Z.of_nat (size (zpids w')) >=? maxZpidsFound w' then (inr tt, w')
              else
                (run (if currentPage this =? 1 then
                        run _tryEnqueueMapSplits env this (qs s) totalCount in
                        _tryEnqueuePaginationPages env (qs s) totalCount
                      else ret tt) in
                 run (if Js.truthy_opt (zpid best)
                      then processZpid env this (default EmptyString (zpid best))
                             (detailUrl best)
                      else ret tt) in
                 queryStates_loop env this (currentPage this) totalCount [best] rest) w')
    as Hstep.
  { intros best s rest w'. cbn [queryStates_loop].
    unfold bind at 1, gets at 1. unfold bind at 1, gets at 1.
    destruct (_ >=? _); [done|].
    unfold bind.
    match goal with
    | |- (let (_, _) := ?t in _) = _ => destruct t as [[e|[]] w2]; [done|]
    end.
    by rewrite extractZpidsFromResults_one. }
  split.
  - set (P := fun z => exists filteredResults w1 best,
                  match_loop env su merged [] w = (inr filteredResults, w1) /\
                  reduce higherMatch filteredResults = inr best /\
                  zpid best = Some z).
    assert (HR : Frame (@queries_of QueryState P)) by apply queries_of_frame.
    cut (queries_of P w r.2).
    { intros (issued & E & F). exists issued. split; [done|].
      intros z Hin. rewrite Forall_forall in F. apply F. by apply list_elem_of_In. }
    unfold r, _processExtractedQueryStates. cbv zeta.
    apply R_bind; [done|by apply R_gets|]. intros su' w1 Hsu.
    unfold gets in Hsu. injection Hsu as <- <-.
    apply R_bind; [done|by apply R_match_loop|]. intros filteredResults w2 Hloop.
    apply R_bind; [done|by apply R_call|]. intros best w3 Hbest.
    unfold call in Hbest. injection Hbest as Hbest <-.
    apply R_after_selection; [done|].
    intros x z [<-|[]] Hz. apply queries_of_querying.
    exists filteredResults, w2, best. done.
  - intros filteredResults w1 best Hloop Hbest extract reported.
    assert (r = queryStates_loop env this (currentPage this) totalCount [best]
                  queryStates reported) as Er.
    { unfold r, _processExtractedQueryStates. cbv zeta.
      unfold bind at 1, gets at 1. cbv beta iota.
      unfold bind at 1. fold merged su. rewrite Hloop.
      unfold bind at 1, call at 1. rewrite Hbest.
      unfold bind at 1, axios_post, modify. unfold bind at 1, gets. simpl.
      unfold bind at 1. rewrite report_no_match_posts.
      unfold bind, _validateQueryStatesResults. simpl.
      unfold reported. by rewrite <- app_assoc. }
    split; [exact Er|]. split; [intros s rest w'; apply Hstep|].
    destruct (match_loop_outcome su merged [] w)
      as (pushed & w1' & E & Hw1 & _); [unfold su; by rewrite length_map|].
    rewrite Hloop in E. injection E as _ <-.
    split.
    { destruct (queryStates_loop_one (currentPage this) totalCount best queryStates
                  reported) as (issued & E & H).
      exists issued. split; [|exact H].
      rewrite Er, E. unfold reported. by rewrite Hw1. }
    intros z Hz Ht Hn Hseen Hover Hmost Husable.
    destruct queryStates as [|s rest].
    { simpl in Hloop. injection Hloop as <- _. discriminate. }
    rewrite Er, Hstep.
    assert (zpids reported = zpids w) as Hzs by (unfold reported; by rewrite Hw1).
    assert (maxZpidsFound reported = maxZpidsFound w) as Hms
      by (unfold reported; by rewrite Hw1).
    assert (queried reported = queried w) as Hqs by (unfold reported; by rewrite Hw1).
    rewrite Hzs, Hms.
    replace (Z.of_nat (size (zpids w)) >=? maxZpidsFound w) with false by lia.
    assert (exists calls,
              (if currentPage this =? 1 then
                 run _tryEnqueueMapSplits env this (qs s) totalCount in
                 _tryEnqueuePaginationPages env (qs s) totalCount
               else ret tt) reported = (inr tt, add_requests calls reported))
      as (calls & Ecalls).
    { destruct (currentPage this =? 1);
        [|exists []; by rewrite add_requests_nil].
      destruct (tryEnqueueMapSplits_adds (qs s) totalCount reported) as (c1 & E1).
      destruct (tryEnqueuePaginationPages_adds (qs s) totalCount
                  (add_requests c1 reported)) as (n & _ & E2).
      unfold bind. rewrite E1, E2. eexists. by rewrite add_requests_app. }
    unfold bind at 1. rewrite Ecalls. rewrite Hz. cbn [Js.truthy_opt default].
    rewrite Ht. unfold bind at 1. change (id z) with z.
    destruct (processZpid_queries z (detailUrl best) (add_requests calls reported))
      as (wq & -> & Hq); [|done|done| |apply Husable|].
    { unfold isOverItems in *.
      change (zpids (add_requests calls reported)) with (zpids reported).
      by rewrite Hzs. }
    { change (zpids (add_requests calls reported)) with (zpids reported).
      by rewrite Hzs. }
    change (queried (add_requests calls reported)) with (queried reported) in Hq.
    rewrite Hqs in Hq.
    assert (Frame (@queries_of QueryState (fun _ => True))) as HR
      by apply queries_of_frame.
    assert (queries_of (fun _ => True) wq
              (queryStates_loop env this (currentPage this) totalCount [best] rest
                 wq).2) as (more & Emore & _).
    { apply R_queryStates_loop; [exact HR|].
      intros x z' _ _. by apply queries_of_querying. }
    exists more. by rewrite Emore, Hq, <- app_assoc.
Qed.

End MoreProperties.

(** * The fallback requests of one zpid *)

Section Fallbacks.

Context {QueryState Payload : Type}.
Variable env : @Collaborators QueryState Payload.

Local Abbreviation World := (@World QueryState).
Local Abbreviation Request := (@Request QueryState).

(** What the host's queue holds, it keeps. *)
Lemma host_enqueue_keeps (q : list Request) (c : Request * bool) (r : Request) :
  In r q -> In r (host_enqueue q c).
Proof.
  intros Hin. unfold host_enqueue.
  destruct (List.existsb (same_key c.1) q); [done|].
  destruct c.2; [by right|]. apply in_or_app. by left.
Qed.

Lemma fold_host_enqueue_keeps (calls : list (Request * bool)) :
  forall (q : list Request) (r : Request),
    In r q -> In r (List.fold_left host_enqueue calls q).
Proof.
  induction calls as [|c l IH]; intros q r Hin; simpl; [done|].
  by apply IH, host_enqueue_keeps.
Qed.

(** After a call the queue holds a request with the key of the call. *)
Lemma host_queue_holds_the_key (calls : list (Request * bool)) (c : Request * bool) :
  In c calls ->
  List.existsb (same_key c.1) (host_queue calls) = true.
Proof.
  intros (a & b & ->)%in_split.
  rewrite host_queue_app. simpl.
  assert (exists r, In r (host_enqueue (host_queue a) c) /\ uniqueKey c.1 = uniqueKey r)
    as (r & Hin & Hk).
  { unfold host_enqueue.
    destruct (List.existsb (same_key c.1) (host_queue a)) eqn:E.
    - apply existsb_exists in E as (r & Hin & Hk). exists r. split; [done|].
      by apply bool_decide_eq_true in Hk.
    - exists c.1. split; [|done]. destruct c.2; [by left|].
      apply in_or_app. right. by left. }
  apply existsb_exists. exists r. split; [by apply fold_host_enqueue_keeps|].
  by apply bool_decide_eq_true_2.
Qed.

(** A queue without two requests of one key holds exactly one request
    with a key that it holds. *)
Lemma one_request_per_key (k : option string) (q : list Request) :
  NoDup (List.map uniqueKey q) ->
  In k (List.map uniqueKey q) ->
  length (List.filter (fun r => bool_decide (uniqueKey r = k)) q) = 1%nat.
Proof.
  induction q as [|r q IH]; simpl; [done|].
  intros [Hr Hq]%NoDup_cons Hk.
  destruct (bool_decide (uniqueKey r = k)) eqn:E; simpl.
  - f_equal. apply bool_decide_eq_true in E.
    destruct (List.filter _ q) as [|r' l] eqn:Ef; [done|].
    assert (In r' (List.filter (fun r => bool_decide (uniqueKey r = k)) q)) as Hin
      by (rewrite Ef; by left).
    apply filter_In in Hin as [Hin Hk'%bool_decide_eq_true].
    destruct Hr. rewrite E, <- Hk'. apply list_elem_of_In, in_map_iff. by exists r'.
  - apply bool_decide_eq_false in E. destruct Hk as [Hk|Hk]; [done|]. by apply IH.
Qed.

(** A failed extraction ends with the fallback request, from the world
    that the [try] block leaves. *)
Lemma failed_extraction_takes_the_fallback (this : @Handler QueryState)
    (zpid : string) (detailUrl : option string) (w : World) (e : JsError) :
  extraction_fails env this zpid w e ->
  let t := (processZpid_try env zpid w).2 in
  processZpid env this zpid detailUrl w =
    (inr tt,
     set_sleeps (sleeps t ++ [100])
       (set_markBadCalls (S (markBadCalls t))
          (set_anyErrors true
             (add_requests [(detailRequest env zpid detailUrl, true)] t)))) /\
  requestQueue t = requestQueue w /\
  Js.truthy zpid = true.
Proof.
  intros (Hover & Htry & Hover' & Hmsg) t. split; [|split].
  - unfold processZpid, bind at 1, gets at 1. rewrite Hover.
    unfold bind at 1, try_catch. subst t.
    destruct (processZpid_try env zpid w) as [x t]. simpl in Htry, Hover'. subst x.
    unfold processZpid_catch, bind at 1, gets at 1. by rewrite Hover', Hmsg.
  - apply processZpid_try_requestQueue.
  - destruct (Js.truthy zpid) eqn:Ht; [done|].
    rewrite processZpid_try_falsy in Htry by done.
    simpl in Htry. injection Htry as <-. discriminate.
Qed.

(** C10.  When the extraction of a zpid fails, other than by a skip,
    [processZpid] enqueues exactly one request, the fallback detail
    request, with [forefront] and the label [DETAIL], and its [uniqueKey]
    is the zpid itself, whatever the detail URL is (the alternative of
    [zpid || detailUrl] is never taken: a falsy zpid is a skip).  So a
    second failure of the same zpid, on any page and with any detail URL,
    once the first fallback is among the [addRequest] calls, enqueues a
    request with the same [uniqueKey], and a host queue that drops a request
    whose key it has seen drops that one: the queue is as it was before the
    second failure, and it holds exactly one request with the key of the
    zpid. *)
Theorem fallback_uniqueKey_is_the_zpid (this1 this2 : @Handler QueryState)
    (zpid : string) (detailUrl1 detailUrl2 : option string) (w1 w2 : World)
    (e1 e2 : JsError) (between : list (Request * bool)) :
  let r1 := processZpid env this1 zpid detailUrl1 w1 in
  let r2 := processZpid env this2 zpid detailUrl2 w2 in
  let fallback1 := detailRequest env zpid detailUrl1 in
  let fallback2 := detailRequest env zpid detailUrl2 in
  extraction_fails env this1 zpid w1 e1 ->
  extraction_fails env this2 zpid w2 e2 ->
  requestQueue w2 = requestQueue r1.2 ++ between ->
  requestQueue r1.2 = requestQueue w1 ++ [(fallback1, true)] /\
  requestQueue r2.2 = requestQueue w2 ++ [(fallback2, true)] /\
  uniqueKey fallback1 = Some zpid /\
  uniqueKey fallback2 = Some zpid /\
  label (userData fallback1) = DETAIL /\
  label (userData fallback2) = DETAIL /\
  host_queue (requestQueue r2.2) = host_queue (requestQueue w2) /\
  length (List.filter (fun r => bool_decide (uniqueKey r = Some zpid))
            (host_queue (requestQueue r2.2))) = 1%nat.
Proof.
  intros r1 r2 fallback1 fallback2 Hfail1 Hfail2 Hlater.
  destruct (failed_extraction_takes_the_fallback this1 zpid detailUrl1 w1 e1 Hfail1)
    as (E1 & Hq1 & Ht).
  destruct (failed_extraction_takes_the_fallback this2 zpid detailUrl2 w2 e2 Hfail2)
    as (E2 & Hq2 & _).
  assert (requestQueue r1.2 = requestQueue w1 ++ [(fallback1, true)]) as Hr1
    by (unfold r1; rewrite E1; simpl; by rewrite Hq1).
  assert (requestQueue r2.2 = requestQueue w2 ++ [(fallback2, true)]) as Hr2
    by (unfold r2; rewrite E2; simpl; by rewrite Hq2).
  assert (forall d, uniqueKey (detailRequest env zpid d) = Some zpid) as Hkey
    by (intros d; simpl; unfold Js.or_else; by rewrite Ht).
  assert (List.existsb (same_key fallback2) (host_queue (requestQueue w2)) = true)
    as Hseen.
  { assert (same_key fallback2 = same_key fallback1) as ->
      by (unfold same_key, fallback1, fallback2; by rewrite !Hkey).
    apply (host_queue_holds_the_key _ (fallback1, true)).
    rewrite Hlater, Hr1. apply in_or_app. left. apply in_or_app. right. by left. }
  assert (host_queue (requestQueue r2.2) = host_queue (requestQueue w2)) as Hsame.
  { rewrite Hr2, host_queue_app. simpl. unfold host_enqueue. simpl.
    by rewrite Hseen. }
  do 2 (split; [done|]). do 2 (split; [apply Hkey|]). do 2 (split; [done|]).
  split; [exact Hsame|]. rewrite Hsame.
  apply one_request_per_key; [apply host_queue_NoDup|].
  apply existsb_exists in Hseen as (r & Hin & Hk%bool_decide_eq_true).
  apply in_map_iff. exists r. split; [|done].
  rewrite <- Hk. apply Hkey.
Qed.

End Fallbacks.

(** * Properties of the page function *)

Section CrawlerProperties.

Context {QueryState Payload : Type}.
Variable env : @Collaborators QueryState Payload.
Variable this : @Handler QueryState.
Variable main : @Main QueryState.

Local Abbreviation World := (@World QueryState).
Local Abbreviation M := (@M QueryState).
Local Abbreviation Crawl := (@Crawl QueryState).
Local Abbreviation C := (@C QueryState).
Local Abbreviation Visit := (@Visit QueryState Payload).

Notation "'let*' x ':=' c 'in' k" := (bind c (fun x => k))
  (at level 10, x name, c at level 100, k at level 200).
Notation "'run' c 'in' k" := (bind c (fun _ => k))
  (at level 10, c at level 100, k at level 200).
Notation "'let+' x ':=' c 'in' k" := (bindC c (fun x => k))
  (at level 10, x name, c at level 100, k at level 200).
Notation "'run+' c 'in' k" := (bindC c (fun _ => k))
  (at level 10, c at level 100, k at level 200).

Lemma set_world_same (c : Crawl) : set_world (world_of c) c = c.
Proof. by destruct c. Qed.

Lemma set_zpids_same (w : World) : set_zpids (zpids w) w = w.
Proof. by destruct w. Qed.

(** Sets the statement about the term [t] apart, as [Q t]. *)
Ltac outcome_of t :=
  pattern t; match goal with |- ?P _ => set (Q := P) end.

(** ** [_waitForSearchPageToLoad] *)




(** ** [handleInitialPage] *)

Lemma addRequests_adds (reqs : list Request) :
  forall w : World,
    addRequests reqs w =
    (inr tt, add_requests (List.map (fun req => (req, false)) reqs) w).
Proof.
  induction reqs as [|req l IH]; intros w; cbn [addRequests List.map].
  - by rewrite add_requests_nil.
  - unfold bind, addRequest, modify. rewrite IH.
    unfold add_requests. simpl. by rewrite <- app_assoc.
Qed.


Lemma unflagged_refl (c : Crawl) : unflagged c c.
Proof. by repeat split. Qed.

Lemma unflagged_trans (a b c : Crawl) : unflagged a b -> unflagged b c -> unflagged a c.
Proof. intros [[H1 H2] H3] [[K1 K2] K3]. repeat split; congruence. Qed.

(** [handleInitialPage] leaves the error flag alone. *)
Lemma handleInitialPage_unflagged (v : Visit) (queryZpid : option (string * string))
    (c : Crawl) :
  unflagged c (handleInitialPage main v queryZpid c).2.
Proof.
  unfold handleInitialPage, try_catchC, handleInitialPage_try, bindC, awaited,
    settled, throwC, retC, modifyC, lift, session_retire, modify.
  destruct (interceptQueryId (initialPage v)) as [e|[queryId clientVersion]]; simpl;
    [by repeat split|].
  destruct (negb (Js.truthy_opt queryId) || negb (Js.truthy_opt clientVersion)); simpl;
    [by repeat split|].
  destruct queryZpid as [ids|]; simpl; [by repeat split|].
  destruct (setValue_QUERY (initialPage v)) as [e|]; simpl; [by repeat split|].
  destruct (autoscaledPool v); simpl; rewrite addRequests_adds; by repeat split.
Qed.

(** What [handleInitialPage] returns and what it does to the request
    queue and to the queries. *)
Lemma handleInitialPage_returns (v : Visit) (queryZpid : option (string * string))
    (c : Crawl) :
  let r := handleInitialPage main v queryZpid c in
  queried (world_of r.2) = queried (world_of c) /\
  (forall q, r.1 = inr q -> q <> None) /\
  (queryZpid <> None -> requestQueue (world_of r.2) = requestQueue (world_of c)).
Proof.
  intros r. subst r. outcome_of (handleInitialPage main v queryZpid c).
  assert (forall e c1, world_of c1 = world_of c -> Q (inl e, c1)) as Hthrown.
  { intros e c1 E. subst Q. simpl. rewrite E. by repeat split. }
  unfold handleInitialPage, try_catchC, handleInitialPage_try, bindC, awaited,
    settled, throwC, retC, modifyC, lift, session_retire, modify.
  destruct (interceptQueryId (initialPage v)) as [e|[queryId clientVersion]]; simpl.
  { subst Q. by repeat split. }
  destruct (negb (Js.truthy_opt queryId) || negb (Js.truthy_opt clientVersion)); simpl.
  { subst Q. by repeat split. }
  destruct queryZpid as [ids|]; simpl.
  { subst Q. simpl. split; [done|]. split; [|done]. by intros q [= <-]. }
  destruct (setValue_QUERY (initialPage v)) as [e|]; simpl.
  { subst Q. by repeat split. }
  destruct (autoscaledPool v); simpl; rewrite addRequests_adds; subst Q; simpl;
    (split; [done|]; split; [|done]; by intros q [= <-]).
Qed.

(** ** [handleDetailPage] *)

Lemma loaded_loop_zpids (zpid : string)
    (loaded : list (string * (JsError + option Payload))) :
  forall w : World, exists x z, loaded_loop env zpid loaded w = (x, set_zpids z w).
Proof.
  induction loaded as [|[key property] l IH]; intros w; cbn [loaded_loop].
  - exists (inr false), (zpids w). by rewrite set_zpids_same.
  - destruct (JsString.includes key "RenderQuery"); [|apply IH].
    unfold bind at 1, call at 1.
    destruct property as [e|[property|]]; [|  |apply IH].
    + exists (inl e), (zpids w). by rewrite set_zpids_same.
    + unfold bind, extendOutput.
      destruct (extendOutputFunction env w property zpid) as [[e|] z];
        by eexists _, z.
Qed.

(** The [catch] block of the loop over the scripts. *)
Lemma scripts_loop_catch (e : JsError) (w : World) :
  (if JsString.includes (message e) "Cannot read property" then ret false
   else ret false) w = (inr false, w).
Proof. by destruct (JsString.includes (message e) "Cannot read property"). Qed.

Lemma scripts_loop_zpids (zpid : string)
    (scripts : list (JsError + list (string * (JsError + option Payload)))) :
  forall (noScriptsFound : bool) (w : World),
    exists b z, scripts_loop env zpid scripts noScriptsFound w = (inr b, set_zpids z w).
Proof.
  induction scripts as [|script l IH]; intros n w; cbn [scripts_loop].
  - exists n, (zpids w). by rewrite set_zpids_same.
  - unfold bind at 1, try_catch, bind at 1, call at 1.
    destruct script as [e|loaded].
    + rewrite scripts_loop_catch.
      destruct (IH n w) as (b & z & E). simpl. by exists b, z.
    + destruct (loaded_loop_zpids zpid loaded w) as ([e|found] & z & ->).
      * rewrite scripts_loop_catch.
        destruct (IH n (set_zpids z w)) as (b & z' & E). simpl.
        rewrite E. by exists b, z'.
      * destruct (IH (if found then false else n) (set_zpids z w)) as (b & z' & E).
        rewrite E. by exists b, z'.
Qed.

(** The outcomes of [handleDetailPage]. *)
Lemma handleDetailPage_outcome (v : Visit) (c : Crawl) :
  let w := world_of c in
  let r := handleDetailPage env this main v c in
  r = (inr tt, c) \/
  (exists e,
     r = (inl e, c) /\
     (nextData (detailPage v) = inl e \/ scripts (detailPage v) = inl e \/
      e = Error "Missing data")) \/
  (exists zpid,
     nextData (detailPage v) = inr (Some (Some zpid)) /\
     uniqueKey (@legacyRequest QueryState zpid) = Some zpid /\
     r = (inr tt, set_world (add_requests [(legacyRequest zpid, true)] w) c)) \/
  r = (inl (Error "ZPID not found in page"), set_noRetry true c) \/
  r = (inl (Error "Failed to load preloaded data scripts"),
       set_world (set_retireCalls (S (retireCalls w)) w) c) \/
  (exists z s ss,
     scripts (detailPage v) = inr (s :: ss) /\
     r.2 = set_world (set_zpids z w) c /\
     (r.1 = inr tt \/ r.1 = inl (Error "Failed to load preloaded data from page"))).
Proof.
  intros w r. subst r w. outcome_of (handleDetailPage env this main v c).
  unfold handleDetailPage, bindC at 1, lift at 1, gets. cbv beta iota zeta.
  rewrite set_world_same.
  destruct (isOverItems this 0 (world_of c)); [by left|].
  destruct (JsString.startsWith _ _ || no_zpid_number this main).
  - unfold bindC at 1, awaited.
    destruct (nextData (detailPage v)) as [e|[[zpid|]|]] eqn:En; simpl.
    + right. left. exists e. split; [done|by left].
    + destruct (Js.truthy zpid) eqn:Ht.
      * right. right. left. exists zpid. split; [done|]. split; [|done].
        simpl. unfold Js.or_else. by rewrite Ht.
      * by do 3 right; left.
    + by do 3 right; left.
    + right. left. eexists. split; [done|by do 2 right].
  - unfold bindC at 1, awaited.
    destruct (scripts (detailPage v)) as [e|ss] eqn:Es.
    { right. left. exists e. split; [done|by right; left]. }
    destruct ss as [|s ss]; [by do 4 right; left|].
    change (negb (Nat.ltb 0 (length (s :: ss)))) with false. cbv iota.
    unfold bindC, lift.
    destruct (scripts_loop_zpids
                (default EmptyString (ud_zpid (userData (request this))))
                (s :: ss) true (world_of c)) as (b & z & ->).
    do 5 right. exists z, s, ss. destruct b; simpl; auto.
Qed.

(** X19.  What [handleDetailPage] can have done when it returns or
    throws.  Nothing: at the item cap, when reading the page throws, or on
    missing data.  Or it has enqueued one request, with [forefront], for
    the zpid found in a page of the legacy layout, whose [uniqueKey] is that
    zpid, and returned.  Or it has set [noRetry] and thrown, or has retired
    the session and thrown.  Or the page has scripts and it has gone through
    them: then only the set of zpids may have changed.  In no case is there
    a query, a report, a delay, an error flag or a call to
    [session.markBad()]. *)
Theorem detail_page_outcomes (v : Visit) (c : Crawl) :
  let w := world_of c in
  let r := handleDetailPage env this main v c in
  r = (inr tt, c) \/
  (exists e,
     r = (inl e, c) /\
     (nextData (detailPage v) = inl e \/ scripts (detailPage v) = inl e \/
      e = Error "Missing data")) \/
  (exists zpid,
     nextData (detailPage v) = inr (Some (Some zpid)) /\
     uniqueKey (@legacyRequest QueryState zpid) = Some zpid /\
     r = (inr tt, set_world (add_requests [(legacyRequest zpid, true)] w) c)) \/
  r = (inl (Error "ZPID not found in page"), set_noRetry true c) \/
  r = (inl (Error "Failed to load preloaded data scripts"),
       set_world (set_retireCalls (S (retireCalls w)) w) c) \/
  (exists z s ss,
     scripts (detailPage v) = inr (s :: ss) /\
     r.2 = set_world (set_zpids z w) c).
Proof.
  intros w r.
  destruct (handleDetailPage_outcome v c)
    as [H|[H|[H|[H|[H|(z & s & ss & Hs & H & _)]]]]]; fold w r in H.
  - by left.
  - by right; left.
  - by do 2 right; left.
  - by do 3 right; left.
  - by do 4 right; left.
  - do 5 right. by exists z, s, ss.
Qed.

(** With an output function that throws at every call no script is
    found. *)
Lemma loaded_loop_failing (zpid : string)
    (loaded : list (string * (JsError + option Payload))) (w : World) :
  (forall w1 p z, (extendOutputFunction env w1 p z).1 <> None) ->
  (loaded_loop env zpid loaded w).1 <> inr true.
Proof.
  intros Hfail.
  induction loaded as [|[key property] l IH]; cbn [loaded_loop]; [done|].
  destruct (JsString.includes key "RenderQuery"); [|exact IH].
  unfold bind at 1, call at 1. destruct property as [e|[property|]]; [done| |exact IH].
  unfold bind, extendOutput. specialize (Hfail w property zpid).
  by destruct (extendOutputFunction env w property zpid) as [[e|] z].
Qed.

Lemma scripts_loop_failing (zpid : string)
    (scripts : list (JsError + list (string * (JsError + option Payload)))) :
  (forall w1 p z, (extendOutputFunction env w1 p z).1 <> None) ->
  forall w : World, (scripts_loop env zpid scripts true w).1 = inr true.
Proof.
  intros Hfail. induction scripts as [|script l IH]; intros w; cbn [scripts_loop];
    [done|].
  unfold bind at 1, try_catch, bind at 1, call at 1.
  destruct script as [e|loaded]; [rewrite scripts_loop_catch; apply IH|].
  pose proof (loaded_loop_failing zpid loaded w Hfail) as H.
  destruct (loaded_loop env zpid loaded w) as [[e|[]] w1]; simpl in H |- *;
    [rewrite scripts_loop_catch; apply IH|by destruct H|apply IH].
Qed.

(** X20.  On a detail page with scripts, for a request with a zpid and
    below the item cap, an output function that throws at every call keeps
    [handleDetailPage] from returning normally, whatever the scripts hold:
    the page does not count as extracted.  Only the set of zpids may have
    changed: no request is enqueued for the page, the session is not
    retired and [noRetry] is not set. *)
Theorem failing_output_function_fails_the_detail_page (v : Visit) (c : Crawl)
    (s : JsError + list (string * (JsError + option Payload)))
    (ss : list (JsError + list (string * (JsError + option Payload)))) :
  isOverItems this 0 (world_of c) = false ->
  JsString.startsWith (page_url (detailPage v)) "/b/" = false ->
  no_zpid_number this main = false ->
  scripts (detailPage v) = inr (s :: ss) ->
  (forall w1 p z, (extendOutputFunction env w1 p z).1 <> None) ->
  let r := handleDetailPage env this main v c in
  r.1 <> inr tt /\
  exists z, r.2 = set_world (set_zpids z (world_of c)) c.
Proof.
  intros Hover Hurl Hzpid Hscripts Hfail r.
  assert (exists z,
            r = (inl (Error "Failed to load preloaded data from page"),
                 set_world (set_zpids z (world_of c)) c)) as (z & ->).
  { unfold r, handleDetailPage, bindC at 1, lift at 1, gets. cbv beta iota zeta.
    rewrite set_world_same, Hover, Hurl, Hzpid.
    change (false || false) with false. cbv iota.
    unfold bindC at 1, awaited. rewrite Hscripts.
    change (negb (Nat.ltb 0 (length (s :: ss)))) with false. cbv iota.
    unfold bindC, lift.
    pose proof (scripts_loop_failing
                  (default EmptyString (ud_zpid (userData (request this))))
                  (s :: ss) Hfail (world_of c)) as H.
    destruct (scripts_loop_zpids
                (default EmptyString (ud_zpid (userData (request this))))
                (s :: ss) true (world_of c)) as (b & z & E).
    rewrite E in H |- *. simpl in H. injection H as ->. by exists z. }
  simpl. split; [discriminate|by exists z].
Qed.

(** [handleDetailPage] leaves the error flag alone. *)
Lemma handleDetailPage_unflagged (v : Visit) (c : Crawl) :
  unflagged c (handleDetailPage env this main v c).2.
Proof.
  unfold handleDetailPage, bindC at 1, lift at 1, gets. cbv beta iota zeta.
  rewrite set_world_same.
  destruct (isOverItems this 0 (world_of c)); [apply unflagged_refl|].
  destruct (JsString.startsWith _ _ || no_zpid_number this main).
  - unfold bindC at 1, awaited.
    destruct (nextData (detailPage v)) as [e|[zpid|]]; simpl;
      try apply unflagged_refl.
    destruct (Js.truthy_opt zpid); by repeat split.
  - unfold bindC at 1, awaited.
    destruct (scripts (detailPage v)) as [e|ss]; [apply unflagged_refl|].
    destruct ss as [|s ss]; [by repeat split|].
    change (negb (Nat.ltb 0 (length (s :: ss)))) with false. cbv iota.
    unfold bindC, lift.
    destruct (scripts_loop_zpids
                (default EmptyString (ud_zpid (userData (request this))))
                (s :: ss) true (world_of c)) as (b & z & ->).
    destruct b; by repeat split.
Qed.

(** ** The page function *)

(** The handler that a request is dispatched to leaves the field of
    main.js alone. *)
Lemma handleZpidsPage_g_maxZpidsFound (w : World) :
  g_maxZpidsFound (handleZpidsPage env this w).2 = g_maxZpidsFound w.
Proof.
  destruct (handleZpidsPage_loop_outcome env this (input_zpids (input this)) w)
    as (w' & E & (_ & _ & _ & _ & H & _) & _).
  unfold handleZpidsPage. by rewrite E.
Qed.

Section Kept.

(** A relation that holds across every step of the page function other
    than the dispatch. *)
Variable R : Crawl -> Crawl -> Prop.
Hypothesis R_refl : forall c, R c c.
Hypothesis R_trans : forall a b c, R a b -> R b c -> R a c.
Hypothesis R_world :
  forall (c : Crawl) (w : World),
    g_maxZpidsFound w = g_maxZpidsFound (world_of c) ->
    anyErrors w = anyErrors (world_of c) ->
    R c (set_world w c).
Hypothesis R_pageClosed : forall b c, R c (set_pageClosed b c).

Lemma R_bindC {A B} (m : C A) (k : A -> C B) (c : Crawl) :
  R c (m c).2 -> (forall a c1, R c1 (k a c1).2) -> R c (bindC m k c).2.
Proof.
  intros Hm Hk. unfold bindC. destruct (m c) as [[e|a] c1]; [done|].
  eapply R_trans; [exact Hm|apply Hk].
Qed.

(** What follows the construction of the handler, from the state [c]. *)
Lemma R_after_new_PageHandler (v : Visit) (c : Crawl) :
  R c (dispatch env this main v c).2 ->
  R c ((let+ over := lift (gets (isOverItems this 0)) in
        if negb (response v) || over then
          run+ settled (page_close v) in
          run+ modifyC (set_pageClosed true) in
          if negb (response v) then throwC (Error "No response from page")
          else retC tt
        else
          let+ captcha := awaited (captcha_container v) in
          if captcha then
            run+ lift session_retire in
            throwC (Error "Captcha found, retrying...")
          else
            run+ dispatch env this main v in
            run+ lift (extendScraperFunction v "HANDLE") in
            let+ anyErrors := lift foundAnyErrors in
            if anyErrors then
              run+ lift session_retire in
              throwC (Error "Retiring session and browser...")
            else retC tt) c).2.
Proof.
  intros Hd. unfold bindC at 1, lift at 1, gets. cbv beta iota zeta.
  rewrite set_world_same.
  assert (forall c1 : Crawl, R c1 (lift session_retire c1).2) as Hretire
    by (intros c1; by apply R_world).
  destruct (negb (response v) || isOverItems this 0 (world_of c)).
  - apply R_bindC; [apply R_refl|intros _ c1].
    apply R_bindC; [apply R_pageClosed|intros _ c2].
    destruct (negb (response v)); apply R_refl.
  - unfold bindC at 1, awaited.
    destruct (captcha_container v) as [e|[]]; [apply R_refl| |].
    + apply R_bindC; [apply Hretire|intros; apply R_refl].
    + unfold bindC at 1. destruct (dispatch env this main v c) as [[e|[]] c1];
        [exact Hd|]. simpl in Hd.
      eapply R_trans; [exact Hd|].
      apply R_bindC.
      { unfold lift, extendScraperFunction.
        destruct (scraperFunction v "HANDLE" (world_of c1)) as [thrown w'].
        by apply R_world. }
      intros _ c2. unfold bindC at 1, lift at 1, foundAnyErrors, gets.
      cbv beta iota zeta. rewrite set_world_same.
      destruct (anyErrors (world_of c2)); [|apply R_refl].
      apply R_bindC; [apply Hretire|intros; apply R_refl].
Qed.

End Kept.

Lemma kept_refl (c : Crawl) : kept c c.
Proof. by split. Qed.

Lemma kept_trans (a b c : Crawl) : kept a b -> kept b c -> kept a c.
Proof. intros [H1 H2] [K1 K2]. split; congruence. Qed.

Lemma dispatch_kept (v : Visit) (c : Crawl) : kept c (dispatch env this main v c).2.
Proof.
  assert (kept c
            ((let+ queryZpid := handleInitialPage main v (queryZpid_ids c) in
              run+ modifyC (set_queryZpid queryZpid) in
              modifyC (set_handlePageTimeout (handlePageTimeoutSecs_or_default main)))
               c).2) as Hinitial.
  { unfold bindC at 1.
    pose proof (handleInitialPage_unflagged v (queryZpid_ids c) c) as [H _].
    destruct (handleInitialPage main v (queryZpid_ids c) c) as [[e|q] c1]; done. }
  unfold dispatch, bindC at 1, getsC. cbv beta iota zeta.
  destruct (label (userData (request this))), (queryZpid_ids c) as [ids|];
    try exact Hinitial.
  - apply handleDetailPage_unflagged.
  - unfold lift.
    pose proof (handleZpidsPage_g_maxZpidsFound (world_of c)) as H.
    destruct (handleZpidsPage env this (world_of c)) as [x w']. by split.
  - unfold lift.
    pose proof (maxZpidsFound_not_lowered env this QUERY (searchPage v) (world_of c))
      as [_ H].
    destruct (handleQueryAndSearchPage env this QUERY (searchPage v) (world_of c))
      as [x w']. by split.
  - unfold lift.
    pose proof (maxZpidsFound_not_lowered env this SEARCH (searchPage v) (world_of c))
      as [_ H].
    destruct (handleQueryAndSearchPage env this SEARCH (searchPage v) (world_of c))
      as [x w']. by split.
Qed.

(** The page function after the construction of its handler. *)
Lemma handlePageFunction_new_PageHandler (v : Visit) (c : Crawl) :
  handlePageFunction env this main v c =
  (let+ over := lift (gets (isOverItems this 0)) in
   if negb (response v) || over then
     run+ settled (page_close v) in
     run+ modifyC (set_pageClosed true) in
     if negb (response v) then throwC (Error "No response from page")
     else retC tt
   else
     let+ captcha := awaited (captcha_container v) in
     if captcha then
       run+ lift session_retire in
       throwC (Error "Captcha found, retrying...")
     else
       run+ dispatch env this main v in
       run+ lift (extendScraperFunction v "HANDLE") in
       let+ anyErrors := lift foundAnyErrors in
       if anyErrors then
         run+ lift session_retire in
         throwC (Error "Retiring session and browser...")
       else retC tt) (set_world (new_PageHandler (world_of c)) c).
Proof. reflexivity. Qed.

(** X22.  Without a response, or once the item cap is reached, the page
    function closes the page and runs no handler: apart from the new
    handler and the closed page the state is as it was, the captcha is not
    looked for and the scraper function is not called.  It throws "No
    response from page" in the first case, also past the cap, and returns
    in the second. *)
Theorem no_handler_without_response_or_past_the_cap (v : Visit) (c : Crawl) :
  response v = false \/ isOverItems this 0 (world_of c) = true ->
  let c0 := set_world (new_PageHandler (world_of c)) c in
  handlePageFunction env this main v c =
    match page_close v with
    | Some e => (inl e, c0)
    | None =>
        (if response v then inr tt else inl (Error "No response from page"),
         set_pageClosed true c0)
    end.
Proof.
  intros H c0. rewrite handlePageFunction_new_PageHandler. fold c0.
  unfold bindC at 1, lift at 1, gets. cbv beta iota zeta.
  rewrite set_world_same.
  change (isOverItems this 0 (world_of c0)) with (isOverItems this 0 (world_of c)).
  assert (negb (response v) || isOverItems this 0 (world_of c) = true) as ->.
  { destruct H as [-> | ->]; [done|apply orb_true_r]. }
  unfold bindC, settled, awaited, modifyC, throwC, retC.
  destruct (page_close v); [done|]. by destruct (response v).
Qed.

(** The page function when a request gets to its handler. *)
Lemma handlePageFunction_handled (v : Visit) (c : Crawl) :
  response v = true ->
  isOverItems this 0 (world_of c) = false ->
  captcha_container v = inr false ->
  handlePageFunction env this main v c =
  (run+ dispatch env this main v in
   run+ lift (extendScraperFunction v "HANDLE") in
   let+ anyErrors := lift foundAnyErrors in
   if anyErrors then
     run+ lift session_retire in
     throwC (Error "Retiring session and browser...")
   else retC tt) (set_world (new_PageHandler (world_of c)) c).
Proof.
  intros Hr Ho Hc. rewrite handlePageFunction_new_PageHandler.
  unfold bindC at 1, lift at 1, gets. cbv beta iota zeta.
  rewrite set_world_same.
  change (isOverItems this 0 (world_of (set_world _ c)))
    with (isOverItems this 0 (world_of c)).
  rewrite Hr, Ho. simpl. unfold bindC at 1, awaited. by rewrite Hc.
Qed.

(** X23.  A request for a ZPIDS, QUERY or SEARCH page that gets to its
    handler, with a scraper function that does not throw.  An error of the
    handler is the error of the page function.  When the handler returns,
    the page function returns if the pass has not marked the session bad,
    and otherwise, that is when some zpid has taken the fallback, it
    retires the session and throws "Retiring session and browser...". *)
Theorem marked_session_is_retired (v : Visit) (c : Crawl) (ids : string * string) :
  let w := new_PageHandler (world_of c) in
  let handled :=
    match label (userData (request this)) with
    | ZPIDS => handleZpidsPage env this w
    | l => handleQueryAndSearchPage env this l (searchPage v) w
    end in
  let r := handlePageFunction env this main v c in
  In (label (userData (request this))) [ZPIDS; QUERY; SEARCH] ->
  queryZpid_ids c = Some ids ->
  response v = true ->
  isOverItems this 0 (world_of c) = false ->
  captcha_container v = inr false ->
  (forall w1, (scraperFunction v "HANDLE" w1).1 = None) ->
  match handled.1 with
  | inl e => r = (inl e, set_world handled.2 c)
  | inr _ =>
      r.1 = inr tt /\ markBadCalls handled.2 = markBadCalls w \/
      r.1 = inl (Error "Retiring session and browser...") /\
      (markBadCalls w < markBadCalls handled.2)%nat /\
      exists w2, world_of r.2 = set_retireCalls (S (retireCalls w2)) w2
  end.
Proof.
  intros w handled r Hl Hq Hr Ho Hc Hs.
  assert (marking w handled.2) as [Hle Hflag].
  { unfold handled. destruct (label (userData (request this)));
      try apply handleQueryAndSearchPage_marking. apply handleZpidsPage_marking. }
  assert (dispatch env this main v (set_world w c) =
          (handled.1, set_world handled.2 c)) as Hd.
  { unfold dispatch, bindC at 1, getsC. cbv beta iota zeta.
    change (queryZpid_ids (set_world w c)) with (queryZpid_ids c).
    rewrite Hq. unfold handled, lift.
    destruct (label (userData (request this)));
      try (exfalso; simpl in Hl; intuition discriminate);
      change (world_of (set_world w c)) with w.
    - by destruct (handleZpidsPage env this w).
    - by destruct (handleQueryAndSearchPage env this QUERY (searchPage v) w).
    - by destruct (handleQueryAndSearchPage env this SEARCH (searchPage v) w). }
  assert (r = (run+ dispatch env this main v in
               run+ lift (extendScraperFunction v "HANDLE") in
               let+ anyErrors := lift foundAnyErrors in
               if anyErrors then
                 run+ lift session_retire in
                 throwC (Error "Retiring session and browser...")
               else retC tt) (set_world w c)) as Er
    by (by apply handlePageFunction_handled).
  unfold bindC at 1 in Er. rewrite Hd in Er.
  change (anyErrors w) with false in Hflag. clearbody handled r.
  destruct handled as [[e|[]] w1]; simpl in Er, Hle, Hflag |- *; [done|].
  unfold bindC at 1, lift at 1, extendScraperFunction in Er.
  change (world_of (set_world w1 c)) with w1 in Er.
  specialize (Hs w1).
  destruct (scraperFunction v "HANDLE" w1) as [thrown w'] eqn:Escraper.
  simpl in Hs. subst thrown.
  unfold bindC at 1, lift at 1, foundAnyErrors, gets in Er. simpl in Er.
  rewrite Hflag in Er.
  destruct (Nat.ltb_spec (markBadCalls (world_of c)) (markBadCalls w1));
    simpl in Er; subst r; simpl.
  - right. split; [done|]. split; [done|].
    match goal with |- exists w2, set_retireCalls _ ?x = _ => by exists x end.
  - left. split; [done|]. lia.
Qed.

(** The handlers of the other requests leave the error flag alone. *)
Lemma dispatch_unflagged (v : Visit) (c : Crawl) :
  label (userData (request this)) = INITIAL \/
  label (userData (request this)) = DETAIL \/
  queryZpid_ids c = None ->
  unflagged c (dispatch env this main v c).2.
Proof.
  intros Hl.
  assert (unflagged c
            ((let+ queryZpid := handleInitialPage main v (queryZpid_ids c) in
              run+ modifyC (set_queryZpid queryZpid) in
              modifyC (set_handlePageTimeout (handlePageTimeoutSecs_or_default main)))
               c).2) as Hinitial.
  { unfold bindC at 1.
    pose proof (handleInitialPage_unflagged v (queryZpid_ids c) c) as H.
    destruct (handleInitialPage main v (queryZpid_ids c) c) as [[e|q] c1]; done. }
  unfold dispatch, bindC at 1, getsC. cbv beta iota zeta.
  destruct (label (userData (request this))), (queryZpid_ids c) as [ids|];
    try exact Hinitial; try apply handleDetailPage_unflagged.
  all: exfalso; intuition discriminate.
Qed.

(** X24.  Only the pass over a ZPIDS, QUERY or SEARCH page, run with a
    query function, can leave the error flag of its handler set: the flag
    of a new handler is clear, and neither [handleInitialPage] nor
    [handleDetailPage] nor the scraper function sets it.  For every other
    request the last test of the page function does not fire. *)
Theorem only_zpid_passes_flag_errors (v : Visit) (c : Crawl) :
  anyErrors (world_of (handlePageFunction env this main v c).2) = true ->
  In (label (userData (request this))) [ZPIDS; QUERY; SEARCH] /\
  queryZpid_ids c <> None.
Proof.
  intros Hflag.
  rewrite handlePageFunction_new_PageHandler in Hflag.
  set (c0 := set_world (new_PageHandler (world_of c)) c) in *.
  assert (label (userData (request this)) = INITIAL \/
          label (userData (request this)) = DETAIL \/
          queryZpid_ids c0 = None ->
          False) as Hno.
  { intros Hd%(dispatch_unflagged v).
    destruct (fun H1 H2 =>
                R_after_new_PageHandler unflagged unflagged_refl unflagged_trans
                  H1 H2 v c0 Hd) as [_ H].
    - intros c1 w1 Hg Ha. by repeat split.
    - intros b c1. by repeat split.
    - rewrite H in Hflag. discriminate. }
  change (queryZpid_ids c0) with (queryZpid_ids c) in Hno.
  destruct (label (userData (request this))), (queryZpid_ids c);
    try (exfalso; apply Hno; tauto); (split; [simpl; tauto|done]).
Qed.

(** The dispatch of a request that is handled as an initial page. *)
Lemma dispatch_initial (v : Visit) (c : Crawl) :
  label (userData (request this)) = INITIAL \/ queryZpid_ids c = None ->
  dispatch env this main v c =
  (let+ queryZpid := handleInitialPage main v (queryZpid_ids c) in
   run+ modifyC (set_queryZpid queryZpid) in
   modifyC (set_handlePageTimeout (handlePageTimeoutSecs_or_default main))) c.
Proof.
  intros H. unfold dispatch, bindC at 1, getsC. cbv beta iota zeta.
  destruct H as [-> | ->]; [done|]. by destruct (label (userData (request this))).
Qed.

(** X27.  While the variable [queryZpid] of main.js is [null], every
    request is handled as an initial page, whatever its label: the
    dispatch calls no query function, and when it returns the variable is
    set. *)
Theorem queryZpid_is_not_called_while_null (v : Visit) (c : Crawl) :
  queryZpid_ids c = None ->
  let r := dispatch env this main v c in
  queried (world_of r.2) = queried (world_of c) /\
  (r.1 = inr tt -> queryZpid_ids r.2 <> None).
Proof.
  intros Hnull r.
  assert (r = (let+ queryZpid := handleInitialPage main v (queryZpid_ids c) in
               run+ modifyC (set_queryZpid queryZpid) in
               modifyC (set_handlePageTimeout (handlePageTimeoutSecs_or_default main)))
                c) as Er
    by (apply dispatch_initial; by right).
  clearbody r. unfold bindC at 1 in Er.
  pose proof (handleInitialPage_returns v (queryZpid_ids c) c) as (Hq & Hr & _).
  destruct (handleInitialPage main v (queryZpid_ids c) c) as [[e|q] c1];
    simpl in Hq, Hr; subst r; simpl; [done|].
  split; [done|]. intros _. by apply Hr.
Qed.

(** No handler writes the variable [queryZpid] of main.js: only the
    assignment of the dispatch does. *)
Lemma handleInitialPage_queryZpid (v : Visit) (queryZpid : option (string * string))
    (c : Crawl) :
  queryZpid_ids (handleInitialPage main v queryZpid c).2 = queryZpid_ids c.
Proof.
  unfold handleInitialPage, try_catchC, handleInitialPage_try, bindC, awaited,
    settled, throwC, retC, modifyC, lift, session_retire, modify.
  destruct (interceptQueryId (initialPage v)) as [e|[queryId clientVersion]]; simpl;
    [done|].
  destruct (negb (Js.truthy_opt queryId) || negb (Js.truthy_opt clientVersion)); simpl;
    [done|].
  destruct queryZpid as [ids|]; simpl; [done|].
  destruct (setValue_QUERY (initialPage v)) as [e|]; simpl; [done|].
  destruct (autoscaledPool v); simpl; by rewrite addRequests_adds.
Qed.

Lemma handleDetailPage_queryZpid (v : Visit) (c : Crawl) :
  queryZpid_ids (handleDetailPage env this main v c).2 = queryZpid_ids c.
Proof.
  destruct (handleDetailPage_outcome v c)
    as [H|[(e & H & _)|[(z & _ & _ & H)|[H|[H|(z & s & ss & _ & H & _)]]]]];
    by rewrite H.
Qed.

Lemma lift_queryZpid {A} (m : M A) (c : Crawl) :
  queryZpid_ids (lift m c).2 = queryZpid_ids c.
Proof. unfold lift. by destruct (m (world_of c)). Qed.

(** X28.  Once the variable [queryZpid] of main.js is set, it stays set:
    the dispatch of a request that starts with the variable set ends with
    it set, whatever the label, the handler and the page.  And such a
    dispatch of a request for the initial page enqueues nothing: the start
    URLs are enqueued only by a dispatch that has read [null]. *)
Theorem start_urls_are_not_enqueued_once_queryZpid_is_set (v : Visit) (c : Crawl) :
  queryZpid_ids c <> None ->
  let r := dispatch env this main v c in
  queryZpid_ids r.2 <> None /\
  (label (userData (request this)) = INITIAL ->
   requestQueue (world_of r.2) = requestQueue (world_of c)).
Proof.
  intros Hset r.
  assert (let r :=
            (let+ queryZpid := handleInitialPage main v (queryZpid_ids c) in
             run+ modifyC (set_queryZpid queryZpid) in
             modifyC (set_handlePageTimeout (handlePageTimeoutSecs_or_default main)))
              c in
          queryZpid_ids r.2 <> None /\
          requestQueue (world_of r.2) = requestQueue (world_of c)) as Hinitial.
  { unfold bindC at 1.
    pose proof (handleInitialPage_returns v (queryZpid_ids c) c) as (_ & Hr & Hsame).
    pose proof (handleInitialPage_queryZpid v (queryZpid_ids c) c) as Hq.
    specialize (Hsame Hset).
    destruct (handleInitialPage main v (queryZpid_ids c) c) as [[e|q] c1];
      simpl in *; [by rewrite Hq|].
    split; [by apply Hr|done]. }
  split.
  - unfold r, dispatch, bindC at 1, getsC. cbv beta iota zeta.
    destruct (label (userData (request this))), (queryZpid_ids c) as [ids|] eqn:E;
      try done; try apply Hinitial.
    + by rewrite handleDetailPage_queryZpid, E.
    + by rewrite lift_queryZpid, E.
    + by rewrite lift_queryZpid, E.
    + by rewrite lift_queryZpid, E.
  - intros Hl. unfold r. rewrite dispatch_initial by (by left). apply Hinitial.
Qed.

(** ** The navigation hooks *)

(** X25.  Once the hook after a navigation has seen the item cap reached,
    the crawl is finishing: the hook before every later navigation sets
    [noRetry] on its request and throws "Ending scrape", having blocked
    nothing and called no scraper function, and neither this hook, nor the
    hook after a navigation, nor the page function clears the flag again. *)
Theorem navigation_is_refused_past_the_cap (v : Visit) (c : Crawl) :
  isOverItems this 0 (world_of c) = true ->
  let c1 := (postNavigationHook this c).2 in
  world_of c1 = world_of c /\
  isFinishing c1 = true /\
  preNavigationHook this main v c1 =
    (inl (Error "Ending scrape"), set_noRetry true c1) /\
  isFinishing (set_noRetry true c1) = true /\
  isFinishing (postNavigationHook this c1).2 = true /\
  isFinishing (handlePageFunction env this main v c1).2 = true.
Proof.
  intros Hover c1.
  assert (world_of c1 = world_of c /\ isFinishing c1 = true) as [Hw Hf].
  { unfold c1, postNavigationHook, bindC, lift, gets, getsC, modifyC, retC. simpl.
    rewrite set_world_same, Hover. simpl. by destruct (isFinishing c) eqn:E. }
  split; [done|]. split; [done|]. split; [|split; [done|split]].
  - unfold preNavigationHook, bindC at 1, getsC. by rewrite Hf.
  - unfold postNavigationHook, bindC, lift, gets, getsC, modifyC, retC. simpl.
    rewrite set_world_same, Hf. by destruct (isOverItems this 0 (world_of c1)).
  - rewrite handlePageFunction_new_PageHandler.
    destruct (fun H1 H2 =>
                R_after_new_PageHandler kept kept_refl kept_trans H1 H2 v _
                  (dispatch_kept v (set_world (new_PageHandler (world_of c1)) c1)))
      as [_ H]; [by split..|].
    by rewrite H.
Qed.

End CrawlerProperties.

(** * More properties on concrete inputs *)

Section MoreExamples.

Import Demo.

(** X1 on a zpid that is not a number. *)
Lemma non_numeric_zpid_is_skipped :
  let w := world ∅ 0 [] in
  (Js.truthy "abc" = false \/
   JsString.is_ascii "abc" = true /\ Js.plus_loosely_differs "abc" = true \/
   "abc" ∈ zpids w) /\
  processZpid (env true) (handler None) "abc" None w = (inr tt, w).
Proof.
  intros w.
  assert (Js.truthy "abc" = false \/
          JsString.is_ascii "abc" = true /\ Js.plus_loosely_differs "abc" = true \/
          "abc" ∈ zpids w) as H by (right; left; split; reflexivity).
  split; [exact H|].
  exact (skipped_zpid_leaves_no_trace (env true) (handler None) "abc" None w H).
Defined.

(** X3 on the zpid 11 with collaborators that all succeed. *)
Lemma extraction_of_11 :
  let w := world ∅ 0 [] in
  isOverItems (handler None) 0 w = false /\
  Js.truthy "11" = true /\
  Js.plus_loosely_differs "11" = false /\
  ("11" ∉ zpids w) /\
  session_isUsable (env true) w = true /\
  queryZpid (env true) w "11" = inr "11" /\
  parse_data_property (env true) "11" = inr "11" /\
  extendOutputFunction (env true) (set_queried (queried w ++ ["11"]) w) "11" "11" =
    (None, {[ "11" ]} ∪ ∅) /\
  processZpid (env true) (handler None) "11" None w =
    (inr tt,
     set_sleeps (sleeps w ++ [100])
       (set_zpids ({[ "11" ]} ∪ ∅) (set_queried (queried w ++ ["11"]) w))).
Proof.
  intros w.
  assert (isOverItems (handler None) 0 w = false) as H1 by reflexivity.
  assert (Js.truthy "11" = true) as H2 by reflexivity.
  assert (Js.plus_loosely_differs "11" = false) as H3 by reflexivity.
  assert ("11" ∉ zpids w) as H4 by (simpl; apply not_elem_of_empty).
  assert (session_isUsable (env true) w = true) as H5 by reflexivity.
  assert (queryZpid (env true) w "11" = inr "11") as H6 by reflexivity.
  assert (parse_data_property (env true) "11" = inr "11") as H7 by reflexivity.
  assert (extendOutputFunction (env true) (set_queried (queried w ++ ["11"]) w)
            "11" "11" = (None, {[ "11" ]} ∪ ∅)) as H8 by reflexivity.
  repeat (split; [assumption|]).
  exact (processZpid_extracts (env true) (handler None) "11" None w "11" "11"
           ({[ "11" ]} ∪ ∅) H1 H2 H3 H4 H5 H6 H7 H8).
Defined.

(** X4 on the zpid 11 when the query is refused. *)
Lemma refused_query_of_11 :
  let w := world ∅ 0 [] in
  let e := Faults.env Faults.refuse Faults.insert in
  isOverItems (handler None) 0 w = false /\
  Js.truthy "11" = true /\
  Js.plus_loosely_differs "11" = false /\
  ("11" ∉ zpids w) /\
  session_isUsable e w = true /\
  (queryZpid e w "11" = inl Faults.refused \/
   exists body, queryZpid e w "11" = inr body /\
                parse_data_property e body = inl Faults.refused) /\
  List.existsb (String.eqb (message Faults.refused)) [notZpid; invalidNonNumeric] =
    false /\
  processZpid e (handler None) "11" None w =
    (inr tt,
     set_sleeps (sleeps w ++ [100])
       (set_markBadCalls (S (markBadCalls w))
          (set_anyErrors true
             (add_requests [(detailRequest e "11" None, true)]
                (set_queried (queried w ++ ["11"]) w))))).
Proof.
  intros w e.
  assert (isOverItems (handler None) 0 w = false) as H1 by reflexivity.
  assert (Js.truthy "11" = true) as H2 by reflexivity.
  assert (Js.plus_loosely_differs "11" = false) as H3 by reflexivity.
  assert ("11" ∉ zpids w) as H4 by (simpl; apply not_elem_of_empty).
  assert (session_isUsable e w = true) as H5 by reflexivity.
  assert (queryZpid e w "11" = inl Faults.refused \/
          exists body, queryZpid e w "11" = inr body /\
                       parse_data_property e body = inl Faults.refused) as H6
    by (left; reflexivity).
  assert (List.existsb (String.eqb (message Faults.refused))
            [notZpid; invalidNonNumeric] = false) as H7 by reflexivity.
  repeat (split; [assumption|]).
  exact (failed_query_takes_the_fallback e (handler None) "11" None w
           Faults.refused H1 H2 H3 H4 H5 H6 H7).
Defined.

(** X5 on the zpid 11 when the output function inserts the zpid and then
    throws: with [maxItems = 1] the cap is reached and the call only
    sleeps. *)
Lemma failed_output_of_11_at_the_cap :
  let w := world ∅ 0 [] in
  let e := Faults.env inr Faults.insert_and_throw in
  let h := handler (Some 1) in
  let w1 := set_zpids ({[ "11" ]} ∪ ∅) (set_queried (queried w ++ ["11"]) w) in
  isOverItems h 0 w = false /\
  Js.truthy "11" = true /\
  Js.plus_loosely_differs "11" = false /\
  ("11" ∉ zpids w) /\
  session_isUsable e w = true /\
  queryZpid e w "11" = inr "11" /\
  parse_data_property e "11" = inr "11" /\
  extendOutputFunction e (set_queried (queried w ++ ["11"]) w) "11" "11" =
    (Some Faults.refused, {[ "11" ]} ∪ ∅) /\
  List.existsb (String.eqb (message Faults.refused)) [notZpid; invalidNonNumeric] =
    false /\
  isOverItems h 0 w1 = true /\
  processZpid e h "11" None w = (inr tt, set_sleeps (sleeps w ++ [100]) w1).
Proof.
  intros w e h w1.
  assert (isOverItems h 0 w = false) as H1 by reflexivity.
  assert (Js.truthy "11" = true) as H2 by reflexivity.
  assert (Js.plus_loosely_differs "11" = false) as H3 by reflexivity.
  assert ("11" ∉ zpids w) as H4 by (simpl; apply not_elem_of_empty).
  assert (session_isUsable e w = true) as H5 by reflexivity.
  assert (queryZpid e w "11" = inr "11") as H6 by reflexivity.
  assert (parse_data_property e "11" = inr "11") as H7 by reflexivity.
  assert (extendOutputFunction e (set_queried (queried w ++ ["11"]) w) "11" "11" =
          (Some Faults.refused, {[ "11" ]} ∪ ∅)) as H8 by reflexivity.
  assert (List.existsb (String.eqb (message Faults.refused))
            [notZpid; invalidNonNumeric] = false) as H9 by reflexivity.
  assert (isOverItems h 0 w1 = true) as H10 by (vm_compute; reflexivity).
  repeat (split; [assumption|]).
  pose proof (failed_output_and_the_cap e h "11" None w "11" "11" Faults.refused
                ({[ "11" ]} ∪ ∅) H1 H2 H3 H4 H5 H6 H7 H8 H9) as H.
  cbv zeta in H. fold w1 in H. rewrite H10 in H. exact H.
Defined.

(** X10 on a query page whose embedded state cannot be read. *)
Lemma unreadable_page_retires_the_session :
  let w := world ∅ 0 [main_st_url] in
  let p := mkPageLoad None (inl Faults.refused) (inr []) in
  (QUERY = SEARCH /\ waitForSearchPageToLoad p = Some Faults.refused \/
   (QUERY <> SEARCH \/ waitForSearchPageToLoad p = None) /\
   pageQs p = inl Faults.refused) /\
  handleQueryAndSearchPage (env true) (handler None) QUERY p w =
    (inl (Error "Retrying search"), set_retireCalls (S (retireCalls w)) w).
Proof.
  intros w p.
  assert (QUERY = SEARCH /\ waitForSearchPageToLoad p = Some Faults.refused \/
          (QUERY <> SEARCH \/ waitForSearchPageToLoad p = None) /\
          pageQs p = inl Faults.refused) as H
    by (right; split; [left; discriminate|reflexivity]).
  split; [exact H|].
  exact (page_load_failure_retires_the_session (env true) (handler None) QUERY p w
           Faults.refused H).
Defined.

(** X14 on the north-west quarter, whose map split request is in the
    queue: none of the pages 2, 3 and 4 of its 120 results is kept. *)
Lemma pages_of_the_north_west_quarter_are_dropped :
  let w := add_requests [(mapSplitRequest (env true) "usa/nw" 1, false)]
             (world ∅ 120 []) in
  In (mapSplitRequest (env true) "usa/nw" 1) (host_queue (requestQueue w)) /\
  host_queue (requestQueue (_tryEnqueuePaginationPages (env true) "usa/nw" 120 w).2) =
    host_queue (requestQueue w).
Proof.
  intros w.
  assert (In (mapSplitRequest (env true) "usa/nw" 1) (host_queue (requestQueue w)))
    as H by (left; reflexivity).
  split; [exact H|].
  exact (host_queue_drops_the_pages_of_a_split (env true) "usa/nw" 1 120 w H).
Defined.

(** X16 on a record at 12-14 Elm St and the start URL of that very
    address. *)
Lemma record_at_12_14_Elm_St_never_matches :
  let r := result "33" "12-14 Elm St" in
  let starts := [mkStartUrl "https://www.zillow.com/homes/12-14-Elm-St" false] in
  In "-"%char (list_ascii_of_string (Js.first (Js.split " " (address r)))) /\
  matchedComparisons (env true) r (List.map startUrlAddress starts) = [].
Proof.
  intros r starts.
  assert (In "-"%char (list_ascii_of_string (Js.first (Js.split " " (address r)))))
    as H by (right; right; left; reflexivity).
  split; [exact H|].
  exact (street_number_with_a_dash_never_matches (env true) r starts H).
Defined.

(** X22 on a request without a response. *)
Lemma page_without_response_is_closed :
  let v := Crawling.visit false [] in
  let c := Crawling.crawl (world ∅ 0 []) None in
  let c0 := set_world (new_PageHandler (world_of c)) c in
  (response v = false \/ isOverItems (handler None) 0 (world_of c) = true) /\
  handlePageFunction (env true) (handler None) Crawling.main v c =
    (inl (Error "No response from page"), set_pageClosed true c0).
Proof.
  intros v c c0.
  assert (response v = false \/ isOverItems (handler None) 0 (world_of c) = true)
    as H by (left; reflexivity).
  split; [exact H|].
  exact (no_handler_without_response_or_past_the_cap (env true) (handler None)
           Crawling.main v c H).
Defined.

(** X23 on the pass over the zpid 11 of the input with an unusable
    session: the zpid takes the fallback and the page function throws. *)
Lemma unusable_session_retires_a_zpids_pass :
  let h := Crawling.zpids_handler ["11"] in
  let v := Crawling.visit true [] in
  let c := Crawling.crawl (world ∅ 0 []) (Some Crawling.ids) in
  let w := new_PageHandler (world_of c) in
  let r := handlePageFunction (env false) h Crawling.main v c in
  In (label (userData (request h))) [ZPIDS; QUERY; SEARCH] /\
  queryZpid_ids c = Some Crawling.ids /\
  response v = true /\
  isOverItems h 0 (world_of c) = false /\
  captcha_container v = inr false /\
  (forall w1, (scraperFunction v "HANDLE" w1).1 = None) /\
  r.1 = inl (Error "Retiring session and browser...") /\
  (markBadCalls w < markBadCalls (handleZpidsPage (env false) h w).2)%nat.
Proof.
  intros h v c w r.
  assert (In (label (userData (request h))) [ZPIDS; QUERY; SEARCH]) as H1
    by (left; reflexivity).
  assert (queryZpid_ids c = Some Crawling.ids) as H2 by reflexivity.
  assert (response v = true) as H3 by reflexivity.
  assert (isOverItems h 0 (world_of c) = false) as H4 by reflexivity.
  assert (captcha_container v = inr false) as H5 by reflexivity.
  assert (forall w1, (scraperFunction v "HANDLE" w1).1 = None) as H6
    by (intros w1; reflexivity).
  repeat (split; [assumption|]).
  pose proof (marked_session_is_retired (env false) h Crawling.main v c Crawling.ids
                H1 H2 H3 H4 H5 H6) as H.
  destruct H as [[H _]|(Hr & Hm & _)]; [discriminate H|].
  split; [exact Hr|exact Hm].
Defined.

(** X24 on the same pass. *)
Lemma flagged_pass_is_a_zpids_pass :
  let h := Crawling.zpids_handler ["11"] in
  let v := Crawling.visit true [] in
  let c := Crawling.crawl (world ∅ 0 []) (Some Crawling.ids) in
  anyErrors (world_of (handlePageFunction (env false) h Crawling.main v c).2) = true /\
  In (label (userData (request h))) [ZPIDS; QUERY; SEARCH] /\
  queryZpid_ids c <> None.
Proof.
  intros h v c.
  assert (anyErrors (world_of (handlePageFunction (env false) h Crawling.main v c).2) =
          true) as H by (vm_compute; reflexivity).
  split; [exact H|].
  exact (only_zpid_passes_flag_errors (env false) h Crawling.main v c H).
Defined.

(** X25 with [maxItems = 1] and one zpid extracted. *)
Lemma navigation_after_one_item_of_one :
  let h := handler (Some 1) in
  let v := Crawling.visit true [] in
  let c := Crawling.crawl (world {[ "1" ]} 0 []) (Some Crawling.ids) in
  let c1 := (postNavigationHook h c).2 in
  isOverItems h 0 (world_of c) = true /\
  isFinishing c = false /\
  isFinishing c1 = true /\
  preNavigationHook h Crawling.main v c1 =
    (inl (Error "Ending scrape"), set_noRetry true c1).
Proof.
  intros h v c c1.
  assert (isOverItems h 0 (world_of c) = true) as H by (vm_compute; reflexivity).
  split; [exact H|]. split; [reflexivity|].
  pose proof (navigation_is_refused_past_the_cap (env true) h Crawling.main v c H)
    as (_ & Hf & Hpre & _).
  split; [exact Hf|exact Hpre].
Defined.

(** X20 on the detail page of the zpid 11, with one script that holds a
    property and an output function that inserts the zpid and throws. *)
Lemma failing_output_on_a_detail_page :
  let h := Crawling.detail_handler "11" in
  let e := Faults.env inr Faults.insert_and_throw in
  let s := inr [("RenderQuery11", inr (Some "property"))] in
  let v := Crawling.visit true [s] in
  let c := Crawling.crawl (world ∅ 0 []) (Some Crawling.ids) in
  isOverItems h 0 (world_of c) = false /\
  JsString.startsWith (page_url (detailPage v)) "/b/" = false /\
  no_zpid_number h Crawling.main = false /\
  scripts (detailPage v) = inr [s] /\
  (forall w1 p z, (extendOutputFunction e w1 p z).1 <> None) /\
  (handleDetailPage e h Crawling.main v c).1 <> inr tt /\
  zpids (world_of (handleDetailPage e h Crawling.main v c).2) = {[ "11" ]} ∪ ∅.
Proof.
  intros h e s v c.
  assert (isOverItems h 0 (world_of c) = false) as H1 by reflexivity.
  assert (JsString.startsWith (page_url (detailPage v)) "/b/" = false) as H2
    by reflexivity.
  assert (no_zpid_number h Crawling.main = false) as H3 by reflexivity.
  assert (scripts (detailPage v) = inr [s]) as H4 by reflexivity.
  assert (forall w1 p z, (extendOutputFunction e w1 p z).1 <> None) as H5
    by (intros w1 p z; discriminate).
  repeat (split; [assumption|]).
  split; [|reflexivity].
  exact (proj1 (failing_output_function_fails_the_detail_page e h Crawling.main v c
                  s [] H1 H2 H3 H4 H5)).
Defined.

(** X17 on a search page that shows a captcha after the redirect: the
    session is retired twice and no zpid is processed. *)
Lemma captcha_on_the_search_page_retires_twice :
  let w := world ∅ 0 [main_st_url] in
  let sl :=
    mkSearchLoad None None (inr 0%nat) (inr true)
      "https://www.zillow.com/homes/Austin_rb/" (inr true) in
  let loaded := _waitForSearchPageToLoad sl w in
  let pass :=
    handleQueryAndSearchPage (env true) (handler None) SEARCH
      (searchPageLoad loaded.1 (page [])) loaded.2 in
  loaded.1 = inl (Error "Captcha found when searching, retrying...") /\
  pass.1 = inl (Error "Retrying search") /\
  retireCalls pass.2 = 2%nat /\
  queried pass.2 = [].
Proof. vm_compute. repeat split. Qed.

(** X26 on a page of 600 results when the one zpid that the handler
    expects is extracted already: the total is over the threshold of the
    map splits, yet nothing is enqueued and nothing is queried. *)
Lemma page_of_600_results_after_the_last_zpid :
  let w := world {[ "1" ]} 1 [main_st_url] in
  let r := _processExtractedQueryStates (env true) (handler None)
             [page_state "usa" [main_st]] 600 w in
  maxZpidsFound w <= Z.of_nat (size (zpids w)) /\
  r.1 = inr tt /\
  queried r.2 = queried w /\
  requestQueue r.2 = requestQueue w /\
  zpids r.2 = zpids w /\
  sleeps r.2 = sleeps w /\
  markBadCalls r.2 = markBadCalls w /\
  anyErrors r.2 = anyErrors w.
Proof.
  intros w r.
  assert (maxZpidsFound w <= Z.of_nat (size (zpids w))) as H
    by (vm_compute; discriminate).
  split; [exact H|]. split; [reflexivity|].
  exact (nothing_is_extracted_once_the_total_is_reached (env true) (handler None)
           [page_state "usa" [main_st]] 600 w H).
Defined.

(** X27 on a query page that is visited before the ids are known. *)
Lemma query_page_before_the_ids :
  let v := Crawling.visit true [] in
  let c := Crawling.crawl (world ∅ 0 [main_st_url]) None in
  let r := dispatch (env true) (handler None) Crawling.main v c in
  queryZpid_ids c = None /\
  label (userData (request (handler None))) = QUERY /\
  r.1 = inr tt /\
  queried (world_of r.2) = queried (world_of c) /\
  queryZpid_ids r.2 <> None.
Proof.
  intros v c r.
  assert (queryZpid_ids c = None) as H by reflexivity.
  split; [exact H|]. split; [reflexivity|].
  assert (r.1 = inr tt) as Hr by reflexivity.
  split; [exact Hr|].
  pose proof (queryZpid_is_not_called_while_null (env true) (handler None)
                Crawling.main v c H) as [Hq Hset].
  split; [exact Hq|exact (Hset Hr)].
Defined.

(** X28 on two requests for the initial page: the first one enqueues the
    start URL and sets the variable, the second one enqueues nothing and
    leaves the variable set. *)
Lemma second_initial_page_enqueues_nothing :
  let v := Crawling.visit true [] in
  let c := Crawling.crawl (world ∅ 0 [main_st_url]) None in
  let first := dispatch (env true) Crawling.initial_handler Crawling.main v c in
  let second := dispatch (env true) Crawling.initial_handler Crawling.main v first.2 in
  requestQueue (world_of first.2) = [(request0, false)] /\
  queryZpid_ids first.2 <> None /\
  label (userData (request Crawling.initial_handler)) = INITIAL /\
  queryZpid_ids second.2 <> None /\
  requestQueue (world_of second.2) = requestQueue (world_of first.2).
Proof.
  intros v c first second.
  assert (queryZpid_ids first.2 <> None) as H1 by discriminate.
  assert (label (userData (request Crawling.initial_handler)) = INITIAL) as H2
    by reflexivity.
  split; [reflexivity|]. split; [exact H1|]. split; [exact H2|].
  pose proof (start_urls_are_not_enqueued_once_queryZpid_is_set (env true)
                Crawling.initial_handler Crawling.main v first.2 H1) as [Hset Hq].
  split; [exact Hset|exact (Hq H2)].
Defined.

(** C4 on two merged records and two targets: [main_st] is the one record
    with a qualifying target; it is collected with the first target and is
    the one record kept. *)
Lemma best_match_of_two_records :
  let w := world ∅ 2 [main_st_url; pine_rd_url] in
  let queryStates := [page_state "usa" [main_st; oak_ave]] in
  let su := List.map startUrlAddress (cleanStartUrls w) in
  match_loop (env true) su (_mergeListResultsMapResults queryStates) [] w =
    (inr [main_st_matched], world_matched ∅ 2) /\
  reduce higherMatch [main_st_matched] = inr main_st_matched /\
  List.filter
    (fun r =>
       Nat.ltb 0
         (length (List.filter (qualifies (address r))
                    (sortMatch (env true) (address r) su))))
    (_mergeListResultsMapResults queryStates) = [main_st] /\
  last_maximum match_rating [main_st_matched] main_st_matched.
Proof.
  intros w queryStates su.
  assert (match_loop (env true) su (_mergeListResultsMapResults queryStates) [] w =
          (inr [main_st_matched], world_matched ∅ 2)) as H1 by reflexivity.
  assert (reduce higherMatch [main_st_matched] = inr main_st_matched) as H2
    by reflexivity.
  split; [exact H1|]. split; [exact H2|]. split; [reflexivity|].
  exact (proj1 (proj2 (proj2 (best_match_is_last_maximum (env true) (handler None)
                                queryStates 2 w _ _ _ H1 H2)))).
Defined.

(** C2 on the same page with one target: the record [main_st] is the best
    match, and its zpid 11 is the first zpid that the pass queries. *)
Lemma best_match_of_the_page_is_queried :
  let w := world ∅ 2 [main_st_url] in
  let queryStates := [page_state "usa" [main_st; oak_ave]] in
  let su := List.map startUrlAddress (cleanStartUrls w) in
  let best := mkResult (Some "11") None "100 Main St"
                (Some (mkComparison "100 Main St" 0 1)) (Some main_st_url) in
  let w1 := set_cleanStartUrls [mkStartUrl main_st_url true] w in
  let r := _processExtractedQueryStates (env true) (handler None) queryStates 2 w in
  match_loop (env true) su (_mergeListResultsMapResults queryStates) [] w =
    (inr [best], w1) /\
  reduce higherMatch [best] = inr best /\
  zpid best = Some "11" /\
  Js.truthy "11" = true /\
  Js.plus_loosely_differs "11" = false /\
  ("11" ∉ zpids w) /\
  isOverItems (handler None) 0 w = false /\
  Z.of_nat (size (zpids w)) < maxZpidsFound w /\
  (forall w', session_isUsable (env true) w' = true) /\
  exists more, queried r.2 = queried w ++ "11" :: more.
Proof.
  intros w queryStates su best w1 r.
  assert (match_loop (env true) su (_mergeListResultsMapResults queryStates) [] w =
          (inr [best], w1)) as H1 by reflexivity.
  assert (reduce higherMatch [best] = inr best) as H2 by reflexivity.
  assert (zpid best = Some "11") as H3 by reflexivity.
  assert (Js.truthy "11" = true) as H4 by reflexivity.
  assert (Js.plus_loosely_differs "11" = false) as H5 by reflexivity.
  assert ("11" ∉ zpids w) as H6 by (simpl; apply not_elem_of_empty).
  assert (isOverItems (handler None) 0 w = false) as H7 by reflexivity.
  assert (Z.of_nat (size (zpids w)) < maxZpidsFound w) as H8 by reflexivity.
  assert (forall w', session_isUsable (env true) w' = true) as H9
    by (intros w'; reflexivity).
  repeat (split; [assumption|]).
  destruct (proj2 (extraction_runs_over_best_match_only (env true) (handler None)
                     queryStates 2 w) [best] w1 best H1 H2) as (_ & _ & _ & H).
  exact (H "11" H3 H4 H5 H6 H7 H8 H9).
Defined.

(** C10 on the zpid 11 when its query is refused on two pages: both
    fallback requests have the key 11, and the host's queue holds one
    request after the second failure as after the first. *)
Lemma two_refused_queries_of_11 :
  let e := Faults.env Faults.refuse Faults.insert in
  let w1 := world ∅ 0 [] in
  let r1 := processZpid e (handler None) "11" None w1 in
  let w2 := r1.2 in
  let r2 := processZpid e handler_split_page2 "11" (Some "/homedetails/11_zpid/") w2 in
  extraction_fails e (handler None) "11" w1 Faults.refused /\
  extraction_fails e handler_split_page2 "11" w2 Faults.refused /\
  requestQueue w2 = requestQueue r1.2 ++ [] /\
  List.map uniqueKey (host_queue (requestQueue r1.2)) = [Some "11"] /\
  host_queue (requestQueue r2.2) = host_queue (requestQueue w2) /\
  length (List.filter (fun r => bool_decide (uniqueKey r = Some "11"))
            (host_queue (requestQueue r2.2))) = 1%nat.
Proof.
  intros e w1 r1 w2 r2.
  assert (extraction_fails e (handler None) "11" w1 Faults.refused) as H1
    by (repeat split; reflexivity).
  assert (extraction_fails e handler_split_page2 "11" w2 Faults.refused) as H2
    by (repeat split; reflexivity).
  assert (requestQueue w2 = requestQueue r1.2 ++ []) as H3 by reflexivity.
  split; [exact H1|]. split; [exact H2|]. split; [exact H3|].
  split; [reflexivity|].
  exact (proj2 (proj2 (proj2 (proj2 (proj2 (proj2
           (fallback_uniqueKey_is_the_zpid e (handler None) handler_split_page2 "11"
              None (Some "/homedetails/11_zpid/") w1 w2 Faults.refused Faults.refused
              [] H1 H2 H3))))))).
Defined.

(** X8 on two merged records and two targets: one record is pushed, and
    the start URL of its target is flagged. *)
Lemma matching_of_two_records :
  let w := world ∅ 2 [main_st_url; pine_rd_url] in
  let su := List.map startUrlAddress (cleanStartUrls w) in
  match_loop (env true) su [main_st; oak_ave] [] w =
    (inr [main_st_matched], world_matched ∅ 2) /\
  flags_raised (cleanStartUrls w) (cleanStartUrls (world_matched ∅ 2)) /\
  Forall2 (pushed_for (env true) su (cleanStartUrls w))
    (List.filter (fun r => Nat.ltb 0 (length (matchedComparisons (env true) r su)))
       [main_st; oak_ave])
    [main_st_matched].
Proof.
  intros w su.
  assert (match_loop (env true) su [main_st; oak_ave] [] w =
          (inr [main_st_matched], world_matched ∅ 2)) as H1 by reflexivity.
  split; [exact H1|].
  destruct (matching_loop_flags_the_selected_start_urls (env true) [main_st; oak_ave]
              w (world_matched ∅ 2) [main_st_matched] H1) as (_ & Hf & Hp & _).
  split; [exact Hf|exact Hp].
Defined.

(** X9 on a page with two merged records and two targets, one of them
    the address of the first record: one report of results and one "no
    match" report, for the other target. *)
Lemma reports_of_two_records :
  let w := world ∅ 2 [main_st_url; pine_rd_url] in
  let r := _processExtractedQueryStates (env true) (handler None)
             [page_state "usa" [main_st; oak_ave]] 2 w in
  r.1 = inr tt /\
  posted r.2 = [ReportResults [main_st_matched]; ReportNoMatch pine_rd_url] /\
  exists best unmatched,
    posted r.2 =
      posted w ++
      ReportResults [best] :: List.map (fun f => ReportNoMatch (su_url f)) unmatched /\
    unmatched = List.filter (not_matched [best]) (cleanStartUrls r.2) /\
    Forall (fun f => matched f = false /\ baseUrl best <> Some (su_url f)) unmatched.
Proof.
  intros w r.
  assert (r.1 = inr tt) as H1 by reflexivity.
  split; [exact H1|]. split; [reflexivity|].
  exact (proj2 (proj2 (proj2 (proj2
           (reports_of_a_pass (env true) (handler None)
              [page_state "usa" [main_st; oak_ave]] 2 w)))) H1).
Defined.

(** X11 on a query page whose embedded state cannot be read: the pass
    throws "Retrying search" after one call to [session.retire()]. *)
Lemma unreadable_page_retires_once :
  let w := world ∅ 0 [main_st_url] in
  let p := mkPageLoad None (inl Faults.refused) (inr []) in
  let r := handleQueryAndSearchPage (env true) (handler None) QUERY p w in
  r.1 = inl (Error "Retrying search") /\
  retireCalls r.2 = S (retireCalls w) /\ posted r.2 = posted w.
Proof.
  intros w p r.
  assert (r.1 = inl (Error "Retrying search")) as H1 by reflexivity.
  split; [exact H1|].
  exact (proj1 (proj2 (outcomes_of_a_search_pass (env true) (handler None) QUERY p w))
           H1).
Defined.

End MoreExamples.
